(** * Video/image converter tool: job lifecycle

    A shallow embedding of [VideoImageConverterTool]
    (tools/video_image_converter/video_image_converter_tool.py) and the
    properties of its job store: submission ([execute_tool]), deferred
    conversion ([convert_and_save]) and garbage collection
    ([cleanup_old_files]).

    The tool object and its environment (file system, clock, uuid source,
    standard output) are an explicit state; Python exceptions are an
    outcome of every step, and side effects made before an exception is
    raised persist, as they do in Python. *)

From Stdlib Require Import ZArith String Ascii List Sorted Permutation.
From Stdlib Require OrderedTypeEx.
From stdpp Require Import gmap strings list fin_maps pretty sorting.

Open Scope string_scope.
Open Scope Z_scope.

(** ** Python strings

    A [str] is its UTF-8 byte sequence.  Byte-wise lexicographic order of
    UTF-8 coincides with Python's code-point order. *)

Definition is_ascii (s : string) : bool :=
  forallb (fun c => (nat_of_ascii c <? 128)%nat) (list_ascii_of_string s).

Definition ascii_lower (c : ascii) : ascii :=
  let n := nat_of_ascii c in
  if ((65 <=? n) && (n <=? 90))%nat then ascii_of_nat (n + 32) else c.

(** U+212A KELVIN SIGN is the bytes E2 84 AA, U+0130 LATIN CAPITAL LETTER
    I WITH DOT ABOVE the bytes C4 B0, and U+0307 COMBINING DOT ABOVE the
    bytes CC 87. *)
Definition kelvin_sign (c0 c1 c2 : ascii) : bool :=
  ((nat_of_ascii c0 =? 226) && (nat_of_ascii c1 =? 132)
   && (nat_of_ascii c2 =? 170))%nat.

Definition dotted_capital_i (c0 c1 : ascii) : bool :=
  ((nat_of_ascii c0 =? 196) && (nat_of_ascii c1 =? 176))%nat.

Definition combining_dot : string :=
  String (ascii_of_nat 204) (String (ascii_of_nat 135) EmptyString).

(** [str.lower()].  The ASCII letters are lowered.  Of the characters
    outside ASCII, two have an ASCII letter in their lower-case form: the
    Kelvin sign becomes [k], and the dotted capital I becomes [i] followed
    by a combining dot.  The other characters outside ASCII are left as
    they are: their lower-case forms have no ASCII character either, so a
    test of the result against an ASCII suffix comes out as in Python. *)
Fixpoint str_lower (s : string) : string :=
  match s with
  | EmptyString => EmptyString
  | String c r =>
      let plain := String (ascii_lower c) (str_lower r) in
      match r with
      | EmptyString => plain
      | String c1 r1 =>
          if dotted_capital_i c c1
          then String "i" (combining_dot ++ str_lower r1)
          else
            match r1 with
            | EmptyString => plain
            | String c2 r2 =>
                if kelvin_sign c c1 c2 then String "k" (str_lower r2)
                else plain
            end
      end
  end.

Definition str_startswith (s prefix : string) : bool := String.prefix prefix s.

Definition str_endswith (s suffix : string) : bool :=
  let n := String.length s in
  let m := String.length suffix in
  ((m <=? n)%nat && String.eqb (substring (n - m) m s) suffix)%bool.

(** [strip_prefix p s] is [Some r] when [s = p ++ r]. *)
Fixpoint strip_prefix (p s : string) : option string :=
  match p, s with
  | EmptyString, _ => Some s
  | String a p', String b s' => if Ascii.eqb a b then strip_prefix p' s' else None
  | String _ _, EmptyString => None
  end.

Fixpoint str_contains_char (c : ascii) (s : string) : bool :=
  match s with
  | EmptyString => false
  | String b r => (Ascii.eqb c b || str_contains_char c r)%bool
  end.

(** [str.split(sep)] for a one-character separator. *)
Fixpoint str_split (sep : ascii) (s : string) : list string :=
  match s with
  | EmptyString => [EmptyString]
  | String c r =>
      if Ascii.eqb c sep then EmptyString :: str_split sep r
      else match str_split sep r with
           | [] => [String c EmptyString]
           | w :: ws => String c w :: ws
           end
  end.

(** ['{:04d}'.format(i)] and C's [%04d], for a natural number. *)
Definition zfill (width : nat) (s : string) : string :=
  String.concat "" (repeat "0" (width - String.length s)%nat) ++ s.

Definition format_04d (i : nat) : string := zfill 4 (pretty i).

(** Replace the first occurrence of [old] in [s]. *)
Fixpoint replace_first (old new s : string) : string :=
  match strip_prefix old s with
  | Some rest => new ++ rest
  | None =>
      match s with
      | EmptyString => EmptyString
      | String c r => String c (replace_first old new r)
      end
  end.

(** [int(s)] on a string of ASCII characters: optional surrounding white
    space, an optional sign, decimal digits, single underscores between
    digits, and no more digits than [sys.get_int_max_str_digits()].
    Python also reads the decimal digits and the white space of other
    scripts; these are not modelled, so [int_of_str] is [int] on ASCII
    text only. *)
Definition is_space (c : ascii) : bool :=
  let n := nat_of_ascii c in
  ((n =? 32) || ((9 <=? n) && (n <=? 13)))%nat.

Fixpoint lstrip (s : string) : string :=
  match s with
  | String c r => if is_space c then lstrip r else s
  | EmptyString => EmptyString
  end.

Definition str_strip (s : string) : string :=
  String.rev (lstrip (String.rev (lstrip s))).

Definition digit_of (c : ascii) : option Z :=
  let n := nat_of_ascii c in
  if ((48 <=? n) && (n <=? 57))%nat then Some (Z.of_nat (n - 48)) else None.

Fixpoint parse_digits (s : string) (acc : Z) (after_digit : bool) : option Z :=
  match s with
  | EmptyString => if after_digit then Some acc else None
  | String c r =>
      match digit_of c with
      | Some d => parse_digits r (10 * acc + d) true
      | None =>
          if (Ascii.eqb c "_" && after_digit)%bool then parse_digits r acc false
          else None
      end
  end.

(** The sign a literal starts with, if any, and what follows it. *)
Definition strip_sign (s : string) : bool * string :=
  match s with
  | EmptyString => (false, s)
  | String c r =>
      if Ascii.eqb c "-" then (true, r)
      else if Ascii.eqb c "+" then (false, r)
      else (false, s)
  end.

(** The number of digits in the run of digits and underscores a string
    starts with; [None] when the run is empty or has a leading, a doubled
    or a trailing underscore. *)
Fixpoint digit_run (s : string) (after_digit : bool) (digits : Z)
  : option Z :=
  match s with
  | EmptyString => if after_digit then Some digits else None
  | String c r =>
      match digit_of c with
      | Some _ => digit_run r true (digits + 1)
      | None =>
          if Ascii.eqb c "_" then
            if after_digit then digit_run r false digits else None
          else if after_digit then Some digits else None
      end
  end.

(** The default of [sys.get_int_max_str_digits()]. *)
Definition int_max_str_digits : Z := 4300.

(** The number of digits of a literal that has more than the limit.  The
    digits are counted, leading zeros included, before the rest of the
    string is looked at. *)
Definition digits_over_limit (s : string) : option Z :=
  match digit_run (snd (strip_sign (lstrip s))) false 0 with
  | Some digits => if digits >? int_max_str_digits then Some digits else None
  | None => None
  end.

Definition int_of_str (s : string) : option Z :=
  match digits_over_limit s with
  | Some _ => None
  | None =>
      let signed := strip_sign (str_strip s) in
      match parse_digits (snd signed) 0 false with
      | Some n => Some (if fst signed then - n else n)
      | None => None
      end
  end.

(** [repr(s)] of a string of ASCII characters.  Double quotes are used
    when the string has a single quote and no double quote.  Bytes
    outside ASCII are copied, as Python copies printable characters. *)
Definition single_quote : ascii := ascii_of_nat 39.
Definition double_quote : ascii := ascii_of_nat 34.
Definition backslash : ascii := ascii_of_nat 92.

Definition hex_digit (n : nat) : ascii :=
  nth n (list_ascii_of_string "0123456789abcdef") "0"%char.

Definition repr_char (quote c : ascii) : string :=
  let n := nat_of_ascii c in
  if (Ascii.eqb c quote || Ascii.eqb c backslash)%bool
  then String backslash (String c EmptyString)
  else if (n =? 9)%nat then String backslash "t"
  else if (n =? 10)%nat then String backslash "n"
  else if (n =? 13)%nat then String backslash "r"
  else if ((n <? 32) || (n =? 127))%nat
  then String backslash
         (String "x" (String (hex_digit (n / 16))
                        (String (hex_digit (n mod 16)) EmptyString)))
  else String c EmptyString.

Definition py_repr (s : string) : string :=
  let chars := list_ascii_of_string s in
  let quote :=
    if (existsb (Ascii.eqb single_quote) chars
        && negb (existsb (Ascii.eqb double_quote) chars))%bool
    then double_quote else single_quote in
  String quote
    (String.concat "" (map (repr_char quote) chars)
     ++ String quote EmptyString).

(** The message of the [ValueError] that [int(s)] raises.  The literal is
    shown with the format [%.200R]. *)
Definition int_failure (s : string) : string :=
  match digits_over_limit s with
  | Some digits =>
      "Exceeds the limit (" ++ pretty int_max_str_digits
      ++ " digits) for integer string conversion: value has "
      ++ pretty digits
      ++ " digits; use sys.set_int_max_str_digits() to increase the limit"
  | None =>
      "invalid literal for int() with base 10: "
      ++ substring 0 200 (py_repr s)
  end.

(** [list.sort()] on strings: the order is [<=] on strings. *)
Definition str_le (a b : string) : Prop := String.leb a b = true.

#[global] Instance str_le_dec (a b : string) : Decision (str_le a b).
Proof. unfold str_le. apply _. Defined.

Definition list_sort (l : list string) : list string := merge_sort str_le l.

(** ** Paths ([posixpath]) *)

Definition os_path_join (a b : string) : string :=
  if str_startswith b "/" then b
  else if (String.eqb a "" || str_endswith a "/")%bool then a ++ b
  else a ++ "/" ++ b.

(** [posixpath.split]: the head is everything before the last slash,
    without its trailing slashes unless it consists of slashes only. *)
Fixpoint rstrip_slash_rev (r : string) : string :=
  match r with
  | String "/" r' => rstrip_slash_rev r'
  | _ => r
  end.

Fixpoint split_last_slash_rev (r : string) (tail : string) : string * string :=
  match r with
  | EmptyString => (EmptyString, tail)
  | String "/" _ => (r, tail)
  | String c r' => split_last_slash_rev r' (String c tail)
  end.

Definition os_path_split (p : string) : string * string :=
  let '(head_rev, tail) := split_last_slash_rev (String.rev p) "" in
  let stripped := rstrip_slash_rev head_rev in
  (String.rev (if String.eqb stripped "" then head_rev else stripped), tail).

Definition os_path_dirname (p : string) : string := fst (os_path_split p).


(** ** Exceptions

    The exception classes the modelled operations raise.  All of them are
    subclasses of Python's [Exception], so an [except Exception] clause
    catches each. *)

Inductive exn :=
| KeyError (key : string)
| ValueError (msg : string)
| FileNotFoundError (path : string)
| FileExistsError (path : string)
| IsADirectoryError (path : string)
| NotADirectoryError (path : string)
| PermissionError (path : string)
| DirectoryNotEmpty (path : string)
| BadZipFile (msg : string)
| UnidentifiedImageError (path : string)
| FfmpegError (msg : string)
| Exception (msg : string).

(** [str(e)].  A key and a path are shown by [repr]; the error numbers
    and their texts are those of Linux. *)
Definition str_exn (e : exn) : string :=
  match e with
  | KeyError key => py_repr key
  | ValueError msg => msg
  | FileNotFoundError path => "[Errno 2] No such file or directory: " ++ py_repr path
  | FileExistsError path => "[Errno 17] File exists: " ++ py_repr path
  | IsADirectoryError path => "[Errno 21] Is a directory: " ++ py_repr path
  | NotADirectoryError path => "[Errno 20] Not a directory: " ++ py_repr path
  | PermissionError path => "[Errno 13] Permission denied: " ++ py_repr path
  | DirectoryNotEmpty path => "[Errno 39] Directory not empty: " ++ py_repr path
  | BadZipFile msg => msg
  | UnidentifiedImageError path => "cannot identify image file " ++ py_repr path
  | FfmpegError msg => msg
  | Exception msg => msg
  end.

(** ** File contents

    Pixel data is kept symbolic: resizing and colour conversion are done
    by the image library, and the model records which operations were
    applied to which source pixels. *)

Inductive pixels :=
| Px (id : string)
| Resized (p : pixels) (width height : Z)
| Converted (p : pixels) (mode : string).

Record image := {
  img_format : string;
  img_size : Z * Z;
  img_mode : string;
  img_pixels : pixels
}.

#[warnings="-register-all"]
Inductive data :=
| Bytes (tag : string)
| Picture (img : image)
| Zip (members : list (string * data)).

Inductive node :=
| Dir
| File (d : data).

(** ** The job record and the tool object *)

(** A Python [dict] with string keys: insertion ordered, keys unique. *)
Definition dict (V : Type) := list (string * V).

Fixpoint dict_get {V} (k : string) (d : dict V) : option V :=
  match d with
  | [] => None
  | (k', v) :: r => if String.eqb k k' then Some v else dict_get k r
  end.

(** [d[k] = v]: the value is replaced in place when the key is present,
    appended otherwise. *)
Fixpoint dict_set {V} (k : string) (v : V) (d : dict V) : dict V :=
  match d with
  | [] => [(k, v)]
  | (k', v') :: r =>
      if String.eqb k k' then (k, v) :: r else (k', v') :: dict_set k v r
  end.

(** [d.pop(k, None)], the dictionary part. *)
Fixpoint dict_pop {V} (k : string) (d : dict V) : dict V :=
  match d with
  | [] => []
  | (k', v') :: r => if String.eqb k k' then r else (k', v') :: dict_pop k r
  end.

Definition dict_keys {V} (d : dict V) : list string := map fst d.

Fixpoint unique_keys (ks : list string) : bool :=
  match ks with
  | [] => true
  | k :: r => (negb (existsb (String.eqb k) r) && unique_keys r)%bool
  end.

(** The representation invariant of a [dict]. *)
Definition dict_wf {V} (d : dict V) : Prop := unique_keys (dict_keys d) = true.

(** The record [execute_tool] stores under a token.  [timestamp] is a
    naive [datetime] in microseconds. *)
Record Conversion := {
  file_path : string;
  filename : string;
  conversion_type : string;
  fps : string;
  quality : string;
  image_format : string;
  video_format : string;
  timestamp : Z;
  downloaded : bool
}.

(** [input_params]: a key that may be absent is an [option]; the values
    are the strings the form layer delivers. *)
Record FileInfo := {
  fi_file_path : option string;
  fi_filename : option string
}.

Record InputParams := {
  ip_file : option FileInfo;
  ip_conversion_type : option string;
  ip_fps : option string;
  ip_quality : option string;
  ip_image_format : option string;
  ip_video_format : option string
}.

(** The attributes of [self] that the methods read or write. *)
Record Tool := {
  pending_conversions : dict Conversion;
  temp_dir : string;
  error_message : string;
  output : string
}.

(** The keyword arguments of the encoding run of [ffmpeg]. *)
Record x264_args := {
  vcodec : string;
  pix_fmt : string;
  crf : string;
  preset : string
}.

(** The environment: the file system, the paths on which a modifying
    system call is refused, what was printed, the wall clock in
    microseconds, and the source of random uuids with the number drawn.

    The media engine is external.  The size the operating system reports
    for a node ([st_size]), what [ffmpeg] decodes from a video given the
    filter and the output pattern ([ffmpeg_decode]), and what it encodes
    from a frame sequence given the frame rate, the arguments and the
    output path ([ffmpeg_encode]) are part of the environment; [None] is
    a run of [ffmpeg] that exits with an error. *)
Record World := {
  fs : gmap string node;
  locked : gset string;
  stdout : list string;
  clock : Z;
  uuid_source : nat -> string;
  uuid_drawn : nat;
  st_size : node -> Z;
  ffmpeg_decode : data -> string -> string -> option (list data);
  ffmpeg_encode : list data -> Z -> x264_args -> string -> option data
}.

Record State := {
  self : Tool;
  world : World
}.

(** ** The monad of Python statements *)

Inductive outcome (A : Type) :=
| Return (a : A)
| Raise (e : exn).
Arguments Return {A} a.
Arguments Raise {A} e.

Definition M (A : Type) : Type := State -> outcome A * State.

Definition ret {A} (a : A) : M A := fun st => (Return a, st).

Definition raise {A} (e : exn) : M A := fun st => (Raise e, st).

Definition bind {A B} (m : M A) (k : A -> M B) : M B :=
  fun st =>
    match m st with
    | (Return a, st1) => k a st1
    | (Raise e, st1) => (Raise e, st1)
    end.

(** [try: body except Exception as e: handler]. *)
Definition try_except {A} (body : M A) (handler : exn -> M A) : M A :=
  fun st =>
    match body st with
    | (Return a, st1) => (Return a, st1)
    | (Raise e, st1) => handler e st1
    end.

Declare Scope py_scope.
Delimit Scope py_scope with py.
Notation "x <- m ;; k" := (bind m (fun x => k))
  (at level 100, m at next level, right associativity) : py_scope.
Notation "m ;;; k" := (bind m (fun _ => k))
  (at level 100, right associativity) : py_scope.
Open Scope py_scope.

(** [for x in l: body x]. *)
Fixpoint for_each {A} (l : list A) (body : A -> M unit) : M unit :=
  match l with
  | [] => ret tt
  | x :: r => body x ;;; for_each r body
  end.

(** [d[key]] on an optional key. *)
Definition getitem {A} (key : string) (v : option A) : M A :=
  match v with
  | Some a => ret a
  | None => raise (KeyError key)
  end.

Definition get_self : M Tool := fun st => (Return (self st), st).
Definition get_world : M World := fun st => (Return (world st), st).

Definition put_self (t : Tool) : M unit :=
  fun st => (Return tt, {| self := t; world := world st |}).
Definition put_world (w : World) : M unit :=
  fun st => (Return tt, {| self := self st; world := w |}).

Definition set_pending_conversions (d : dict Conversion) (t : Tool) : Tool :=
  {| pending_conversions := d; temp_dir := temp_dir t;
     error_message := error_message t; output := output t |}.
Definition set_error_message (msg : string) (t : Tool) : Tool :=
  {| pending_conversions := pending_conversions t; temp_dir := temp_dir t;
     error_message := msg; output := output t |}.
Definition set_output (html : string) (t : Tool) : Tool :=
  {| pending_conversions := pending_conversions t; temp_dir := temp_dir t;
     error_message := error_message t; output := html |}.

Definition set_fs (f : gmap string node) (w : World) : World :=
  {| fs := f; locked := locked w; stdout := stdout w; clock := clock w;
     uuid_source := uuid_source w; uuid_drawn := uuid_drawn w;
     st_size := st_size w; ffmpeg_decode := ffmpeg_decode w;
     ffmpeg_encode := ffmpeg_encode w |}.
Definition set_stdout (out : list string) (w : World) : World :=
  {| fs := fs w; locked := locked w; stdout := out; clock := clock w;
     uuid_source := uuid_source w; uuid_drawn := uuid_drawn w;
     st_size := st_size w; ffmpeg_decode := ffmpeg_decode w;
     ffmpeg_encode := ffmpeg_encode w |}.
Definition set_uuid_drawn (n : nat) (w : World) : World :=
  {| fs := fs w; locked := locked w; stdout := stdout w; clock := clock w;
     uuid_source := uuid_source w; uuid_drawn := n;
     st_size := st_size w; ffmpeg_decode := ffmpeg_decode w;
     ffmpeg_encode := ffmpeg_encode w |}.

Definition modify_self (f : Tool -> Tool) : M unit :=
  t <- get_self ;; put_self (f t).
Definition modify_world (f : World -> World) : M unit :=
  w <- get_world ;; put_world (f w).

(** [print(msg)]. *)
Definition print (msg : string) : M unit :=
  modify_world (fun w => set_stdout (stdout w ++ [msg]) w).

(** [datetime.now()]. *)
Definition datetime_now : M Z := w <- get_world ;; ret (clock w).

(** [str(uuid.uuid4())]. *)
Definition uuid4 : M string :=
  w <- get_world ;;
  put_world (set_uuid_drawn (S (uuid_drawn w)) w) ;;;
  ret (uuid_source w (uuid_drawn w)).

(** ** The file system

    A path names a node by its text: [.], [..] and empty components are
    not resolved, so the model covers the runs on normalised paths, such
    as the tool builds with [os.path.join] from the temporary directory
    and plain names.  The root always exists. *)

Definition stat (f : gmap string node) (p : string) : option node :=
  if String.eqb p "/" then Some Dir else f !! p.

Definition get_fs : M (gmap string node) := w <- get_world ;; ret (fs w).
Definition put_fs (f : gmap string node) : M unit := modify_world (set_fs f).

Definition is_locked (p : string) : M bool :=
  w <- get_world ;; ret (bool_decide (p ∈ locked w)).

Definition os_path_exists (p : string) : M bool :=
  f <- get_fs ;;
  ret (match stat f p with Some _ => true | None => false end).

Definition os_path_isdir (p : string) : M bool :=
  f <- get_fs ;;
  ret (match stat f p with Some Dir => true | _ => false end).

(** The directory a new entry [p] is created in must exist; the empty
    head is the current directory. *)
Definition check_parent (p : string) : M unit :=
  let head := os_path_dirname p in
  f <- get_fs ;;
  if String.eqb head "" then ret tt
  else match stat f head with
       | Some Dir => ret tt
       | Some (File _) => raise (NotADirectoryError p)
       | None => raise (FileNotFoundError p)
       end.

(** [open(p, 'wb')], writing [d], and closing. *)
Definition fs_write (p : string) (d : data) : M unit :=
  check_parent p ;;;
  f <- get_fs ;;
  match stat f p with
  | Some Dir => raise (IsADirectoryError p)
  | _ =>
      denied <- is_locked p ;;
      if denied then raise (PermissionError p)
      else put_fs (<[p := File d]> f)
  end.

Definition os_remove (p : string) : M unit :=
  f <- get_fs ;;
  match stat f p with
  | None => raise (FileNotFoundError p)
  | Some Dir => raise (IsADirectoryError p)
  | Some (File _) =>
      denied <- is_locked p ;;
      if denied then raise (PermissionError p)
      else put_fs (delete p f)
  end.

Definition os_mkdir (p : string) : M unit :=
  f <- get_fs ;;
  match stat f p with
  | Some _ => raise (FileExistsError p)
  | None =>
      check_parent p ;;;
      denied <- is_locked p ;;
      if denied then raise (PermissionError p)
      else put_fs (<[p := Dir]> f)
  end.

(** [os.makedirs(name, exist_ok=True)].  The recursion is on the head of
    [name], which is shorter than [name]; [fuel] is the length of the
    name the recursion started from, so the branch for no fuel is never
    taken ([os_makedirs_rec_enough] below). *)
Fixpoint os_makedirs_rec (fuel : nat) (name : string) : M unit :=
  let '(head, tail) := os_path_split name in
  let '(head, tail) :=
    if String.eqb tail "" then os_path_split head else (head, tail) in
  head_exists <- os_path_exists head ;;
  returned <-
    (if (negb (String.eqb head "") && negb (String.eqb tail "")
         && negb head_exists)%bool
     then
       match fuel with
       | O => ret tt
       | S fuel' =>
           try_except (os_makedirs_rec fuel' head)
             (fun e => match e with
                       | FileExistsError _ => ret tt
                       | _ => raise e
                       end)
       end ;;;
       ret (String.eqb tail ".")
     else ret false) ;;
  if (returned : bool) then ret tt
  else
    try_except (os_mkdir name)
      (fun e =>
         isdir <- os_path_isdir name ;;
         if (isdir : bool) then ret tt else raise e).

Definition os_makedirs (name : string) : M unit :=
  os_makedirs_rec (String.length name) name.

Definition dir_prefix (p : string) : string :=
  if str_endswith p "/" then p else p ++ "/".

(** The entries directly below [p], in the enumeration order of the map
    ([os.listdir] promises no order). *)
Definition children (f : gmap string node) (p : string) : list string :=
  omap (fun '(k, _) =>
          match strip_prefix (dir_prefix p) k with
          | Some name =>
              if (String.eqb name "" || str_contains_char "/" name)%bool
              then None else Some name
          | None => None
          end) (map_to_list f).

Definition os_listdir (p : string) : M (list string) :=
  f <- get_fs ;;
  match stat f p with
  | None => raise (FileNotFoundError p)
  | Some (File _) => raise (NotADirectoryError p)
  | Some Dir => ret (children f p)
  end.

Definition os_rmdir (p : string) : M unit :=
  f <- get_fs ;;
  match stat f p with
  | None => raise (FileNotFoundError p)
  | Some (File _) => raise (NotADirectoryError p)
  | Some Dir =>
      match children f p with
      | _ :: _ => raise (DirectoryNotEmpty p)
      | [] =>
          denied <- is_locked p ;;
          if denied then raise (PermissionError p)
          else put_fs (delete p f)
      end
  end.

(** ** [zipfile] *)

(** [zipfile.ZipFile(path, 'r').filelist], with each member's payload. *)
Definition zip_open_read (path : string) : M (list (string * data)) :=
  f <- get_fs ;;
  match stat f path with
  | None => raise (FileNotFoundError path)
  | Some Dir => raise (IsADirectoryError path)
  | Some (File (Zip members)) => ret members
  | Some (File _) => raise (BadZipFile "File is not a zip file")
  end.

(** The name a member is extracted under: empty, [.] and [..] components
    are dropped. *)
Definition zip_arcname (name : string) : string :=
  String.concat "/"
    (filter (fun x => x ∉ [""; "."; ".."]) (str_split "/" name)).

(** [zipf.extract(member, path)] for a member that is not a directory.
    The name of a member with an image extension never sanitises to the
    empty name, so the first branch is not taken for the members
    [_images_to_video] extracts. *)
Definition zip_extract (member : string * data) (path : string) : M unit :=
  let arcname := zip_arcname (fst member) in
  if String.eqb arcname "" then raise (ValueError "Empty filename.")
  else
    let targetpath := os_path_join path arcname in
    let upperdirs := os_path_dirname targetpath in
    upper_exists <- os_path_exists upperdirs ;;
    (if (negb (String.eqb upperdirs "") && negb upper_exists)%bool
     then os_makedirs upperdirs else ret tt) ;;;
    fs_write targetpath (snd member).

(** [zipfile.ZipFile(path, 'w', ZIP_DEFLATED)]: the archive file is
    created empty; each [write] appends a member. *)
Definition zip_open_write (path : string) : M unit := fs_write path (Zip []).

Definition zip_members (f : gmap string node) (path : string)
  : list (string * data) :=
  match f !! path with
  | Some (File (Zip members)) => members
  | _ => []
  end.

(** [zipf.write(filename, arcname)] on the archive open at [zip_path]. *)
Definition zip_write (zip_path filename arcname : string) : M unit :=
  f <- get_fs ;;
  match stat f filename with
  | None => raise (FileNotFoundError filename)
  | Some Dir =>
      put_fs (<[zip_path :=
                  File (Zip (zip_members f zip_path ++ [(arcname ++ "/", Bytes "")]))]> f)
  | Some (File d) =>
      put_fs (<[zip_path :=
                  File (Zip (zip_members f zip_path ++ [(arcname, d)]))]> f)
  end.

(** ** [PIL.Image] *)

Definition Image_open (path : string) : M image :=
  f <- get_fs ;;
  match stat f path with
  | None => raise (FileNotFoundError path)
  | Some Dir => raise (IsADirectoryError path)
  | Some (File (Picture img)) => ret img
  | Some (File _) => raise (UnidentifiedImageError path)
  end.

(** [img.resize((width, height), Image.Resampling.LANCZOS)]. *)
Definition img_resize (img : image) (size : Z * Z) : image :=
  {| img_format := ""; img_size := size; img_mode := img_mode img;
     img_pixels := Resized (img_pixels img) (fst size) (snd size) |}.

(** [img.convert(mode)]. *)
Definition img_convert (img : image) (mode : string) : image :=
  {| img_format := ""; img_size := img_size img; img_mode := mode;
     img_pixels := Converted (img_pixels img) mode |}.

(** [img.save(path, format)]. *)
Definition img_save (img : image) (path format : string) : M unit :=
  fs_write path
    (Picture {| img_format := format; img_size := img_size img;
                img_mode := img_mode img; img_pixels := img_pixels img |}).

Definition size_eqb (a b : Z * Z) : bool :=
  (Z.eqb (fst a) (fst b) && Z.eqb (snd a) (snd b))%bool.

(** ** [ffmpeg] *)

Definition ffmpeg_error : exn :=
  FfmpegError "ffmpeg error (see stderr output for detail)".

(** The file name of frame [i] under an image2 pattern. *)
Definition expand_pattern (pattern : string) (i : nat) : string :=
  replace_first "%04d" (format_04d i) pattern.

Fixpoint write_frames (pattern : string) (i : nat) (frames : list data) : M unit :=
  match frames with
  | [] => ret tt
  | d :: r => fs_write (expand_pattern pattern i) d ;;; write_frames pattern (S i) r
  end.

Definition frame_at (f : gmap string node) (pattern : string) (i : nat)
  : option data :=
  match stat f (expand_pattern pattern i) with
  | Some (File d) => Some d
  | _ => None
  end.

Fixpoint read_frames (f : gmap string node) (pattern : string)
    (i fuel : nat) : list data :=
  match fuel with
  | O => []
  | S fuel' =>
      match frame_at f pattern i with
      | Some d => d :: read_frames f pattern (S i) fuel'
      | None => []
      end
  end.

(** The image2 demuxer: the sequence starts at the first index among
    0..4 that exists and runs while the next index exists. *)
Definition image2_sequence (f : gmap string node) (pattern : string)
  : list data :=
  match List.find (fun i => bool_decide (is_Some (frame_at f pattern i)))
          (seq 0 5) with
  | Some first => read_frames f pattern first (size f)
  | None => []
  end.

(** [os.path.getsize(p)]. *)
Definition os_path_getsize (p : string) : M Z :=
  w <- get_world ;;
  match stat (fs w) p with
  | Some n => ret (st_size w n)
  | None => raise (FileNotFoundError p)
  end.

(** [ffmpeg.run] of [input(input_path)] into
    [output(pattern, vf=vf, format='image2')], overwriting: the muxer
    numbers its files from 1. *)
Definition ffmpeg_run_image2 (input_path vf pattern : string) : M unit :=
  w <- get_world ;;
  match stat (fs w) input_path with
  | Some (File d) =>
      match ffmpeg_decode w d vf pattern with
      | Some frames =>
          try_except (write_frames pattern 1 frames)
            (fun _ => raise ffmpeg_error)
      | None => raise ffmpeg_error
      end
  | _ => raise ffmpeg_error
  end.

(** [ffmpeg.run] of [input(pattern, framerate=framerate)] into
    [output(output_path, **args)], overwriting. *)
Definition ffmpeg_run_x264 (pattern : string) (framerate : Z)
    (args : x264_args) (output_path : string) : M unit :=
  w <- get_world ;;
  match image2_sequence (fs w) pattern with
  | [] => raise ffmpeg_error
  | frames =>
      match ffmpeg_encode w frames framerate args output_path with
      | Some video =>
          try_except (fs_write output_path video)
            (fun _ => raise ffmpeg_error)
      | None => raise ffmpeg_error
      end
  end.

(** ** The tool *)

(** [int(s)]. *)
Definition py_int (s : string) : M Z :=
  match int_of_str s with
  | Some n => ret n
  | None => raise (ValueError (int_failure s))
  end.

Definition get_temp_dir : M string := t <- get_self ;; ret (temp_dir t).

Definition started_header : string := "Konvertierung gestartet!".
Definition video_to_images : string := "Video zu Bildern".
Definition images_to_video : string := "Bilder zu Video".
Definition conversion_started_text : string :=
  "Ihre {0} Konvertierung wurde erfolgreich gestartet. Bitte klicken Sie auf den Button unten, um die Datei herunterzuladen.".
Definition download_button : string := "Konvertierte Datei herunterladen".
Definition new_conversion_button : string := "Neue Konvertierung starten".

Definition video_extensions : list string :=
  [".mp4"; ".avi"; ".mov"; ".mkv"; ".wmv"; ".flv"; ".webm"; ".m4v"].

Definition _is_video_file (filename : string) : bool :=
  existsb (fun ext => str_endswith (str_lower filename) ext) video_extensions.

Definition _is_zip_file (filename : string) : bool :=
  str_endswith (str_lower filename) ".zip".

Definition image_extensions : list string :=
  [".png"; ".jpg"; ".jpeg"; ".gif"; ".bmp"; ".webp"; ".tiff"].

Definition _is_image_file (filename : string) : bool :=
  existsb (fun ext => str_endswith (str_lower filename) ext) image_extensions.

Definition dq : string := String (ascii_of_nat 34) EmptyString.
Definition nl : string := String (ascii_of_nat 10) EmptyString.

Definition _create_output_html (token conversion_type : string) : string :=
  String.concat nl [
    "";
    "        <div class=" ++ dq ++ "alert alert-success" ++ dq ++ ">";
    "            <h4 class=" ++ dq ++ "alert-heading" ++ dq ++ ">"
      ++ started_header ++ "</h4>";
    "            <p>"
      ++ replace_first "{0}" conversion_type conversion_started_text ++ "</p>";
    "            <hr>";
    "            <div class=" ++ dq ++ "d-flex justify-content-between" ++ dq ++ ">";
    "                <a href=" ++ dq ++ "/download_video_image_conversion/"
      ++ token ++ dq ++ " class=" ++ dq ++ "btn btn-primary" ++ dq ++ " download>";
    "                    <i class=" ++ dq ++ "fas fa-download" ++ dq ++ "></i> "
      ++ download_button;
    "                </a>";
    "                <a href=" ++ dq ++ "/tool/VideoImageConverterTool" ++ dq
      ++ " class=" ++ dq ++ "btn btn-secondary" ++ dq ++ ">";
    "                    <i class=" ++ dq ++ "fas fa-redo" ++ dq ++ "></i> "
      ++ new_conversion_button;
    "                </a>";
    "            </div>";
    "        </div>";
    "        "
  ].

Definition size_limit : Z := 2 * 1024 * 1024 * 1024.

Definition msg_no_file : string := "Bitte wählen Sie eine Datei aus.".
Definition msg_too_large : string :=
  "Die Datei ist zu groß. Maximale Größe ist 2GB.".
Definition msg_not_video : string := "Bitte wählen Sie eine Videodatei aus.".
Definition msg_not_zip : string :=
  "Bitte wählen Sie eine ZIP-Datei mit Bildern aus.".
Definition msg_processing : string := "Fehler bei der Verarbeitung:".

(** The extension check of [execute_tool]: the message of the rejection,
    if any.  A conversion type other than the two known ones is not
    checked. *)
Definition check_extension (conversion_type filename : string) : option string :=
  if String.eqb conversion_type "video_to_images" then
    if negb (_is_video_file filename) then Some msg_not_video else None
  else if String.eqb conversion_type "images_to_video" then
    if negb (_is_zip_file filename) then Some msg_not_zip else None
  else None.

(** The body of the [try] of [execute_tool]. *)
Definition execute_tool_body (input_params : InputParams) : M bool :=
  match ip_file input_params with
  | None =>
      modify_self (set_error_message msg_no_file) ;;;
      ret false
  | Some file_info =>
      file_path <- getitem "file_path" (fi_file_path file_info) ;;
      filename <- getitem "filename" (fi_filename file_info) ;;
      let conversion_type :=
        default "video_to_images" (ip_conversion_type input_params) in
      size <- os_path_getsize file_path ;;
      if size >? size_limit then
        modify_self (set_error_message msg_too_large) ;;;
        ret false
      else
        match check_extension conversion_type filename with
        | Some msg =>
            modify_self (set_error_message msg) ;;;
            ret false
        | None =>
            token <- uuid4 ;;
            let fps := default "10" (ip_fps input_params) in
            let quality := default "medium" (ip_quality input_params) in
            let image_format := default "png" (ip_image_format input_params) in
            let video_format := default "mp4" (ip_video_format input_params) in
            now <- datetime_now ;;
            modify_self (fun t =>
              set_pending_conversions
                (dict_set token
                   {| file_path := file_path;
                      filename := filename;
                      conversion_type := conversion_type;
                      fps := fps;
                      quality := quality;
                      image_format := image_format;
                      video_format := video_format;
                      timestamp := now;
                      downloaded := false |}
                   (pending_conversions t)) t) ;;;
            let conversion_type_display :=
              if String.eqb conversion_type "video_to_images"
              then video_to_images else images_to_video in
            modify_self (set_output (_create_output_html token conversion_type_display)) ;;;
            ret true
        end
  end.

Definition execute_tool (input_params : InputParams) : M bool :=
  try_except (execute_tool_body input_params)
    (fun e =>
       modify_self (set_error_message (msg_processing ++ " " ++ str_exn e)) ;;;
       ret false).

Definition enumerate {A} (l : list A) : list (nat * A) :=
  zip (seq 0 (length l)) l.

Definition _video_to_images (token : string) (conversion : Conversion) : M string :=
  let input_path := file_path conversion in
  fps <- py_int (fps conversion) ;;
  let image_format := image_format conversion in
  temp_dir <- get_temp_dir ;;
  let temp_image_dir := os_path_join temp_dir ("images_" ++ token) in
  os_makedirs temp_image_dir ;;;
  let image_pattern :=
    os_path_join temp_image_dir ("frame_%04d." ++ image_format) in
  ffmpeg_run_image2 input_path ("fps=" ++ pretty fps) image_pattern ;;;
  temp_dir <- get_temp_dir ;;
  let zip_path := os_path_join temp_dir ("images_" ++ token ++ ".zip") in
  zip_open_write zip_path ;;;
  listing <- os_listdir temp_image_dir ;;
  for_each listing (fun image_file =>
    if str_endswith image_file ("." ++ image_format) then
      let image_path := os_path_join temp_image_dir image_file in
      zip_write zip_path image_path image_file
    else ret tt) ;;;
  listing <- os_listdir temp_image_dir ;;
  for_each listing (fun image_file =>
    os_remove (os_path_join temp_image_dir image_file)) ;;;
  os_rmdir temp_image_dir ;;;
  ret zip_path.

(** The loop over [zipf.filelist]: the members with an image extension
    are extracted, and their names collected in archive order. *)
Fixpoint extract_images (filelist : list (string * data))
    (temp_image_dir : string) : M (list string) :=
  match filelist with
  | [] => ret []
  | file_info :: rest =>
      if _is_image_file (fst file_info) then
        zip_extract file_info temp_image_dir ;;;
        image_files <- extract_images rest temp_image_dir ;;
        ret (fst file_info :: image_files)
      else extract_images rest temp_image_dir
  end.

(** The loop that re-encodes every frame under its canonical name. *)
Definition canonical_frame (temp_image_dir : string) (size : Z * Z)
    (entry : nat * string) : M unit :=
  let '(i, image_file) := entry in
  let old_path := os_path_join temp_image_dir image_file in
  let new_path :=
    os_path_join temp_image_dir ("frame_" ++ format_04d i ++ ".png") in
  img <- Image_open old_path ;;
  let img := if negb (size_eqb (img_size img) size)
             then img_resize img size else img in
  let img := img_convert img "RGB" in
  img_save img new_path "PNG" ;;;
  if negb (String.eqb old_path new_path) then os_remove old_path else ret tt.

Definition quality_settings : dict (string * string) :=
  [("low", ("28", "ultrafast"));
   ("medium", ("23", "medium"));
   ("high", ("18", "slow"))].

(** The first part of [_images_to_video], up to and including the
    renaming loop: it returns the scratch directory. *)
Definition prepare_frames (token : string) (conversion : Conversion) : M string :=
  let input_path := file_path conversion in
  temp_dir <- get_temp_dir ;;
  let temp_image_dir := os_path_join temp_dir ("extracted_" ++ token) in
  os_makedirs temp_image_dir ;;;
  filelist <- zip_open_read input_path ;;
  image_files <- extract_images filelist temp_image_dir ;;
  match image_files with
  | [] => raise (Exception "Keine Bilddateien in der ZIP-Datei gefunden")
  | _ :: _ =>
      let image_files := list_sort image_files in
      let first_image_path :=
        os_path_join temp_image_dir (List.hd "" image_files) in
      img <- Image_open first_image_path ;;
      let size := img_size img in
      for_each (enumerate image_files) (canonical_frame temp_image_dir size) ;;;
      ret temp_image_dir
  end.

Definition _images_to_video (token : string) (conversion : Conversion) : M string :=
  fps <- py_int (fps conversion) ;;
  let video_format := video_format conversion in
  let quality := quality conversion in
  temp_image_dir <- prepare_frames token conversion ;;
  temp_dir <- get_temp_dir ;;
  let output_path :=
    os_path_join temp_dir ("video_" ++ token ++ "." ++ video_format) in
  settings <- getitem quality (dict_get quality quality_settings) ;;
  let pattern := os_path_join temp_image_dir "frame_%04d.png" in
  ffmpeg_run_x264 pattern fps
    {| vcodec := "libx264"; pix_fmt := "yuv420p";
       crf := fst settings; preset := snd settings |}
    output_path ;;;
  listing <- os_listdir temp_image_dir ;;
  for_each listing (fun file =>
    os_remove (os_path_join temp_image_dir file)) ;;;
  os_rmdir temp_image_dir ;;;
  ret output_path.

(** The [try] block of [convert_and_save]. *)
Definition dispatch (token : string) (conversion : Conversion) : M (option string) :=
  if String.eqb (conversion_type conversion) "video_to_images" then
    path <- _video_to_images token conversion ;; ret (Some path)
  else
    path <- _images_to_video token conversion ;; ret (Some path).

Definition conversion_failed (e : exn) : M (option string) :=
  print ("Fehler bei der Konvertierung: " ++ str_exn e) ;;;
  ret None.

Definition convert_and_save (token : string) : M (option string) :=
  t <- get_self ;;
  match dict_get token (pending_conversions t) with
  | None => ret None
  | Some conversion =>
      if downloaded conversion then ret None
      else try_except (dispatch token conversion) conversion_failed
  end.

(** [timedelta(hours=1)] in microseconds. *)
Definition one_hour : Z := 3600 * 1000000.

(** The condition under which [cleanup_old_files] removes an entry. *)
Definition removable (now : Z) (conversion : Conversion) : bool :=
  ((now - timestamp conversion >? one_hour) || downloaded conversion)%bool.

(** The path of the artifact of a job, as [cleanup_old_files] computes it. *)
Definition artifact_path (temp_dir token : string) (conversion : Conversion)
  : string :=
  if String.eqb (conversion_type conversion) "video_to_images" then
    os_path_join temp_dir ("images_" ++ token ++ ".zip")
  else
    os_path_join temp_dir ("video_" ++ token ++ "." ++ video_format conversion).

Definition remove_if_exists (path : string) : M unit :=
  found <- os_path_exists path ;;
  if (found : bool) then os_remove path else ret tt.

(** The [try] block of [cleanup_old_files]. *)
Definition delete_files (token : string) (conversion : Conversion) : M unit :=
  remove_if_exists (file_path conversion) ;;;
  if String.eqb (conversion_type conversion) "video_to_images" then
    temp_dir <- get_temp_dir ;;
    let zip_path := os_path_join temp_dir ("images_" ++ token ++ ".zip") in
    remove_if_exists zip_path
  else
    let video_format := video_format conversion in
    temp_dir <- get_temp_dir ;;
    let output_path :=
      os_path_join temp_dir ("video_" ++ token ++ "." ++ video_format) in
    remove_if_exists output_path.

Definition cleanup_failed (e : exn) : M unit :=
  print ("Fehler beim Aufräumen von Dateien: " ++ str_exn e).

(** The first loop of [cleanup_old_files], over the items of the store. *)
Fixpoint cleanup_scan (now : Z) (items : list (string * Conversion))
    (tokens_to_remove : list string) : M (list string) :=
  match items with
  | [] => ret tokens_to_remove
  | (token, conversion) :: rest =>
      if removable now conversion then
        try_except (delete_files token conversion) cleanup_failed ;;;
        cleanup_scan now rest (tokens_to_remove ++ [token])
      else cleanup_scan now rest tokens_to_remove
  end.

Definition pop_token (token : string) : M unit :=
  modify_self (fun t =>
    set_pending_conversions (dict_pop token (pending_conversions t)) t).

Definition cleanup_old_files : M unit :=
  now <- datetime_now ;;
  t <- get_self ;;
  tokens_to_remove <- cleanup_scan now (pending_conversions t) [] ;;
  for_each tokens_to_remove pop_token.

(** ** Relations between the state before and after a step *)

(** [preserves R m]: the state [m] ends in, whether it returns or raises,
    is related by [R] to the state it started from. *)
Definition preserves (R : relation State) {A} (m : M A) : Prop :=
  forall st, R st (snd (m st)).

(** The attributes of [self] are as before. *)
Definition same_self : relation State :=
  fun st st' => self st' = self st.

(** The keys of the job store stay unique. *)
Definition keeps_wf : relation State :=
  fun st st' =>
    dict_wf (pending_conversions (self st)) ->
    dict_wf (pending_conversions (self st')).

(** Nothing is created, nothing is unlocked, and the attributes of
    [self] are as before: every path holds what it held, or nothing. *)
Definition only_deletes : relation State :=
  fun st st' =>
    self st' = self st /\
    locked (world st') = locked (world st) /\
    forall p, fs (world st') !! p = None \/ fs (world st') !! p = fs (world st) !! p.

(** Every path that held something holds the same thing. *)
Definition keeps_entries : relation State :=
  fun st st' =>
    forall p x, fs (world st) !! p = Some x -> fs (world st') !! p = Some x.

(** The media engine and the size oracle are the same. *)
Definition same_engine : relation State :=
  fun st st' =>
    st_size (world st') = st_size (world st) /\
    ffmpeg_decode (world st') = ffmpeg_decode (world st) /\
    ffmpeg_encode (world st') = ffmpeg_encode (world st).

(** The wall clock reads the same. *)
Definition same_clock : relation State :=
  fun st st' => clock (world st') = clock (world st).

(** ** Notions used in the statements *)

(** A path on which [os.remove] cannot fail: it is not locked and it is
    not a directory. *)
Definition deletable (st : State) (p : string) : Prop :=
  (p ∉ locked (world st)) /\ stat (fs (world st)) p <> Some Dir.

(** The entries [cleanup_old_files] removes at time [now]. *)
Definition stale (now : Z) (item : string * Conversion) : bool :=
  removable now (snd item).

(** A number of minutes as a [timedelta], in microseconds. *)
Definition minutes (n : Z) : Z := n * 60 * 1000000.

(** The second loop of [cleanup_old_files], on the dictionary alone. *)
Definition pop_all {V} (tokens : list string) (d : dict V) : dict V :=
  fold_left (fun d token => dict_pop token d) tokens d.

(** The exception [_images_to_video] raises for an archive without
    images. *)
Definition no_images_error : exn :=
  Exception "Keine Bilddateien in der ZIP-Datei gefunden".

(** The picture [canonical_frame] saves for a picture, given the size of
    the first frame. *)
Definition canonical_picture (size : Z * Z) (img : image) : data :=
  let img := if negb (size_eqb (img_size img) size)
             then img_resize img size else img in
  let img := img_convert img "RGB" in
  Picture {| img_format := "PNG"; img_size := img_size img;
             img_mode := img_mode img; img_pixels := img_pixels img |}.

(** No extension of one list is a suffix of an extension of the other. *)
Definition unrelated_suffixes (l1 l2 : list string) : bool :=
  forallb (fun e1 =>
    forallb (fun e2 =>
      (negb (str_endswith e1 e2) && negb (str_endswith e2 e1))%bool) l2) l1.

(** The token [execute_tool] draws in a state. *)
Definition next_token (st : State) : string :=
  uuid_source (world st) (uuid_drawn (world st)).

(** The record [execute_tool] stores for an input. *)
Definition job_of (input_params : InputParams) (file_path filename : string)
    (now : Z) : Conversion :=
  {| file_path := file_path;
     filename := filename;
     conversion_type := default "video_to_images" (ip_conversion_type input_params);
     fps := default "10" (ip_fps input_params);
     quality := default "medium" (ip_quality input_params);
     image_format := default "png" (ip_image_format input_params);
     video_format := default "mp4" (ip_video_format input_params);
     timestamp := now;
     downloaded := false |}.

(** The state in which only [error_message] was set. *)
Definition with_error (msg : string) (st : State) : State :=
  {| self := set_error_message msg (self st); world := world st |}.

(** The state [execute_tool] leaves when it stores a job. *)
Definition with_job (input_params : InputParams) (file_path filename : string)
    (st : State) : State :=
  let token := next_token st in
  let kind := default "video_to_images" (ip_conversion_type input_params) in
  {| self :=
       set_output
         (_create_output_html token
            (if String.eqb kind "video_to_images"
             then video_to_images else images_to_video))
         (set_pending_conversions
            (dict_set token
               (job_of input_params file_path filename (clock (world st)))
               (pending_conversions (self st)))
            (self st));
     world := set_uuid_drawn (S (uuid_drawn (world st))) (world st) |}.

(** The state in which one more line was printed. *)
Definition with_printed (msg : string) (st : State) : State :=
  {| self := self st;
     world := set_stdout (stdout (world st) ++ [msg]) (world st) |}.

(** The image [canonical_frame] saves for an image: [canonical_picture]
    is the file that holds it. *)
Definition saved_image (size : Z * Z) (img : image) : image :=
  let img := if negb (size_eqb (img_size img) size)
             then img_resize img size else img in
  let img := img_convert img "RGB" in
  {| img_format := "PNG"; img_size := img_size img;
     img_mode := img_mode img; img_pixels := img_pixels img |}.

(** ** The states the class reaches by itself *)

(** [__init__]: the store is empty and the temporary directory is the
    one of the system; the attributes of the base class are taken as
    given. *)
Definition init_tool (gettempdir : string) (base : Tool) : Tool :=
  {| pending_conversions := []; temp_dir := gettempdir;
     error_message := error_message base; output := output base |}.

(** No job of the store is marked as downloaded. *)
Definition all_unmarked (d : dict Conversion) : Prop :=
  forall token conversion, In (token, conversion) d -> downloaded conversion = false.

Definition keeps_unmarked : relation State :=
  fun st st' =>
    all_unmarked (pending_conversions (self st)) ->
    all_unmarked (pending_conversions (self st')).

(** The states reached from a fresh tool by calls of its three public
    methods, while the environment changes at will between the calls. *)
Inductive reachable : State -> Prop :=
| reach_init gettempdir base w :
    reachable {| self := init_tool gettempdir base; world := w |}
| reach_execute_tool input_params st :
    reachable st -> reachable (snd (execute_tool input_params st))
| reach_convert_and_save token st :
    reachable st -> reachable (snd (convert_and_save token st))
| reach_cleanup_old_files st :
    reachable st -> reachable (snd (cleanup_old_files st))
| reach_environment w st :
    reachable st -> reachable {| self := self st; world := w |}.

(** ** The frames of an archive *)

(** The names of the members [_images_to_video] extracts, in the order of
    the archive. *)
Definition image_names (members : list (string * data)) : list string :=
  map fst (List.filter (fun member => _is_image_file (fst member)) members).

(** The canonical name of frame [i]. *)
Definition frame_name (i : nat) : string := "frame_" ++ format_04d i ++ ".png".

(** A run of [n] zeros, as [zfill] puts before a short numeral. *)
Definition zeros (n : nat) : string := String.concat "" (repeat "0" n).

(** A decimal numeral: [0], or digits that do not start with [0]. *)
Definition numeral (s : string) : Prop :=
  s = "0" \/ exists c r, s = String c r /\ c <> "0"%char.

(** ** Example states

    Concrete environments on which the properties below are exercised. *)

Module Examples.

(** A file of opaque bytes carries its size in its tag. *)
Definition size_by_tag (n : node) : Z :=
  match n with
  | File (Bytes tag) => default 0 (int_of_str tag)
  | _ => 4096
  end.

Definition picture (id : string) (width height : Z) : data :=
  Picture {| img_format := "PNG"; img_size := (width, height);
             img_mode := "RGBA"; img_pixels := Px id |}.

(** A video decodes into two frames; anything else is not a video. *)
Definition decode_two_frames (d : data) (vf pattern : string)
  : option (list data) :=
  match d with
  | Bytes _ => Some [picture "frame-1" 4 4; picture "frame-2" 4 4]
  | _ => None
  end.

(** The encoded video is kept as the sequence of the frames it was made
    from. *)
Definition encode_frames (frames : list data) (framerate : Z)
    (args : x264_args) (output_path : string) : option data :=
  Some (Zip (map (fun d => ("frame", d)) frames)).

Definition mk_world (files : list (string * node)) (denied : list string)
    (now : Z) : World :=
  {| fs := list_to_map files; locked := list_to_set denied; stdout := [];
     clock := now; uuid_source := fun n => "token-" ++ pretty n;
     uuid_drawn := 0; st_size := size_by_tag;
     ffmpeg_decode := decode_two_frames; ffmpeg_encode := encode_frames |}.

Definition mk_state (jobs : dict Conversion) (w : World) : State :=
  {| self := {| pending_conversions := jobs; temp_dir := "/tmp";
                error_message := ""; output := "" |};
     world := w |}.

Definition mk_job (path kind : string) (created : Z) (served : bool)
  : Conversion :=
  {| file_path := path; filename := path; conversion_type := kind;
     fps := "10"; quality := "medium"; image_format := "png";
     video_format := "mp4"; timestamp := created; downloaded := served |}.

Definition mk_input (path name : string) (kind : option string) : InputParams :=
  {| ip_file := Some {| fi_file_path := Some path; fi_filename := Some name |};
     ip_conversion_type := kind; ip_fps := None; ip_quality := None;
     ip_image_format := None; ip_video_format := None |}.

(** One pending video job whose upload is in place. *)
Definition video_job_state : State :=
  mk_state [("tok", mk_job "/up/clip.mp4" "video_to_images" 0 false)]
    (mk_world [("/tmp", Dir); ("/up", Dir);
               ("/up/clip.mp4", File (Bytes "1000"))] [] 0).

(** A job that was already handed out. *)
Definition served_job_state : State :=
  mk_state [("tok", mk_job "/up/clip.mp4" "video_to_images" 0 true)]
    (mk_world [("/tmp", Dir); ("/up", Dir);
               ("/up/clip.mp4", File (Bytes "1000"))] [] 0).

(** Uploads of exactly 2 GiB and of one byte more. *)
Definition boundary_state : State :=
  mk_state []
    (mk_world [("/tmp", Dir); ("/up", Dir);
               ("/up/exact.mp4", File (Bytes "2147483648"));
               ("/up/over.mp4", File (Bytes "2147483649"));
               ("/up/notes.txt", File (Bytes "12"))] [] 0).

(** Two jobs created at time 0, one of them already handed out, seen at
    time [now]. *)
Definition sweep_state (now : Z) : State :=
  mk_state [("fresh", mk_job "/up/clip.mp4" "video_to_images" 0 false);
            ("served", mk_job "/up/frames.zip" "images_to_video" 0 true)]
    (mk_world [("/tmp", Dir); ("/up", Dir);
               ("/up/clip.mp4", File (Bytes "1000"));
               ("/up/frames.zip", File (Zip []));
               ("/tmp/video_served.mp4", File (Bytes "500"))] [] now).

(** A served job whose upload cannot be deleted, while its artifact can;
    a second served job follows it in the store. *)
Definition locked_source_state : State :=
  mk_state [("tok", mk_job "/up/clip.mp4" "video_to_images" 0 true);
            ("next", mk_job "/up/other.mp4" "video_to_images" 0 true)]
    (mk_world [("/tmp", Dir); ("/up", Dir);
               ("/up/clip.mp4", File (Bytes "1000"));
               ("/tmp/images_tok.zip", File (Zip []));
               ("/up/other.mp4", File (Bytes "1000"));
               ("/tmp/images_next.zip", File (Zip []))]
       ["/up/clip.mp4"] 0).

(** A pending images-to-video job whose archive holds no image. *)
Definition empty_archive_state : State :=
  mk_state [("tok", mk_job "/up/frames.zip" "images_to_video" 0 false)]
    (mk_world [("/tmp", Dir); ("/up", Dir);
               ("/up/frames.zip",
                File (Zip [("readme.txt", Bytes "12"); ("clip.mp4", Bytes "99")]))]
       [] 0).

(** A pending images-to-video job whose archive lists [b.png] before
    [a.png]; the two pictures are arbitrary. *)
Definition frames_job : Conversion :=
  mk_job "/up/frames.zip" "images_to_video" 0 false.

Definition frames_archive_state (a b : image) : State :=
  mk_state [("tok", frames_job)]
    (mk_world [("/tmp", Dir); ("/up", Dir);
               ("/up/frames.zip",
                File (Zip [("b.png", Picture b); ("a.png", Picture a)]))]
       [] 0).

Definition small_picture (id : string) : image :=
  {| img_format := "PNG"; img_size := (2, 2); img_mode := "RGBA";
     img_pixels := Px id |}.

(** The job of [frames_job] with a quality and a frame rate of choice. *)
Definition frames_job_with (quality fps : string) : Conversion :=
  {| file_path := "/up/frames.zip"; filename := "frames.zip";
     conversion_type := "images_to_video"; fps := fps; quality := quality;
     image_format := "png"; video_format := "mp4"; timestamp := 0;
     downloaded := false |}.

Definition frames_state_with (quality fps : string) : State :=
  mk_state [("tok", frames_job_with quality fps)]
    (mk_world [("/tmp", Dir); ("/up", Dir);
               ("/up/frames.zip",
                File (Zip [("b.png", Picture (small_picture "b"));
                           ("a.png", Picture (small_picture "a"))]))]
       [] 0).

(** The state of [video_job_state] after the delivery, 61 minutes on. *)
Definition expired_video_state : State :=
  mk_state [("tok", mk_job "/up/clip.mp4" "video_to_images" 0 false)]
    (mk_world [("/tmp", Dir); ("/up", Dir);
               ("/up/clip.mp4", File (Bytes "1000"));
               ("/tmp/images_tok.zip", File (Zip []))] [] (minutes 61)).

(** A pending images-to-video job whose archive holds a picture named
    like the first canonical frame, after a picture whose name sorts
    before it. *)
Definition overwritten_frame_state (a b : image) : State :=
  mk_state [("tok", frames_job)]
    (mk_world [("/tmp", Dir); ("/up", Dir);
               ("/up/frames.zip",
                File (Zip [("0.png", Picture a);
                           ("frame_0000.png", Picture b)]))]
       [] 0).

(** A pending images-to-video job with an archive of choice. *)
Definition archive_state (members : list (string * data)) : State :=
  mk_state [("tok", frames_job)]
    (mk_world [("/tmp", Dir); ("/up", Dir);
               ("/up/frames.zip", File (Zip members))]
       [] 0).

End Examples.

(** * Properties *)

(** ** The monad *)

Lemma bind_Return_inv {A B} (m : M A) (k : A -> M B) st b st' :
  bind m k st = (Return b, st') ->
  exists a st1, m st = (Return a, st1) /\ k a st1 = (Return b, st').
Proof.
  unfold bind. destruct (m st) as [[a|e] st1]; intros H.
  - exists a, st1. split; [reflexivity | exact H].
  - discriminate H.
Qed.

Lemma bind_Raise_inv {A B} (m : M A) (k : A -> M B) st e st' :
  bind m k st = (Raise e, st') ->
  m st = (Raise e, st') \/
  exists a st1, m st = (Return a, st1) /\ k a st1 = (Raise e, st').
Proof.
  unfold bind. destruct (m st) as [[a|e0] st1]; intros H.
  - right. exists a, st1. split; [reflexivity | exact H].
  - left. injection H as -> ->. reflexivity.
Qed.

Lemma bind_run {A B} (m : M A) (k : A -> M B) st a st1 :
  m st = (Return a, st1) -> bind m k st = k a st1.
Proof. unfold bind. intros ->. reflexivity. Qed.

Lemma bind_raise {A B} (m : M A) (k : A -> M B) st e st1 :
  m st = (Raise e, st1) -> bind m k st = (Raise e, st1).
Proof. unfold bind. intros ->. reflexivity. Qed.

Lemma try_except_run {A} (m : M A) h st a st1 :
  m st = (Return a, st1) -> try_except m h st = (Return a, st1).
Proof. unfold try_except. intros ->. reflexivity. Qed.

Lemma try_except_catch {A} (m : M A) h st e st1 :
  m st = (Raise e, st1) -> try_except m h st = h e st1.
Proof. unfold try_except. intros ->. reflexivity. Qed.

(** ** Steps that preserve a relation between states

    [preserves R m]: the state [m] ends in, whether it returns or raises,
    is related by [R] to the state it started from.  For a preorder [R]
    this is closed under sequencing, exception handling and loops, and
    every step that only reads the state preserves every such [R]. *)

Section Preserves.

Context (R : relation State) `{!PreOrder R}.

Lemma preserves_ret {A} (a : A) : preserves R (ret a).
Proof. intros st. reflexivity. Qed.

Lemma preserves_raise {A} (e : exn) : preserves R (@raise A e).
Proof. intros st. reflexivity. Qed.

Lemma preserves_bind {A B} (m : M A) (k : A -> M B) :
  preserves R m -> (forall a, preserves R (k a)) -> preserves R (bind m k).
Proof.
  intros Hm Hk st. unfold bind. specialize (Hm st).
  destruct (m st) as [[a|e] st1]; simpl in *.
  - etransitivity; [exact Hm | apply Hk].
  - exact Hm.
Qed.

Lemma preserves_try_except {A} (m : M A) (h : exn -> M A) :
  preserves R m -> (forall e, preserves R (h e)) -> preserves R (try_except m h).
Proof.
  intros Hm Hh st. unfold try_except. specialize (Hm st).
  destruct (m st) as [[a|e] st1]; simpl in *.
  - exact Hm.
  - etransitivity; [exact Hm | apply Hh].
Qed.

Lemma preserves_for_each {A} (l : list A) (body : A -> M unit) :
  (forall x, preserves R (body x)) -> preserves R (for_each l body).
Proof.
  intros Hb. induction l as [|x r IH]; simpl.
  - apply preserves_ret.
  - apply preserves_bind; [apply Hb | intros _; exact IH].
Qed.

Lemma preserves_get_self : preserves R get_self.
Proof. intros st. reflexivity. Qed.

Lemma preserves_get_world : preserves R get_world.
Proof. intros st. reflexivity. Qed.

End Preserves.

Create HintDb keeps.

#[global] Hint Resolve preserves_ret preserves_raise preserves_get_self
  preserves_get_world : keeps.
#[global] Hint Extern 1 (PreOrder _) => exact _ : keeps.

(** Splits a composite statement along its binds, branches and loops,
    and closes the leaves with the lemmas collected in [keeps]. *)
Ltac keeps_step :=
  match goal with
  | |- preserves _ (bind _ _) =>
      apply preserves_bind; [exact _ | | intros]
  | |- preserves _ (try_except _ _) =>
      apply preserves_try_except; [exact _ | | intros]
  | |- preserves _ (for_each _ _) =>
      apply preserves_for_each; [exact _ | intros]
  | |- preserves _ (match ?x with _ => _ end) => destruct x
  | |- preserves _ (let '(_, _) := ?x in _) => destruct x
  | |- preserves _ _ => solve [auto with keeps]
  end.

Ltac keeps := intros; repeat keeps_step.

(** Steps that only read the state. *)
Section ReadOnly.

Context (R : relation State) `{!PreOrder R}.

Lemma preserves_get_fs : preserves R get_fs.
Proof. unfold get_fs. keeps. Qed.

Lemma preserves_is_locked p : preserves R (is_locked p).
Proof. unfold is_locked. keeps. Qed.

Hint Resolve preserves_get_fs preserves_is_locked : keeps.

Lemma preserves_os_path_exists p : preserves R (os_path_exists p).
Proof. unfold os_path_exists. keeps. Qed.

Lemma preserves_os_path_isdir p : preserves R (os_path_isdir p).
Proof. unfold os_path_isdir. keeps. Qed.

Lemma preserves_check_parent p : preserves R (check_parent p).
Proof. unfold check_parent. keeps. Qed.

Lemma preserves_os_listdir p : preserves R (os_listdir p).
Proof. unfold os_listdir. keeps. Qed.

Lemma preserves_zip_open_read path : preserves R (zip_open_read path).
Proof. unfold zip_open_read. keeps. Qed.

Lemma preserves_Image_open path : preserves R (Image_open path).
Proof. unfold Image_open. keeps. Qed.

Lemma preserves_py_int s : preserves R (py_int s).
Proof. unfold py_int. keeps. Qed.

Lemma preserves_get_temp_dir : preserves R get_temp_dir.
Proof. unfold get_temp_dir. keeps. Qed.

Lemma preserves_getitem {A} key (v : option A) : preserves R (getitem key v).
Proof. unfold getitem. keeps. Qed.

Lemma preserves_datetime_now : preserves R datetime_now.
Proof. unfold datetime_now. keeps. Qed.

End ReadOnly.

#[global] Hint Resolve preserves_get_fs preserves_is_locked
  preserves_os_path_exists preserves_os_path_isdir preserves_check_parent
  preserves_os_listdir preserves_zip_open_read preserves_Image_open
  preserves_py_int preserves_get_temp_dir preserves_getitem
  preserves_datetime_now : keeps.

(** ** Steps that leave the tool object alone *)

#[global] Instance same_self_preorder : PreOrder same_self.
Proof.
  split.
  - intros st. reflexivity.
  - intros s1 s2 s3 H12 H23. unfold same_self in *. congruence.
Qed.

Lemma keeps_self_put_world w : preserves same_self (put_world w).
Proof. intros st. reflexivity. Qed.
#[global] Hint Resolve keeps_self_put_world : keeps.

Lemma keeps_self_modify_world f : preserves same_self (modify_world f).
Proof. unfold modify_world. keeps. Qed.
#[global] Hint Resolve keeps_self_modify_world : keeps.

Lemma keeps_self_print msg : preserves same_self (print msg).
Proof. unfold print. keeps. Qed.

Lemma keeps_self_put_fs f : preserves same_self (put_fs f).
Proof. unfold put_fs. keeps. Qed.
#[global] Hint Resolve keeps_self_print keeps_self_put_fs : keeps.

Lemma keeps_self_fs_write p d : preserves same_self (fs_write p d).
Proof. unfold fs_write. keeps. Qed.

Lemma keeps_self_os_remove p : preserves same_self (os_remove p).
Proof. unfold os_remove. keeps. Qed.

Lemma keeps_self_os_mkdir p : preserves same_self (os_mkdir p).
Proof. unfold os_mkdir. keeps. Qed.
#[global] Hint Resolve keeps_self_fs_write keeps_self_os_remove
  keeps_self_os_mkdir : keeps.

Lemma keeps_self_os_makedirs_rec fuel name :
  preserves same_self (os_makedirs_rec fuel name).
Proof.
  revert name.
  induction fuel as [|fuel IH]; intros name; simpl; keeps.
Qed.

Lemma keeps_self_os_makedirs name : preserves same_self (os_makedirs name).
Proof. apply keeps_self_os_makedirs_rec. Qed.

Lemma keeps_self_os_rmdir p : preserves same_self (os_rmdir p).
Proof. unfold os_rmdir. keeps. Qed.
#[global] Hint Resolve keeps_self_os_makedirs keeps_self_os_rmdir : keeps.

Lemma keeps_self_zip_extract member path : preserves same_self (zip_extract member path).
Proof. unfold zip_extract. keeps. Qed.

Lemma keeps_self_zip_open_write path : preserves same_self (zip_open_write path).
Proof. unfold zip_open_write. auto with keeps. Qed.

Lemma keeps_self_zip_write zip_path filename arcname :
  preserves same_self (zip_write zip_path filename arcname).
Proof. unfold zip_write. keeps. Qed.

Lemma keeps_self_img_save img path format : preserves same_self (img_save img path format).
Proof. unfold img_save. auto with keeps. Qed.

Lemma keeps_self_write_frames pattern i frames :
  preserves same_self (write_frames pattern i frames).
Proof.
  revert i.
  induction frames as [|d r IH]; intros i; simpl; keeps.
Qed.

#[global] Hint Resolve keeps_self_zip_extract keeps_self_zip_open_write
  keeps_self_zip_write keeps_self_img_save keeps_self_write_frames : keeps.

Lemma keeps_self_extract_images filelist dir :
  preserves same_self (extract_images filelist dir).
Proof. induction filelist as [|m r IH]; simpl; keeps. Qed.

Lemma keeps_self_canonical_frame dir size entry :
  preserves same_self (canonical_frame dir size entry).
Proof. unfold canonical_frame. keeps. Qed.

Lemma keeps_self_remove_if_exists path : preserves same_self (remove_if_exists path).
Proof. unfold remove_if_exists. keeps. Qed.

#[global] Hint Resolve keeps_self_extract_images keeps_self_canonical_frame
  keeps_self_remove_if_exists : keeps.

Lemma keeps_self_prepare_frames token conversion :
  preserves same_self (prepare_frames token conversion).
Proof. unfold prepare_frames. keeps. Qed.

Lemma keeps_self_ffmpeg_run_image2 input_path vf pattern :
  preserves same_self (ffmpeg_run_image2 input_path vf pattern).
Proof. unfold ffmpeg_run_image2. keeps. Qed.

Lemma keeps_self_ffmpeg_run_x264 pattern framerate args output_path :
  preserves same_self (ffmpeg_run_x264 pattern framerate args output_path).
Proof. unfold ffmpeg_run_x264. keeps. Qed.

#[global] Hint Resolve keeps_self_prepare_frames keeps_self_ffmpeg_run_image2
  keeps_self_ffmpeg_run_x264 : keeps.

Lemma keeps_self_video_to_images token conversion :
  preserves same_self (_video_to_images token conversion).
Proof. unfold _video_to_images. keeps. Qed.

Lemma keeps_self_images_to_video token conversion :
  preserves same_self (_images_to_video token conversion).
Proof. unfold _images_to_video. keeps. Qed.

#[global] Hint Resolve keeps_self_video_to_images
  keeps_self_images_to_video : keeps.

Lemma keeps_self_dispatch token conversion :
  preserves same_self (dispatch token conversion).
Proof. unfold dispatch. keeps. Qed.

Lemma keeps_self_conversion_failed e : preserves same_self (conversion_failed e).
Proof. unfold conversion_failed. keeps. Qed.

#[global] Hint Resolve keeps_self_dispatch keeps_self_conversion_failed : keeps.

Lemma keeps_self_convert_and_save token : preserves same_self (convert_and_save token).
Proof. unfold convert_and_save. keeps. Qed.

(** What [convert_and_save] does for a job that is in the store and not
    marked as downloaded. *)
Lemma convert_and_save_pending token conversion st :
  dict_get token (pending_conversions (self st)) = Some conversion ->
  downloaded conversion = false ->
  convert_and_save token st
  = try_except (dispatch token conversion) conversion_failed st.
Proof.
  intros Hget Hd. unfold convert_and_save, bind, get_self.
  rewrite Hget, Hd. reflexivity.
Qed.

(** ** Delivery *)

(** C3: for a token that is not in the store, and for a token whose job
    is marked as downloaded, [convert_and_save] returns [None]; it raises
    nothing and changes nothing. *)
Theorem convert_and_save_nothing_to_deliver token st :
  (dict_get token (pending_conversions (self st)) = None \/
   exists conversion,
     dict_get token (pending_conversions (self st)) = Some conversion /\
     downloaded conversion = true) ->
  convert_and_save token st = (Return None, st).
Proof.
  intros [Hnone | (conversion & Hget & Hd)];
    unfold convert_and_save, bind, get_self.
  - rewrite Hnone. reflexivity.
  - rewrite Hget, Hd. reflexivity.
Qed.

Lemma convert_and_save_nothing_to_deliver_witness :
  convert_and_save "other" Examples.video_job_state
    = (Return None, Examples.video_job_state) /\
  convert_and_save "tok" Examples.served_job_state
    = (Return None, Examples.served_job_state).
Proof.
  split.
  - apply convert_and_save_nothing_to_deliver. left. reflexivity.
  - apply convert_and_save_nothing_to_deliver. right.
    eexists. split; reflexivity.
Defined.

(** C1, as the code has it: [convert_and_save] never writes the job
    store.  After any call, successful or not, the attributes of the tool
    are as before; a job that was not marked as downloaded is still not
    marked, and a second call with the same token runs the conversion
    again. *)
Theorem convert_and_save_keeps_store token st :
  self (snd (convert_and_save token st)) = self st /\
  forall conversion,
    dict_get token (pending_conversions (self st)) = Some conversion ->
    downloaded conversion = false ->
    let st' := snd (convert_and_save token st) in
    dict_get token (pending_conversions (self st')) = Some conversion /\
    convert_and_save token st'
    = try_except (dispatch token conversion) conversion_failed st'.
Proof.
  pose proof (keeps_self_convert_and_save token st) as Hself.
  unfold same_self in Hself.
  split; [exact Hself |].
  intros conversion Hget Hd st'. subst st'.
  assert (dict_get token
            (pending_conversions (self (snd (convert_and_save token st))))
          = Some conversion) as Hget' by (rewrite Hself; exact Hget).
  split; [exact Hget' |].
  apply convert_and_save_pending; assumption.
Qed.

Lemma convert_and_save_keeps_store_witness :
  let st' := snd (convert_and_save "tok" Examples.video_job_state) in
  dict_get "tok" (pending_conversions (self st'))
    = Some (Examples.mk_job "/up/clip.mp4" "video_to_images" 0 false) /\
  convert_and_save "tok" st'
  = try_except
      (dispatch "tok" (Examples.mk_job "/up/clip.mp4" "video_to_images" 0 false))
      conversion_failed st'.
Proof.
  apply (proj2 (convert_and_save_keeps_store "tok" Examples.video_job_state));
    reflexivity.
Defined.

(** The claim C1 as written fails: the call below succeeds, the job is
    not marked as downloaded afterwards, and the second call with the
    same token delivers again instead of returning [None]. *)
Lemma convert_and_save_does_not_mark :
  let first := convert_and_save "tok" Examples.video_job_state in
  fst first = Return (Some "/tmp/images_tok.zip") /\
  downloaded <$> dict_get "tok" (pending_conversions (self (snd first)))
    = Some false /\
  fst (convert_and_save "tok" (snd first)) = Return (Some "/tmp/images_tok.zip").
Proof. vm_compute. repeat split. Qed.

(** ** Submission *)

Lemma dict_get_set_eq {V} k (v : V) d : dict_get k (dict_set k v d) = Some v.
Proof.
  induction d as [|[k' v'] r IH]; simpl.
  - rewrite String.eqb_refl. reflexivity.
  - destruct (String.eqb k k') eqn:E; simpl.
    + rewrite String.eqb_refl. reflexivity.
    + rewrite E. exact IH.
Qed.

(** An input that passes the size check and the extension check is
    stored under a fresh token, and [True] is returned. *)
Lemma execute_tool_accepts input_params file_info file_path filename n st :
  ip_file input_params = Some file_info ->
  fi_file_path file_info = Some file_path ->
  fi_filename file_info = Some filename ->
  stat (fs (world st)) file_path = Some n ->
  st_size (world st) n <= size_limit ->
  check_extension (default "video_to_images" (ip_conversion_type input_params))
    filename = None ->
  exists st',
    execute_tool input_params st = (Return true, st') /\
    pending_conversions (self st')
    = dict_set (next_token st)
        (job_of input_params file_path filename (clock (world st)))
        (pending_conversions (self st)) /\
    error_message (self st') = error_message (self st) /\
    fs (world st') = fs (world st).
Proof.
  intros Hfile Hpath Hname Hstat Hsize Hext.
  unfold execute_tool, try_except, execute_tool_body.
  rewrite Hfile, Hpath, Hname. simpl.
  unfold bind at 1. simpl.
  unfold bind at 1. simpl.
  unfold os_path_getsize, bind at 1. unfold bind at 1. simpl.
  rewrite Hstat. simpl.
  destruct (st_size (world st) n >? size_limit) eqn:Hgt; [lia |].
  rewrite Hext.
  eexists. split; [reflexivity |].
  simpl. repeat split; reflexivity.
Qed.

(** An input above the size limit is rejected with the message of
    [msg_too_large], and nothing else changes. *)
Lemma execute_tool_too_large input_params file_info file_path filename n st :
  ip_file input_params = Some file_info ->
  fi_file_path file_info = Some file_path ->
  fi_filename file_info = Some filename ->
  stat (fs (world st)) file_path = Some n ->
  st_size (world st) n > size_limit ->
  execute_tool input_params st
  = (Return false,
     {| self := set_error_message msg_too_large (self st); world := world st |}).
Proof.
  intros Hfile Hpath Hname Hstat Hsize.
  unfold execute_tool, try_except, execute_tool_body.
  rewrite Hfile, Hpath, Hname. simpl.
  unfold bind at 1. simpl.
  unfold bind at 1. simpl.
  unfold os_path_getsize, bind at 1. unfold bind at 1. simpl.
  rewrite Hstat. simpl.
  destruct (st_size (world st) n >? size_limit) eqn:Hgt; [reflexivity | lia].
Qed.

(** C4: an input of more than 2 * 1024^3 bytes is rejected with the
    too-large message and [False]; an input of exactly 2 * 1024^3 bytes
    passes the size check, and with a file name fit for its conversion
    type it is stored as a job and [True] is returned. *)
Theorem execute_tool_size_boundary
    input_params file_info file_path filename n st :
  ip_file input_params = Some file_info ->
  fi_file_path file_info = Some file_path ->
  fi_filename file_info = Some filename ->
  stat (fs (world st)) file_path = Some n ->
  (st_size (world st) n > 2 * 1024 ^ 3 ->
   execute_tool input_params st
   = (Return false,
      {| self := set_error_message msg_too_large (self st);
         world := world st |})) /\
  (st_size (world st) n = 2 * 1024 ^ 3 ->
   check_extension (default "video_to_images" (ip_conversion_type input_params))
     filename = None ->
   exists st',
     execute_tool input_params st = (Return true, st') /\
     dict_get (next_token st) (pending_conversions (self st'))
     = Some (job_of input_params file_path filename (clock (world st)))).
Proof.
  intros Hfile Hpath Hname Hstat. split.
  - intros Hsize.
    eapply execute_tool_too_large; eauto.
  - intros Hsize Hext.
    destruct (execute_tool_accepts input_params file_info file_path filename
                n st Hfile Hpath Hname Hstat) as (st' & Hrun & Hpending & _).
    + rewrite Hsize. unfold size_limit. lia.
    + exact Hext.
    + exists st'. split; [exact Hrun |].
      rewrite Hpending. apply dict_get_set_eq.
Qed.

Lemma execute_tool_size_boundary_witness :
  execute_tool (Examples.mk_input "/up/over.mp4" "over.mp4" None)
    Examples.boundary_state
  = (Return false,
     {| self := set_error_message msg_too_large (self Examples.boundary_state);
        world := world Examples.boundary_state |}) /\
  exists st',
    execute_tool (Examples.mk_input "/up/exact.mp4" "exact.mp4" None)
      Examples.boundary_state = (Return true, st') /\
    dict_get "token-0" (pending_conversions (self st'))
    = Some (job_of (Examples.mk_input "/up/exact.mp4" "exact.mp4" None)
              "/up/exact.mp4" "exact.mp4" 0).
Proof.
  split.
  - apply (proj1 (execute_tool_size_boundary
                    (Examples.mk_input "/up/over.mp4" "over.mp4" None)
                    _ _ _ (File (Bytes "2147483649")) Examples.boundary_state
                    eq_refl eq_refl eq_refl eq_refl)).
    vm_compute. reflexivity.
  - apply (proj2 (execute_tool_size_boundary
                    (Examples.mk_input "/up/exact.mp4" "exact.mp4" None)
                    _ _ _ (File (Bytes "2147483648")) Examples.boundary_state
                    eq_refl eq_refl eq_refl eq_refl)).
    + vm_compute. reflexivity.
    + vm_compute. reflexivity.
Defined.

(** C10: [execute_tool] never raises.  Whatever the input and the
    environment, it returns a boolean; when the body of its [try] raises
    an exception, the error message is set from that exception and
    [False] is returned. *)
Theorem execute_tool_never_raises input_params st :
  (exists b, fst (execute_tool input_params st) = Return b) /\
  (forall e st1,
     execute_tool_body input_params st = (Raise e, st1) ->
     execute_tool input_params st
     = (Return false,
        {| self := set_error_message (msg_processing ++ " " ++ str_exn e) (self st1);
           world := world st1 |})).
Proof.
  split.
  - unfold execute_tool, try_except.
    destruct (execute_tool_body input_params st) as [[b|e] st1].
    + exists b. reflexivity.
    + exists false. reflexivity.
  - intros e st1 Hbody. unfold execute_tool.
    rewrite (try_except_catch _ _ _ _ _ Hbody). reflexivity.
Qed.

(** A path at which there is no file makes the size check raise; the
    caller sees [False] and the message of the exception. *)
Lemma execute_tool_never_raises_witness :
  execute_tool_body (Examples.mk_input "/up/missing.mp4" "missing.mp4" None)
    Examples.boundary_state
  = (Raise (FileNotFoundError "/up/missing.mp4"), Examples.boundary_state) /\
  execute_tool (Examples.mk_input "/up/missing.mp4" "missing.mp4" None)
    Examples.boundary_state
  = (Return false,
     {| self :=
          set_error_message
            "Fehler bei der Verarbeitung: [Errno 2] No such file or directory: '/up/missing.mp4'"
            (self Examples.boundary_state);
        world := world Examples.boundary_state |}).
Proof.
  assert (execute_tool_body
            (Examples.mk_input "/up/missing.mp4" "missing.mp4" None)
            Examples.boundary_state
          = (Raise (FileNotFoundError "/up/missing.mp4"), Examples.boundary_state))
    as Hbody by (vm_compute; reflexivity).
  split; [exact Hbody |].
  apply (proj2 (execute_tool_never_raises _ _) _ _ Hbody).
Defined.

(** C9: a conversion type other than the two known ones is not checked
    against the file name; the job is stored with that type, and
    [convert_and_save] takes such a job through [_images_to_video]. *)
Theorem unknown_conversion_type_unchecked
    input_params file_info file_path name kind n st :
  ip_file input_params = Some file_info ->
  fi_file_path file_info = Some file_path ->
  fi_filename file_info = Some name ->
  ip_conversion_type input_params = Some kind ->
  kind <> "video_to_images" ->
  kind <> "images_to_video" ->
  stat (fs (world st)) file_path = Some n ->
  st_size (world st) n <= size_limit ->
  check_extension kind name = None /\
  exists st' job,
    execute_tool input_params st = (Return true, st') /\
    dict_get (next_token st) (pending_conversions (self st')) = Some job /\
    conversion_type job = kind /\
    filename job = name /\
    forall st2,
      dict_get (next_token st) (pending_conversions (self st2)) = Some job ->
      convert_and_save (next_token st) st2
      = try_except
          (path <- _images_to_video (next_token st) job ;; ret (Some path))
          conversion_failed st2.
Proof.
  intros Hfile Hpath Hname Hkind Hv Hi Hstat Hsize.
  assert (check_extension kind name = None) as Hext.
  { unfold check_extension.
    destruct (String.eqb_spec kind "video_to_images"); [contradiction |].
    destruct (String.eqb_spec kind "images_to_video"); [contradiction |].
    reflexivity. }
  split; [exact Hext |].
  destruct (execute_tool_accepts input_params file_info file_path name
              n st Hfile Hpath Hname Hstat Hsize) as (st' & Hrun & Hpending & _).
  { rewrite Hkind. exact Hext. }
  exists st', (job_of input_params file_path name (clock (world st))).
  split; [exact Hrun |].
  split; [rewrite Hpending; apply dict_get_set_eq |].
  split; [simpl; rewrite Hkind; reflexivity |].
  split; [reflexivity |].
  intros st2 Hget.
  rewrite (convert_and_save_pending _ _ _ Hget eq_refl).
  unfold dispatch. simpl. rewrite Hkind. simpl.
  destruct (String.eqb_spec kind "video_to_images"); [contradiction |].
  reflexivity.
Qed.

Lemma unknown_conversion_type_unchecked_witness :
  check_extension "gif_to_video" "notes.txt" = None /\
  exists st' job,
    execute_tool
      (Examples.mk_input "/up/notes.txt" "notes.txt" (Some "gif_to_video"))
      Examples.boundary_state = (Return true, st') /\
    dict_get "token-0" (pending_conversions (self st')) = Some job /\
    conversion_type job = "gif_to_video" /\
    filename job = "notes.txt" /\
    forall st2,
      dict_get "token-0" (pending_conversions (self st2)) = Some job ->
      convert_and_save "token-0" st2
      = try_except
          (path <- _images_to_video "token-0" job ;; ret (Some path))
          conversion_failed st2.
Proof.
  apply (unknown_conversion_type_unchecked
           (Examples.mk_input "/up/notes.txt" "notes.txt" (Some "gif_to_video"))
           _ "/up/notes.txt" "notes.txt" "gif_to_video" (File (Bytes "12"))
           Examples.boundary_state eq_refl eq_refl eq_refl eq_refl).
  - discriminate.
  - discriminate.
  - reflexivity.
  - vm_compute. discriminate.
Defined.

(** ** The job store as a dictionary *)

Lemma existsb_eqb_false k (l : list string) :
  existsb (String.eqb k) l = false <-> ~ In k l.
Proof.
  induction l as [|x r IH]; simpl.
  - tauto.
  - rewrite orb_false_iff, IH. destruct (String.eqb_spec k x) as [->|Hne].
    + split; [intros [H _]; discriminate H | intros H; exfalso; apply H; now left].
    + split.
      * intros [_ H] [Hx|Hr]; [congruence | contradiction].
      * intros H. split; [reflexivity | intros Hr; apply H; now right].
Qed.

Lemma dict_wf_cons {V} k (v : V) d :
  dict_wf ((k, v) :: d) <-> ~ In k (dict_keys d) /\ dict_wf d.
Proof.
  unfold dict_wf. simpl. rewrite andb_true_iff, negb_true_iff.
  rewrite existsb_eqb_false. reflexivity.
Qed.

Lemma dict_get_not_in {V} k (d : dict V) :
  ~ In k (dict_keys d) -> dict_get k d = None.
Proof.
  induction d as [|[k' v'] r IH]; simpl; intros Hnot.
  - reflexivity.
  - destruct (String.eqb_spec k k') as [->|Hne].
    + exfalso. apply Hnot. now left.
    + apply IH. intros Hin. apply Hnot. now right.
Qed.

Lemma dict_get_In {V} k (v : V) d : dict_get k d = Some v -> In (k, v) d.
Proof.
  induction d as [|[k' v'] r IH]; simpl; intros H.
  - discriminate H.
  - destruct (String.eqb_spec k k') as [->|Hne].
    + injection H as ->. now left.
    + right. apply IH. exact H.
Qed.

Lemma dict_keys_filter_incl {V} (q : string * V -> bool) k d :
  In k (dict_keys (List.filter q d)) -> In k (dict_keys d).
Proof.
  unfold dict_keys. rewrite !in_map_iff.
  intros ([k' v'] & Hk & Hin). apply filter_In in Hin as [Hin _].
  exists (k', v'). split; assumption.
Qed.

(** In a well-formed dictionary, looking a key up after filtering is
    filtering the value that was found. *)
Lemma dict_get_filter {V} (q : string * V -> bool) k d :
  dict_wf d ->
  dict_get k (List.filter q d)
  = match dict_get k d with
    | Some v => if q (k, v) then Some v else None
    | None => None
    end.
Proof.
  induction d as [|[k' v'] r IH]; intros Hwf.
  - reflexivity.
  - apply dict_wf_cons in Hwf as [Hnot Hwf]. simpl.
    destruct (String.eqb_spec k k') as [->|Hne].
    + destruct (q (k', v')) eqn:Hq; simpl.
      * rewrite String.eqb_refl. reflexivity.
      * apply dict_get_not_in. intros Hin.
        apply Hnot. eapply dict_keys_filter_incl. exact Hin.
    + destruct (q (k', v')) eqn:Hq; simpl.
      * destruct (String.eqb_spec k k'); [contradiction |]. apply IH. exact Hwf.
      * apply IH. exact Hwf.
Qed.

Lemma pop_all_cons_other {V} tokens k (v : V) d :
  ~ In k tokens -> pop_all tokens ((k, v) :: d) = (k, v) :: pop_all tokens d.
Proof.
  revert d. induction tokens as [|t r IH]; intros d Hnot; simpl.
  - reflexivity.
  - destruct (String.eqb_spec t k) as [->|Hne].
    + exfalso. apply Hnot. now left.
    + apply IH. intros Hin. apply Hnot. now right.
Qed.

(** Popping the keys of the entries that satisfy [q] leaves the entries
    that do not, in their order. *)
Lemma pop_all_filter {V} (q : string * V -> bool) d :
  dict_wf d ->
  pop_all (dict_keys (List.filter q d)) d
  = List.filter (fun item => negb (q item)) d.
Proof.
  induction d as [|[k v] r IH]; intros Hwf.
  - reflexivity.
  - apply dict_wf_cons in Hwf as [Hnot Hwf]. simpl.
    destruct (q (k, v)) eqn:Hq; simpl.
    + rewrite String.eqb_refl. apply IH. exact Hwf.
    + rewrite pop_all_cons_other.
      * rewrite IH by exact Hwf. reflexivity.
      * intros Hin. apply Hnot. eapply dict_keys_filter_incl. exact Hin.
Qed.

(** ** Garbage collection *)

#[global] Instance only_deletes_preorder : PreOrder only_deletes.
Proof.
  split.
  - intros st. repeat split. intros p. now right.
  - intros s1 s2 s3 (Hs12 & Hl12 & Hf12) (Hs23 & Hl23 & Hf23).
    repeat split; [congruence | congruence |].
    intros p. destruct (Hf23 p) as [H|H]; [now left |].
    rewrite H. apply Hf12.
Qed.

Lemma only_deletes_print msg : preserves only_deletes (print msg).
Proof. intros st. repeat split. intros p. now right. Qed.

Lemma only_deletes_os_remove p : preserves only_deletes (os_remove p).
Proof.
  intros st. unfold os_remove, bind, get_fs, get_world, ret. simpl.
  destruct (stat (fs (world st)) p) as [[|d]|]; simpl; try reflexivity.
  destruct (bool_decide (p ∈ locked (world st))); simpl; try reflexivity.
  repeat split. intros q. simpl.
  destruct (decide (p = q)) as [->|Hne].
  - left. apply lookup_delete_eq.
  - right. apply lookup_delete_ne. exact Hne.
Qed.

#[global] Hint Resolve only_deletes_print only_deletes_os_remove : keeps.

Lemma only_deletes_remove_if_exists path :
  preserves only_deletes (remove_if_exists path).
Proof. unfold remove_if_exists. keeps. Qed.

#[global] Hint Resolve only_deletes_remove_if_exists : keeps.

Lemma only_deletes_delete_files token conversion :
  preserves only_deletes (delete_files token conversion).
Proof. unfold delete_files. keeps. Qed.

Lemma only_deletes_cleanup_failed e : preserves only_deletes (cleanup_failed e).
Proof. unfold cleanup_failed. keeps. Qed.

#[global] Hint Resolve only_deletes_delete_files
  only_deletes_cleanup_failed : keeps.

Lemma only_deletes_cleanup_scan now items tokens :
  preserves only_deletes (cleanup_scan now items tokens).
Proof.
  revert tokens. induction items as [|[token conversion] rest IH];
    intros tokens; simpl; keeps.
Qed.

Lemma only_deletes_stat_None st st' p :
  only_deletes st st' ->
  stat (fs (world st)) p = None -> stat (fs (world st')) p = None.
Proof.
  intros (_ & _ & Hfs). unfold stat.
  destruct (String.eqb p "/"); [discriminate |].
  intros Hnone. destruct (Hfs p) as [H|H]; [exact H | congruence].
Qed.

Lemma only_deletes_deletable st st' p :
  only_deletes st st' -> deletable st p -> deletable st' p.
Proof.
  intros (_ & Hlocked & Hfs) [Hfree Hnode]. split.
  - rewrite Hlocked. exact Hfree.
  - revert Hnode. unfold stat. destruct (String.eqb p "/"); [tauto |].
    destruct (Hfs p) as [H|H]; rewrite H; [discriminate | tauto].
Qed.

(** A failing clean-up of one entry is caught: the [try] statement of
    the loop always completes. *)
Lemma delete_files_guarded token conversion st :
  fst (try_except (delete_files token conversion) cleanup_failed st) = Return tt.
Proof.
  unfold try_except.
  destruct (delete_files token conversion st) as [[[]|e] st1]; reflexivity.
Qed.

(** The first loop never raises, and collects the tokens of the stale
    entries in the order of the store. *)
Lemma cleanup_scan_tokens now items tokens st :
  fst (cleanup_scan now items tokens st)
  = Return (tokens ++ dict_keys (List.filter (stale now) items))%list.
Proof.
  revert tokens st. induction items as [|[token conversion] rest IH];
    intros tokens st; simpl.
  - rewrite app_nil_r. reflexivity.
  - unfold stale at 1. simpl. destruct (removable now conversion); simpl.
    + unfold bind at 1.
      pose proof (delete_files_guarded token conversion st) as Hg.
      destruct (try_except (delete_files token conversion) cleanup_failed st)
        as [[[]|e] st1]; simpl in Hg; [| discriminate Hg].
      rewrite IH. rewrite <- app_assoc. reflexivity.
    + apply IH.
Qed.

(** The second loop, on the state. *)
Lemma for_each_pop_token tokens st :
  for_each tokens pop_token st
  = (Return tt,
     {| self := set_pending_conversions
                  (pop_all tokens (pending_conversions (self st))) (self st);
        world := world st |}).
Proof.
  revert st. induction tokens as [|t r IH]; intros st; simpl.
  - destruct st as [[] ?]. reflexivity.
  - unfold bind at 1. unfold pop_token at 1.
    unfold modify_self, bind, get_self, put_self. simpl.
    rewrite IH. reflexivity.
Qed.

(** [cleanup_old_files] as a whole: it returns, the environment is the
    one the first loop leaves, and the store has lost the stale entries. *)
Lemma cleanup_old_files_run st :
  let now := clock (world st) in
  let st1 := snd (cleanup_scan now (pending_conversions (self st)) [] st) in
  cleanup_old_files st
  = (Return tt,
     {| self := set_pending_conversions
                  (pop_all
                     (dict_keys (List.filter (stale now) (pending_conversions (self st))))
                     (pending_conversions (self st)))
                  (self st);
        world := world st1 |}).
Proof.
  intros now st1. unfold cleanup_old_files.
  unfold bind at 1. unfold datetime_now, bind at 1. simpl.
  unfold bind at 1. simpl.
  pose proof (cleanup_scan_tokens now (pending_conversions (self st)) [] st) as Htok.
  pose proof (only_deletes_cleanup_scan now (pending_conversions (self st)) [] st)
    as (Hself & _).
  fold now. fold st1 in Hself.
  unfold bind.
  destruct (cleanup_scan now (pending_conversions (self st)) [] st)
    as [[tokens|e] st1'] eqn:Hscan; simpl in Htok; [| discriminate Htok].
  injection Htok as ->. subst st1. simpl in *.
  rewrite for_each_pop_token. rewrite Hself. reflexivity.
Qed.

Lemma cleanup_old_files_pending st :
  dict_wf (pending_conversions (self st)) ->
  pending_conversions (self (snd (cleanup_old_files st)))
  = List.filter (fun item => negb (stale (clock (world st)) item))
      (pending_conversions (self st)).
Proof.
  intros Hwf. rewrite cleanup_old_files_run. simpl.
  apply pop_all_filter. exact Hwf.
Qed.

Lemma cleanup_old_files_lookup st token conversion :
  dict_wf (pending_conversions (self st)) ->
  dict_get token (pending_conversions (self st)) = Some conversion ->
  dict_get token (pending_conversions (self (snd (cleanup_old_files st))))
  = if removable (clock (world st)) conversion then None else Some conversion.
Proof.
  intros Hwf Hget. rewrite cleanup_old_files_pending by exact Hwf.
  rewrite dict_get_filter by exact Hwf. rewrite Hget.
  unfold stale. simpl. destruct (removable (clock (world st)) conversion); reflexivity.
Qed.

Lemma one_hour_minutes : one_hour = minutes 60.
Proof. reflexivity. Qed.

(** C5: [cleanup_old_files] removes exactly the entries that are marked
    as downloaded or older than one hour, and keeps the others in their
    order.  A job that is not marked is removed 61 minutes after its
    creation and kept after 59 minutes; a marked job is removed even at
    the time of its creation. *)
Theorem cleanup_old_files_removes_exactly st :
  dict_wf (pending_conversions (self st)) ->
  let now := clock (world st) in
  let st' := snd (cleanup_old_files st) in
  pending_conversions (self st')
  = List.filter
      (fun item =>
         negb ((now - timestamp (snd item) >? minutes 60) || downloaded (snd item)))
      (pending_conversions (self st)) /\
  forall token conversion,
    dict_get token (pending_conversions (self st)) = Some conversion ->
    (downloaded conversion = false ->
     now = timestamp conversion + minutes 61 ->
     dict_get token (pending_conversions (self st')) = None) /\
    (downloaded conversion = false ->
     now = timestamp conversion + minutes 59 ->
     dict_get token (pending_conversions (self st')) = Some conversion) /\
    (downloaded conversion = true ->
     now = timestamp conversion ->
     dict_get token (pending_conversions (self st')) = None).
Proof.
  intros Hwf now st'. split.
  - apply cleanup_old_files_pending. exact Hwf.
  - intros token conversion Hget.
    pose proof (cleanup_old_files_lookup st token conversion Hwf Hget) as Hlook.
    fold now in Hlook. fold st' in Hlook. rewrite Hlook.
    unfold removable, one_hour, minutes.
    repeat split; intros Hd Hnow; rewrite Hd, Hnow.
    + replace (timestamp conversion + 61 * 60 * 1000000 - timestamp conversion)
        with (61 * 60 * 1000000) by lia.
      reflexivity.
    + replace (timestamp conversion + 59 * 60 * 1000000 - timestamp conversion)
        with (59 * 60 * 1000000) by lia.
      reflexivity.
    + rewrite orb_true_r. reflexivity.
Qed.

Lemma cleanup_old_files_removes_exactly_witness :
  dict_get "fresh"
    (pending_conversions
       (self (snd (cleanup_old_files (Examples.sweep_state (minutes 61))))))
  = None /\
  dict_get "fresh"
    (pending_conversions
       (self (snd (cleanup_old_files (Examples.sweep_state (minutes 59))))))
  = Some (Examples.mk_job "/up/clip.mp4" "video_to_images" 0 false) /\
  dict_get "served"
    (pending_conversions
       (self (snd (cleanup_old_files (Examples.sweep_state 0)))))
  = None.
Proof.
  split; [| split].
  - apply (proj1 (proj2 (cleanup_old_files_removes_exactly
                           (Examples.sweep_state (minutes 61)) eq_refl)
                    "fresh"
                    (Examples.mk_job "/up/clip.mp4" "video_to_images" 0 false)
                    eq_refl)); reflexivity.
  - apply (proj1 (proj2 (proj2 (cleanup_old_files_removes_exactly
                                  (Examples.sweep_state (minutes 59)) eq_refl)
                           "fresh"
                           (Examples.mk_job "/up/clip.mp4" "video_to_images" 0 false)
                           eq_refl))); reflexivity.
  - apply (proj2 (proj2 (proj2 (cleanup_old_files_removes_exactly
                                  (Examples.sweep_state 0) eq_refl)
                           "served"
                           (Examples.mk_job "/up/frames.zip" "images_to_video" 0 true)
                           eq_refl))); reflexivity.
Defined.

(** The [try] block of the sweep deletes the upload, then the artifact
    at the path computed from the token, the type and the format. *)
Lemma delete_files_artifact token conversion :
  delete_files token conversion
  = (remove_if_exists (file_path conversion) ;;;
     temp_dir <- get_temp_dir ;;
     remove_if_exists (artifact_path temp_dir token conversion)).
Proof.
  unfold delete_files, artifact_path.
  destruct (String.eqb (conversion_type conversion) "video_to_images");
    reflexivity.
Qed.

Lemma get_temp_dir_run st : get_temp_dir st = (Return (temp_dir (self st)), st).
Proof. reflexivity. Qed.

Lemma remove_if_exists_deletes path st :
  deletable st path ->
  fst (remove_if_exists path st) = Return tt /\
  stat (fs (world (snd (remove_if_exists path st)))) path = None.
Proof.
  intros [Hfree Hnode].
  unfold remove_if_exists, os_path_exists, os_remove, is_locked.
  unfold bind, get_fs, get_world, ret. simpl.
  destruct (stat (fs (world st)) path) as [[|d]|] eqn:Hstat; simpl.
  - contradiction.
  - rewrite Hstat. simpl.
    rewrite bool_decide_eq_false_2 by exact Hfree. simpl.
    split; [reflexivity |].
    unfold stat in *. destruct (String.eqb path "/"); [discriminate Hstat |].
    apply lookup_delete_eq.
  - split; [reflexivity | exact Hstat].
Qed.

Lemma delete_files_deletes token conversion st :
  deletable st (file_path conversion) ->
  deletable st (artifact_path (temp_dir (self st)) token conversion) ->
  let st' := snd (try_except (delete_files token conversion) cleanup_failed st) in
  only_deletes st st' /\
  stat (fs (world st')) (file_path conversion) = None /\
  stat (fs (world st')) (artifact_path (temp_dir (self st)) token conversion)
  = None.
Proof.
  intros Hsrc Hart st'.
  assert (only_deletes st st') as Hrel.
  { subst st'. apply preserves_try_except; [exact _ | auto with keeps ..]. }
  split; [exact Hrel |]. subst st'.
  rewrite delete_files_artifact in *.
  destruct (remove_if_exists_deletes _ _ Hsrc) as [Hret1 Hnone1].
  pose proof (only_deletes_remove_if_exists (file_path conversion) st) as Hrel1.
  destruct (remove_if_exists (file_path conversion) st) as [[[]|e1] st1] eqn:Hrun1;
    simpl in Hret1, Hnone1, Hrel1; [| discriminate Hret1].
  assert (temp_dir (self st1) = temp_dir (self st)) as Htmp
    by (destruct Hrel1 as (-> & _); reflexivity).
  pose proof (only_deletes_deletable _ _ _ Hrel1 Hart) as Hart1.
  rewrite <- Htmp in Hart1.
  destruct (remove_if_exists_deletes _ _ Hart1) as [Hret2 Hnone2].
  pose proof (only_deletes_remove_if_exists
                (artifact_path (temp_dir (self st1)) token conversion) st1) as Hrel2.
  destruct (remove_if_exists (artifact_path (temp_dir (self st1)) token conversion) st1)
    as [[[]|e2] st2] eqn:Hrun2; simpl in Hret2, Hnone2, Hrel2; [| discriminate Hret2].
  rewrite (try_except_run _ _ _ tt st2).
  - simpl. split.
    + eapply only_deletes_stat_None; eassumption.
    + rewrite <- Htmp. exact Hnone2.
  - rewrite (bind_run _ _ _ _ _ Hrun1).
    rewrite (bind_run _ _ _ _ _ (get_temp_dir_run st1)).
    exact Hrun2.
Qed.

(** Whatever happens to the other entries, a stale entry whose own files
    can be deleted has them deleted by the first loop. *)
Lemma cleanup_scan_deletes now items tokens st token conversion :
  In (token, conversion) items ->
  removable now conversion = true ->
  deletable st (file_path conversion) ->
  deletable st (artifact_path (temp_dir (self st)) token conversion) ->
  let st' := snd (cleanup_scan now items tokens st) in
  stat (fs (world st')) (file_path conversion) = None /\
  stat (fs (world st')) (artifact_path (temp_dir (self st)) token conversion)
  = None.
Proof.
  revert tokens st.
  induction items as [|[token0 conversion0] rest IH];
    intros tokens st Hin Hstale Hsrc Hart; [destruct Hin |].
  simpl.
  assert (forall st1 tokens1,
            only_deletes st st1 ->
            In (token, conversion) rest ->
            let st' := snd (cleanup_scan now rest tokens1 st1) in
            stat (fs (world st')) (file_path conversion) = None /\
            stat (fs (world st'))
              (artifact_path (temp_dir (self st)) token conversion) = None)
    as Hrest.
  { intros st1 tokens1 Hrel Hin1.
    assert (temp_dir (self st1) = temp_dir (self st)) as Htmp
      by (destruct Hrel as (-> & _); reflexivity).
    rewrite <- Htmp. apply IH; [exact Hin1 | exact Hstale | |].
    - eapply only_deletes_deletable; eassumption.
    - rewrite Htmp. eapply only_deletes_deletable; eassumption. }
  destruct Hin as [Heq | Hin].
  - injection Heq as -> ->. rewrite Hstale.
    destruct (delete_files_deletes token conversion st Hsrc Hart)
      as (Hrel & Hnone1 & Hnone2).
    pose proof (delete_files_guarded token conversion st) as Hg.
    destruct (try_except (delete_files token conversion) cleanup_failed st)
      as [[[]|e] st1] eqn:Hrun; simpl in Hg, Hrel, Hnone1, Hnone2;
      [| discriminate Hg].
    rewrite (bind_run _ _ _ _ _ Hrun).
    pose proof (only_deletes_cleanup_scan now rest (tokens ++ [token]) st1) as Hrel2.
    split; eapply only_deletes_stat_None; eassumption.
  - destruct (removable now conversion0).
    + pose proof (delete_files_guarded token0 conversion0 st) as Hg.
      assert (only_deletes st
                (snd (try_except (delete_files token0 conversion0) cleanup_failed st)))
        as Hrel by (apply preserves_try_except; [exact _ | auto with keeps ..]).
      destruct (try_except (delete_files token0 conversion0) cleanup_failed st)
        as [[[]|e] st1] eqn:Hrun; simpl in Hg, Hrel; [| discriminate Hg].
      rewrite (bind_run _ _ _ _ _ Hrun).
      apply Hrest; assumption.
    + apply Hrest; [reflexivity | assumption].
Qed.

(** When the upload cannot be deleted, the clean-up of the entry ends
    there: the failure is printed and no file is deleted. *)
Lemma delete_files_source_failure token conversion st d :
  stat (fs (world st)) (file_path conversion) = Some (File d) ->
  file_path conversion ∈ locked (world st) ->
  try_except (delete_files token conversion) cleanup_failed st
  = (Return tt,
     {| self := self st;
        world :=
          set_stdout
            (stdout (world st)
               ++ ["Fehler beim Aufräumen von Dateien: "
                     ++ str_exn (PermissionError (file_path conversion))])
            (world st) |}).
Proof.
  intros Hstat Hlocked.
  rewrite delete_files_artifact.
  unfold try_except, bind at 1.
  unfold remove_if_exists, os_path_exists, os_remove, is_locked.
  unfold bind, get_fs, get_world, ret. simpl.
  rewrite Hstat. simpl. rewrite Hstat. simpl.
  rewrite bool_decide_eq_true_2 by exact Hlocked. simpl.
  destruct st as [t w]. reflexivity.
Qed.

(** Decides a closed decidable proposition by evaluation. *)
Ltac decide_by_computing :=
  apply (bool_decide_unpack _); vm_compute; exact I.

(** C6, as the code has it: a failure while deleting the files of a stale
    entry is caught and is not fatal.  The sweep returns; the entry is
    removed from the store whether or not its files could be deleted; and
    the sweep goes on over the remaining entries, so that every stale
    entry whose own files can be deleted has them deleted, whatever
    happened to the entries before it. *)
Theorem cleanup_old_files_survives_failures st :
  dict_wf (pending_conversions (self st)) ->
  let now := clock (world st) in
  let st' := snd (cleanup_old_files st) in
  fst (cleanup_old_files st) = Return tt /\
  forall token conversion,
    dict_get token (pending_conversions (self st)) = Some conversion ->
    removable now conversion = true ->
    dict_get token (pending_conversions (self st')) = None /\
    (deletable st (file_path conversion) ->
     deletable st (artifact_path (temp_dir (self st)) token conversion) ->
     stat (fs (world st')) (file_path conversion) = None /\
     stat (fs (world st'))
       (artifact_path (temp_dir (self st)) token conversion) = None).
Proof.
  intros Hwf now st'. split.
  - rewrite cleanup_old_files_run. reflexivity.
  - intros token conversion Hget Hstale. split.
    + subst st'. rewrite (cleanup_old_files_lookup _ _ _ Hwf Hget).
      fold now. rewrite Hstale. reflexivity.
    + intros Hsrc Hart. subst st'. rewrite cleanup_old_files_run. simpl.
      apply cleanup_scan_deletes; try assumption.
      apply dict_get_In. exact Hget.
Qed.

(** The first entry of the store fails on its upload; it is removed from
    the store, and the entry after it is removed with both its files. *)
Lemma cleanup_old_files_survives_failures_witness :
  let st := Examples.locked_source_state in
  let st' := snd (cleanup_old_files st) in
  dict_get "tok" (pending_conversions (self st')) = None /\
  dict_get "next" (pending_conversions (self st')) = None /\
  stat (fs (world st')) "/up/other.mp4" = None /\
  stat (fs (world st')) "/tmp/images_next.zip" = None.
Proof.
  intros st st'.
  pose proof (cleanup_old_files_survives_failures st eq_refl) as (_ & Hentry).
  destruct (Hentry "tok"
              (Examples.mk_job "/up/clip.mp4" "video_to_images" 0 true)
              eq_refl eq_refl) as [Hgone0 _].
  destruct (Hentry "next"
              (Examples.mk_job "/up/other.mp4" "video_to_images" 0 true)
              eq_refl eq_refl) as [Hgone Hfiles].
  split; [exact Hgone0 |]. split; [exact Hgone |].
  apply Hfiles.
  - split; [decide_by_computing | vm_compute; discriminate].
  - split; [decide_by_computing | vm_compute; discriminate].
Defined.

(** The claim C6 as written fails for the remaining deletions of the
    entry: the upload of the first job cannot be deleted, and its
    artifact, which could be, is still there after the sweep; the job is
    removed from the store all the same. *)
Lemma cleanup_skips_artifact_after_failure :
  let st := Examples.locked_source_state in
  let st' := snd (cleanup_old_files st) in
  removable (clock (world st))
    (Examples.mk_job "/up/clip.mp4" "video_to_images" 0 true) = true /\
  dict_get "tok" (pending_conversions (self st')) = None /\
  deletable st "/tmp/images_tok.zip" /\
  fs (world st') !! "/tmp/images_tok.zip" = Some (File (Zip [])) /\
  stdout (world st')
  = ["Fehler beim Aufräumen von Dateien: [Errno 13] Permission denied: '/up/clip.mp4'"].
Proof.
  intros st st'.
  split; [reflexivity |].
  split; [vm_compute; reflexivity |].
  split.
  { split; [decide_by_computing | vm_compute; discriminate]. }
  split; vm_compute; reflexivity.
Qed.

(** ** Images to video *)

#[global] Instance keeps_entries_preorder : PreOrder keeps_entries.
Proof.
  split.
  - intros st p x H. exact H.
  - intros s1 s2 s3 H12 H23 p x H. apply H23, H12, H.
Qed.

Lemma keeps_entries_os_mkdir p : preserves keeps_entries (os_mkdir p).
Proof.
  intros st. unfold os_mkdir, bind, get_fs, get_world, ret. simpl.
  destruct (stat (fs (world st)) p) as [n|] eqn:Hstat; simpl; [reflexivity |].
  destruct (check_parent p st) as [[[]|e] st1] eqn:Hparent; simpl.
  - assert (st1 = st) as ->.
    { revert Hparent. unfold check_parent, bind, get_fs, get_world, ret. simpl.
      destruct (String.eqb (os_path_dirname p) "");
        [intros [= <-]; reflexivity |].
      destruct (stat (fs (world st)) (os_path_dirname p)) as [[|d]|];
        simpl; intros [=]. subst. reflexivity. }
    unfold is_locked, bind, get_world, ret. simpl.
    destruct (bool_decide (p ∈ locked (world st))); simpl; [reflexivity |].
    intros q x Hq. simpl.
    rewrite lookup_insert_ne; [exact Hq |].
    intros <-. unfold stat in Hstat.
    destruct (String.eqb p "/"); [discriminate Hstat | congruence].
  - pose proof (preserves_check_parent keeps_entries p st) as H.
    rewrite Hparent in H. exact H.
Qed.

#[global] Hint Resolve keeps_entries_os_mkdir : keeps.

Lemma keeps_entries_os_makedirs name : preserves keeps_entries (os_makedirs name).
Proof.
  unfold os_makedirs. generalize (String.length name) as fuel.
  intros fuel. revert name.
  induction fuel as [|fuel IH]; intros name; simpl; keeps.
Qed.

Lemma keeps_entries_stat st st' p x :
  keeps_entries st st' ->
  stat (fs (world st)) p = Some x -> stat (fs (world st')) p = Some x.
Proof.
  intros Hrel. unfold stat. destruct (String.eqb p "/"); [tauto |]. apply Hrel.
Qed.

(** Without an image among the members, the extraction loop extracts
    nothing. *)
Lemma extract_images_none filelist dir st :
  (forall name payload, In (name, payload) filelist -> _is_image_file name = false) ->
  extract_images filelist dir st = (Return [], st).
Proof.
  induction filelist as [|[name payload] rest IH]; intros Hnone; simpl.
  - reflexivity.
  - rewrite (Hnone name payload) by (now left).
    apply IH. intros name' payload' Hin. apply (Hnone name' payload'). now right.
Qed.

Lemma py_int_run s n st : int_of_str s = Some n -> py_int s st = (Return n, st).
Proof. unfold py_int. intros ->. reflexivity. Qed.

Lemma zip_open_read_run path members st :
  stat (fs (world st)) path = Some (File (Zip members)) ->
  zip_open_read path st = (Return members, st).
Proof.
  intros Hstat. unfold zip_open_read, bind, get_fs, get_world, ret. simpl.
  rewrite Hstat. reflexivity.
Qed.

Lemma print_run msg st :
  print msg st
  = (Return tt,
     {| self := self st;
        world := set_stdout (stdout (world st) ++ [msg]) (world st) |}).
Proof. reflexivity. Qed.

(** C2: an images-to-video job whose archive has no member with an image
    extension fails with the exception of [no_images_error], raised out
    of [_images_to_video]; the job keeps [downloaded = False], also when
    the conversion is run through [convert_and_save], which then prints
    the failure and returns [None].  The frame rate of the job is an
    integer literal, and the scratch directory can be made. *)
Theorem images_to_video_empty_archive token conversion st n members :
  conversion_type conversion = "images_to_video" ->
  int_of_str (fps conversion) = Some n ->
  stat (fs (world st)) (file_path conversion) = Some (File (Zip members)) ->
  (forall name payload,
     In (name, payload) members -> _is_image_file name = false) ->
  let scratch := os_path_join (temp_dir (self st)) ("extracted_" ++ token) in
  fst (os_makedirs scratch st) = Return tt ->
  let st1 := snd (os_makedirs scratch st) in
  _images_to_video token conversion st = (Raise no_images_error, st1) /\
  self st1 = self st /\
  (dict_get token (pending_conversions (self st)) = Some conversion ->
   downloaded conversion = false ->
   let st2 := snd (convert_and_save token st) in
   fst (convert_and_save token st) = Return None /\
   dict_get token (pending_conversions (self st2)) = Some conversion /\
   stdout (world st2)
   = (stdout (world st1)
        ++ ["Fehler bei der Konvertierung: Keine Bilddateien in der ZIP-Datei gefunden"])%list).
Proof.
  intros Hkind Hfps Hzip Hnone scratch Hmk st1.
  pose proof (keeps_self_os_makedirs scratch st) as Hself.
  pose proof (keeps_entries_os_makedirs scratch st) as Hkeep.
  fold st1 in Hself, Hkeep. unfold same_self in Hself.
  assert (os_makedirs scratch st = (Return tt, st1)) as Hrun.
  { subst st1. destruct (os_makedirs scratch st) as [[[]|e] s1];
      simpl in Hmk; [reflexivity | discriminate Hmk]. }
  assert (_images_to_video token conversion st = (Raise no_images_error, st1))
    as Hraise.
  { unfold _images_to_video.
    rewrite (bind_run _ _ _ _ _ (py_int_run _ _ st Hfps)).
    apply bind_raise. unfold prepare_frames.
    rewrite (bind_run _ _ _ _ _ (get_temp_dir_run st)).
    fold scratch. rewrite (bind_run _ _ _ _ _ Hrun).
    rewrite (bind_run _ _ _ _ _
               (zip_open_read_run _ _ st1 (keeps_entries_stat _ _ _ _ Hkeep Hzip))).
    rewrite (bind_run _ _ _ _ _ (extract_images_none _ _ st1 Hnone)).
    reflexivity. }
  split; [exact Hraise |]. split; [exact Hself |].
  intros Hget Hd st2.
  assert (convert_and_save token st
          = (Return None,
             {| self := self st1;
                world :=
                  set_stdout
                    (stdout (world st1)
                       ++ ["Fehler bei der Konvertierung: " ++ str_exn no_images_error])
                    (world st1) |})) as Hcs.
  { rewrite (convert_and_save_pending _ _ _ Hget Hd).
    rewrite (try_except_catch _ _ _ no_images_error st1); [reflexivity |].
    unfold dispatch. rewrite Hkind. simpl.
    apply bind_raise. exact Hraise. }
  subst st2. rewrite Hcs. simpl.
  split; [reflexivity |]. split; [| reflexivity].
  rewrite Hself. exact Hget.
Qed.

Lemma images_to_video_empty_archive_witness :
  let st := Examples.empty_archive_state in
  let job := Examples.mk_job "/up/frames.zip" "images_to_video" 0 false in
  let st1 := snd (os_makedirs "/tmp/extracted_tok" st) in
  _images_to_video "tok" job st = (Raise no_images_error, st1) /\
  self st1 = self st /\
  fst (convert_and_save "tok" st) = Return None /\
  dict_get "tok" (pending_conversions (self (snd (convert_and_save "tok" st))))
  = Some job.
Proof.
  intros st job st1.
  destruct (images_to_video_empty_archive "tok" job st 10
              [("readme.txt", Bytes "12"); ("clip.mp4", Bytes "99")]
              eq_refl eq_refl eq_refl) as (Hraise & Hself & Hsave).
  - intros name payload [H | [H | []]]; injection H as <- <-; reflexivity.
  - reflexivity.
  - destruct (Hsave eq_refl eq_refl) as (Hnone & Hget & _).
    repeat split; assumption.
Defined.

(** ** Paths of the artifacts and names of the frames *)

Lemma preserves_run (R : relation State) {A} (m : M A) st o st' :
  preserves R m -> m st = (o, st') -> R st st'.
Proof. intros Hm Hrun. specialize (Hm st). rewrite Hrun in Hm. exact Hm. Qed.

#[global] Instance same_engine_preorder : PreOrder same_engine.
Proof.
  split.
  - intros st. repeat split.
  - intros s1 s2 s3 (Ha & Hb & Hc) (Ha' & Hb' & Hc').
    repeat split; congruence.
Qed.

Lemma same_engine_put_fs f : preserves same_engine (put_fs f).
Proof. intros st. repeat split. Qed.

#[global] Hint Resolve same_engine_put_fs : keeps.

Lemma same_engine_os_mkdir p : preserves same_engine (os_mkdir p).
Proof. unfold os_mkdir. keeps. Qed.

#[global] Hint Resolve same_engine_os_mkdir : keeps.

Lemma same_engine_os_makedirs name : preserves same_engine (os_makedirs name).
Proof.
  unfold os_makedirs. generalize (String.length name) as fuel.
  intros fuel. revert name.
  induction fuel as [|fuel IH]; intros name; simpl; keeps.
Qed.

(** Takes the first statement off a run that returned. *)
Ltac step_in H a s Hm :=
  apply bind_Return_inv in H as (a & s & Hm & H).

Lemma py_int_inv s n st st' :
  py_int s st = (Return n, st') -> int_of_str s = Some n /\ st' = st.
Proof.
  unfold py_int. destruct (int_of_str s) as [k|]; intros [=]. subst. split; reflexivity.
Qed.

Lemma get_temp_dir_inv d st st' :
  get_temp_dir st = (Return d, st') -> d = temp_dir (self st) /\ st' = st.
Proof. rewrite get_temp_dir_run. intros [=]. subst. split; reflexivity. Qed.

Lemma ret_inv {A} (a b : A) st st' :
  ret a st = (Return b, st') -> b = a /\ st' = st.
Proof. intros [=]. subst. split; reflexivity. Qed.

(** A run of the decoding [ffmpeg] that returns was given a file, and
    the engine accepted it with the filter and the pattern of the call. *)
Lemma ffmpeg_run_image2_inv input_path vf pattern st st' :
  ffmpeg_run_image2 input_path vf pattern st = (Return tt, st') ->
  exists d frames,
    stat (fs (world st)) input_path = Some (File d) /\
    ffmpeg_decode (world st) d vf pattern = Some frames.
Proof.
  unfold ffmpeg_run_image2, bind, get_world, ret. simpl.
  destruct (stat (fs (world st)) input_path) as [[|d]|] eqn:Hstat;
    try (intros [=]; fail).
  destruct (ffmpeg_decode (world st) d vf pattern) as [frames|] eqn:Hdec;
    [| intros [=]].
  intros _. exists d, frames. split; [reflexivity | exact Hdec].
Qed.

(** What a successful [_video_to_images] returns, and the pattern under
    which it had [ffmpeg] write the frames. *)
Lemma video_to_images_returns token conversion st path st' :
  _video_to_images token conversion st = (Return path, st') ->
  path = os_path_join (temp_dir (self st)) ("images_" ++ token ++ ".zip") /\
  exists n d frames,
    int_of_str (fps conversion) = Some n /\
    ffmpeg_decode (world st) d ("fps=" ++ pretty n)
      (os_path_join (os_path_join (temp_dir (self st)) ("images_" ++ token))
         ("frame_%04d." ++ image_format conversion))
    = Some frames.
Proof.
  intros H. unfold _video_to_images in H.
  step_in H n s1 H1. apply py_int_inv in H1 as [Hn ->].
  step_in H d1 s2 H2. apply get_temp_dir_inv in H2 as [-> ->].
  step_in H u3 s3 H3.
  step_in H u4 s4 H4.
  step_in H d5 s5 H5. apply get_temp_dir_inv in H5 as [-> ->].
  step_in H u6 s6 H6.
  step_in H l7 s7 H7.
  step_in H u8 s8 H8.
  step_in H l9 s9 H9.
  step_in H u10 s10 H10.
  step_in H u11 s11 H11.
  apply ret_inv in H as [-> _].
  pose proof (preserves_run _ _ _ _ _ (keeps_self_os_makedirs _) H3) as Hs3.
  pose proof (preserves_run _ _ _ _ _ (keeps_self_ffmpeg_run_image2 _ _ _) H4) as Hs4.
  pose proof (preserves_run _ _ _ _ _ (same_engine_os_makedirs _) H3) as (_ & He3 & _).
  unfold same_self in *. split.
  - rewrite Hs4, Hs3. reflexivity.
  - destruct u4. apply ffmpeg_run_image2_inv in H4 as (d & frames & _ & Hdec).
    exists n, d, frames. split; [exact Hn |].
    rewrite <- He3. exact Hdec.
Qed.

(** What a successful [_images_to_video] returns. *)
Lemma images_to_video_returns token conversion st path st' :
  _images_to_video token conversion st = (Return path, st') ->
  path = os_path_join (temp_dir (self st))
           ("video_" ++ token ++ "." ++ video_format conversion).
Proof.
  intros H. unfold _images_to_video in H.
  step_in H n s1 H1. apply py_int_inv in H1 as [Hn ->].
  step_in H dir s2 H2.
  step_in H d3 s3 H3. apply get_temp_dir_inv in H3 as [-> ->].
  step_in H q4 s4 H4.
  step_in H u5 s5 H5.
  step_in H l6 s6 H6.
  step_in H u7 s7 H7.
  step_in H u8 s8 H8.
  apply ret_inv in H as [-> _].
  pose proof (preserves_run _ _ _ _ _ (keeps_self_prepare_frames _ _) H2) as Hs2.
  unfold same_self in Hs2. rewrite Hs2. reflexivity.
Qed.

Lemma Image_open_inv path img st st' :
  Image_open path st = (Return img, st') ->
  stat (fs (world st)) path = Some (File (Picture img)) /\ st' = st.
Proof.
  unfold Image_open, bind, get_fs, get_world, ret. simpl.
  destruct (stat (fs (world st)) path) as [[|[tag|img'|members]]|];
    intros [=]. subst. split; reflexivity.
Qed.

Lemma check_parent_inv p st st' :
  check_parent p st = (Return tt, st') -> st' = st.
Proof.
  unfold check_parent, bind, get_fs, get_world, ret. simpl.
  destruct (String.eqb (os_path_dirname p) ""); [intros [=]; congruence |].
  destruct (stat (fs (world st)) (os_path_dirname p)) as [[|d]|];
    intros [=]. congruence.
Qed.

Lemma fs_write_inv p d st st' :
  fs_write p d st = (Return tt, st') ->
  String.eqb p "/" = false /\
  fs (world st') = <[p := File d]> (fs (world st)).
Proof.
  unfold fs_write. intros H.
  step_in H u s1 H1. destruct u. apply check_parent_inv in H1 as ->.
  revert H. unfold bind, get_fs, get_world, is_locked, ret. simpl.
  unfold stat. destruct (String.eqb p "/"); [intros [=] |].
  destruct (fs (world st) !! p) as [[|d']|];
    try (intros [=]; fail);
    destruct (bool_decide (p ∈ locked (world st))); intros [=]; subst;
    split; reflexivity.
Qed.

Lemma os_remove_inv p st st' :
  os_remove p st = (Return tt, st') ->
  fs (world st') = delete p (fs (world st)).
Proof.
  unfold os_remove, bind, get_fs, get_world, is_locked, ret. simpl.
  destruct (stat (fs (world st)) p) as [[|d]|]; try (intros [=]; fail).
  destruct (bool_decide (p ∈ locked (world st))); intros [=]. subst. reflexivity.
Qed.

(** One turn of the renaming loop: the picture found under the extracted
    name is saved, re-encoded, under the canonical name of its index. *)
Lemma canonical_frame_saved dir size i image_file st st' :
  canonical_frame dir size (i, image_file) st = (Return tt, st') ->
  exists img,
    stat (fs (world st)) (os_path_join dir image_file)
    = Some (File (Picture img)) /\
    stat (fs (world st')) (os_path_join dir ("frame_" ++ format_04d i ++ ".png"))
    = Some (File (canonical_picture size img)).
Proof.
  intros H. unfold canonical_frame in H.
  step_in H img s1 H1. apply Image_open_inv in H1 as [Himg ->].
  step_in H u s2 H2. destruct u. unfold img_save in H2.
  apply fs_write_inv in H2 as [Hroot Hfs].
  exists img. split; [exact Himg |].
  unfold stat. rewrite Hroot.
  destruct (String.eqb_spec (os_path_join dir image_file)
              (os_path_join dir ("frame_" ++ format_04d i ++ ".png")))
    as [Heq | Hne]; simpl in H.
  - apply ret_inv in H as [_ ->]. rewrite Hfs. apply lookup_insert_eq.
  - apply os_remove_inv in H. rewrite H, lookup_delete_ne by exact Hne.
    rewrite Hfs. apply lookup_insert_eq.
Qed.

(** The name of frame [i] under the pattern [frame_%04d.<ext>]. *)
Lemma expand_pattern_frame ext i :
  expand_pattern ("frame_%04d." ++ ext) i = "frame_" ++ format_04d i ++ "." ++ ext.
Proof. reflexivity. Qed.

Lemma os_path_join_plain dir name :
  dir <> "" -> str_endswith dir "/" = false -> str_startswith name "/" = false ->
  os_path_join dir name = dir ++ "/" ++ name.
Proof.
  intros Hdir Hslash Hname. unfold os_path_join. rewrite Hname, Hslash.
  destruct (String.eqb_spec dir ""); [contradiction | reflexivity].
Qed.

(** What [convert_and_save] delivers is the artifact path of the job. *)
Lemma convert_and_save_returns token st path st' :
  convert_and_save token st = (Return (Some path), st') ->
  exists conversion,
    dict_get token (pending_conversions (self st)) = Some conversion /\
    path = artifact_path (temp_dir (self st)) token conversion.
Proof.
  unfold convert_and_save, bind at 1, get_self. simpl.
  destruct (dict_get token (pending_conversions (self st)))
    as [conversion|]; [| intros [=]].
  destruct (downloaded conversion); [intros [=] |].
  intros H. exists conversion. split; [reflexivity |].
  unfold try_except in H.
  destruct (dispatch token conversion st) as [[r|e] s1] eqn:Hd.
  - injection H as -> ->. unfold dispatch, artifact_path in *.
    destruct (String.eqb (conversion_type conversion) "video_to_images").
    + step_in Hd p s2 H2. apply ret_inv in Hd as [[= ->] _].
      apply video_to_images_returns in H2 as [-> _]. reflexivity.
    + step_in Hd p s2 H2. apply ret_inv in Hd as [[= ->] _].
      apply images_to_video_returns in H2 as ->. reflexivity.
  - discriminate H.
Qed.

(** C8: a successful conversion returns the path [images_<token>.zip]
    in the temporary directory for a video-to-images job and
    [video_<token>.<video_format>] for the other direction, and this is
    what [convert_and_save] delivers.  The frames are named from the
    pattern [frame_%04d.<ext>]: [ffmpeg] is handed that pattern with the
    image format of the job inside the scratch directory, and the
    renaming loop saves frame [i] as [frame_%04d.png] at [i]. *)
Theorem artifact_path_conventions token conversion st path st' :
  let tmp := temp_dir (self st) in
  (_video_to_images token conversion st = (Return path, st') ->
   path = os_path_join tmp ("images_" ++ token ++ ".zip") /\
   exists n d frames,
     int_of_str (fps conversion) = Some n /\
     ffmpeg_decode (world st) d ("fps=" ++ pretty n)
       (os_path_join (os_path_join tmp ("images_" ++ token))
          ("frame_%04d." ++ image_format conversion))
     = Some frames) /\
  (_images_to_video token conversion st = (Return path, st') ->
   path = os_path_join tmp ("video_" ++ token ++ "." ++ video_format conversion)) /\
  (convert_and_save token st = (Return (Some path), st') ->
   exists job,
     dict_get token (pending_conversions (self st)) = Some job /\
     path = if String.eqb (conversion_type job) "video_to_images"
            then os_path_join tmp ("images_" ++ token ++ ".zip")
            else os_path_join tmp ("video_" ++ token ++ "." ++ video_format job)) /\
  (tmp <> "" -> str_endswith tmp "/" = false ->
   os_path_join tmp ("images_" ++ token ++ ".zip")
   = tmp ++ "/images_" ++ token ++ ".zip" /\
   os_path_join tmp ("video_" ++ token ++ "." ++ video_format conversion)
   = tmp ++ "/video_" ++ token ++ "." ++ video_format conversion) /\
  (forall dir size i image_file s s',
     canonical_frame dir size (i, image_file) s = (Return tt, s') ->
     exists img,
       stat (fs (world s)) (os_path_join dir image_file)
       = Some (File (Picture img)) /\
       stat (fs (world s'))
         (os_path_join dir (expand_pattern "frame_%04d.png" i))
       = Some (File (canonical_picture size img))) /\
  (forall ext i,
     expand_pattern ("frame_%04d." ++ ext) i
     = "frame_" ++ format_04d i ++ "." ++ ext).
Proof.
  intros tmp. repeat apply conj.
  - apply video_to_images_returns.
  - apply images_to_video_returns.
  - intros H. apply convert_and_save_returns in H as (job & Hget & ->).
    exists job. split; [exact Hget | reflexivity].
  - intros Hne Hslash. split; apply os_path_join_plain; auto.
  - intros dir size i image_file s s' H.
    apply canonical_frame_saved in H. exact H.
  - apply expand_pattern_frame.
Qed.

Lemma artifact_path_conventions_witness :
  let st := Examples.video_job_state in
  let job := Examples.mk_job "/up/clip.mp4" "video_to_images" 0 false in
  let st2 := Examples.frames_archive_state
               (Examples.small_picture "a") (Examples.small_picture "b") in
  os_path_join "/tmp" "images_tok.zip" = "/tmp/images_tok.zip" /\
  os_path_join "/tmp" "video_tok.mp4" = "/tmp/video_tok.mp4" /\
  fst (_video_to_images "tok" job st) = Return "/tmp/images_tok.zip" /\
  fst (_images_to_video "tok" Examples.frames_job st2) = Return "/tmp/video_tok.mp4" /\
  (exists job',
     dict_get "tok" (pending_conversions (self st)) = Some job' /\
     "/tmp/images_tok.zip"
     = if String.eqb (conversion_type job') "video_to_images"
       then os_path_join "/tmp" "images_tok.zip"
       else os_path_join "/tmp" ("video_tok." ++ video_format job')).
Proof.
  intros st job st2.
  destruct (artifact_path_conventions "tok" job st "/tmp/images_tok.zip"
              (snd (_video_to_images "tok" job st)))
    as (Hv & _ & Hsave & Hplain & _).
  destruct (artifact_path_conventions "tok" Examples.frames_job st2
              "/tmp/video_tok.mp4"
              (snd (_images_to_video "tok" Examples.frames_job st2)))
    as (_ & Hi & _).
  destruct Hplain as [Hp1 Hp2]; [discriminate | reflexivity |].
  split; [exact Hp1 |]. split; [exact Hp2 |].
  assert (_video_to_images "tok" job st
          = (Return "/tmp/images_tok.zip", snd (_video_to_images "tok" job st)))
    as Hrun1 by (vm_compute; reflexivity).
  assert (_images_to_video "tok" Examples.frames_job st2
          = (Return "/tmp/video_tok.mp4",
             snd (_images_to_video "tok" Examples.frames_job st2)))
    as Hrun2 by (vm_compute; reflexivity).
  destruct (Hv Hrun1) as [Hpath1 _]. specialize (Hi Hrun2).
  split; [rewrite Hrun1; reflexivity |].
  split; [rewrite Hrun2; reflexivity |].
  apply Hsave. vm_compute. reflexivity.
Defined.

(** ** The order on file names *)

#[global] Instance str_le_total : Total str_le.
Proof. intros a b. apply String.leb_total. Qed.

(** ** The invariant of the job store

    The keys of [pending_conversions] are unique in the empty store, and
    every method keeps them so. *)

Lemma dict_keys_set {V} k (v : V) d x :
  In x (dict_keys (dict_set k v d)) -> x = k \/ In x (dict_keys d).
Proof.
  induction d as [|[k' v'] r IH]; simpl.
  - intros [<-|[]]. now left.
  - destruct (String.eqb_spec k k') as [->|Hne]; simpl.
    + intros [<-|H]; [now left | right; now right].
    + intros [<-|H]; [right; now left |].
      destruct (IH H) as [->|Hin]; [now left | right; now right].
Qed.

Lemma dict_wf_set {V} k (v : V) d : dict_wf d -> dict_wf (dict_set k v d).
Proof.
  induction d as [|[k' v'] r IH]; intros Hwf.
  - reflexivity.
  - apply dict_wf_cons in Hwf as [Hnot Hwf]. simpl.
    destruct (String.eqb_spec k k') as [->|Hne].
    + apply dict_wf_cons. split; assumption.
    + apply dict_wf_cons. split; [| apply IH; exact Hwf].
      intros Hin. apply dict_keys_set in Hin as [->|Hin]; [congruence | contradiction].
Qed.

Lemma dict_keys_pop {V} k (d : dict V) x :
  In x (dict_keys (dict_pop k d)) -> In x (dict_keys d).
Proof.
  induction d as [|[k' v'] r IH]; simpl; [tauto |].
  destruct (String.eqb k k'); simpl.
  - intros H. now right.
  - intros [<-|H]; [now left | right; apply IH; exact H].
Qed.

Lemma dict_wf_pop {V} k (d : dict V) : dict_wf d -> dict_wf (dict_pop k d).
Proof.
  induction d as [|[k' v'] r IH]; intros Hwf.
  - reflexivity.
  - apply dict_wf_cons in Hwf as [Hnot Hwf]. simpl.
    destruct (String.eqb k k'); [exact Hwf |].
    apply dict_wf_cons. split; [| apply IH; exact Hwf].
    intros Hin. apply Hnot. eapply dict_keys_pop. exact Hin.
Qed.

#[global] Instance keeps_wf_preorder : PreOrder keeps_wf.
Proof.
  split.
  - intros st H. exact H.
  - intros s1 s2 s3 H12 H23 H. apply H23, H12, H.
Qed.

Lemma keeps_wf_put_world w : preserves keeps_wf (put_world w).
Proof. intros st H. exact H. Qed.

Lemma keeps_wf_same_self {A} (m : M A) :
  preserves same_self m -> preserves keeps_wf m.
Proof. intros Hm st Hwf. rewrite (Hm st). exact Hwf. Qed.

Lemma keeps_wf_set_error_message msg :
  preserves keeps_wf (modify_self (set_error_message msg)).
Proof. intros st H. exact H. Qed.

Lemma keeps_wf_set_output html :
  preserves keeps_wf (modify_self (set_output html)).
Proof. intros st H. exact H. Qed.

Lemma keeps_wf_store token job :
  preserves keeps_wf
    (modify_self (fun t =>
       set_pending_conversions (dict_set token job (pending_conversions t)) t)).
Proof. intros st H. simpl. apply dict_wf_set. exact H. Qed.

Lemma keeps_wf_pop_token token : preserves keeps_wf (pop_token token).
Proof. intros st H. simpl. apply dict_wf_pop. exact H. Qed.

Lemma keeps_wf_uuid4 : preserves keeps_wf uuid4.
Proof. intros st H. exact H. Qed.

Lemma keeps_wf_os_path_getsize p : preserves keeps_wf (os_path_getsize p).
Proof. unfold os_path_getsize. keeps. Qed.

#[global] Hint Resolve keeps_wf_put_world keeps_wf_set_error_message
  keeps_wf_set_output keeps_wf_store keeps_wf_pop_token keeps_wf_uuid4
  keeps_wf_os_path_getsize : keeps.

(** Submission, delivery and the sweep keep the keys of the store
    unique. *)
Lemma execute_tool_keeps_wf input_params :
  preserves keeps_wf (execute_tool input_params).
Proof. unfold execute_tool, execute_tool_body. keeps. Qed.

Lemma convert_and_save_keeps_wf token :
  preserves keeps_wf (convert_and_save token).
Proof. apply keeps_wf_same_self, keeps_self_convert_and_save. Qed.

Lemma keeps_wf_cleanup_scan now items tokens :
  preserves keeps_wf (cleanup_scan now items tokens).
Proof.
  apply keeps_wf_same_self. intros st.
  destruct (only_deletes_cleanup_scan now items tokens st) as (Hself & _).
  exact Hself.
Qed.

Lemma cleanup_old_files_keeps_wf : preserves keeps_wf cleanup_old_files.
Proof.
  unfold cleanup_old_files. keeps. apply keeps_wf_cleanup_scan.
Qed.

(** ** The recursion of [os.makedirs]

    The head of a path is shorter than the path, so the length of the
    name is fuel enough: more fuel gives the same run. *)

Lemma rev_app_length s acc :
  String.length (String.rev_app s acc) = (String.length s + String.length acc)%nat.
Proof.
  revert acc. induction s as [|c r IH]; intros acc; simpl.
  - reflexivity.
  - rewrite IH. simpl. lia.
Qed.

Lemma rev_length s : String.length (String.rev s) = String.length s.
Proof. unfold String.rev. rewrite rev_app_length. simpl. lia. Qed.

Lemma split_last_slash_rev_length r tail h t :
  split_last_slash_rev r tail = (h, t) ->
  (String.length h + String.length t = String.length r + String.length tail)%nat.
Proof.
  revert tail. induction r as [|c r' IH]; intros tail; simpl.
  - intros [= <- <-]. reflexivity.
  - destruct (Ascii.eqb_spec c "/") as [->|Hne].
    + intros [= <- <-]. reflexivity.
    + assert (split_last_slash_rev (String c r') tail
              = split_last_slash_rev r' (String c tail)) as Hstep.
      { simpl. destruct c as [[] [] [] [] [] [] [] []];
          try reflexivity. contradiction Hne. reflexivity. }
      simpl in Hstep. rewrite Hstep. intros H. apply IH in H. simpl in H. lia.
Qed.

Lemma rstrip_slash_rev_length r :
  (String.length (rstrip_slash_rev r) <= String.length r)%nat.
Proof.
  induction r as [|c r' IH]; simpl; [lia |].
  destruct c as [[] [] [] [] [] [] [] []]; simpl; lia.
Qed.

Lemma os_path_split_length p h t :
  os_path_split p = (h, t) ->
  (String.length h + String.length t <= String.length p)%nat.
Proof.
  unfold os_path_split.
  destruct (split_last_slash_rev (String.rev p) "") as [head_rev tail] eqn:Hsplit.
  apply split_last_slash_rev_length in Hsplit. rewrite rev_length in Hsplit.
  simpl in Hsplit. intros [= <- <-]. rewrite rev_length.
  pose proof (rstrip_slash_rev_length head_rev).
  destruct (String.eqb (rstrip_slash_rev head_rev) ""); lia.
Qed.

Lemma bind_ext {A B} (m m' : M A) (k k' : A -> M B) st :
  m st = m' st -> (forall a s, k a s = k' a s) -> bind m k st = bind m' k' st.
Proof.
  intros Hm Hk. unfold bind. rewrite Hm.
  destruct (m' st) as [[a|e] s]; [apply Hk | reflexivity].
Qed.

Lemma try_except_ext {A} (m m' : M A) h st :
  m st = m' st -> try_except m h st = try_except m' h st.
Proof. intros Hm. unfold try_except. rewrite Hm. reflexivity. Qed.

Lemma os_makedirs_rec_enough fuel name st :
  (String.length name <= fuel)%nat ->
  os_makedirs_rec fuel name st = os_makedirs name st.
Proof.
  unfold os_makedirs.
  remember (String.length name) as len eqn:Hlen.
  assert (String.length name <= len)%nat as Hle by lia. clear Hlen.
  revert fuel name st Hle.
  induction len as [|len IH]; intros fuel name st Hle Hfuel.
  - destruct name; [| simpl in Hle; lia].
    destruct fuel; reflexivity.
  - destruct fuel as [|fuel]; [lia |].
    simpl.
    destruct (os_path_split name) as [head tail] eqn:Hsplit.
    pose proof (os_path_split_length _ _ _ Hsplit) as Hlen1.
    destruct (String.eqb_spec tail "") as [->|Htail].
    + destruct (os_path_split head) as [head2 tail2] eqn:Hsplit2.
      pose proof (os_path_split_length _ _ _ Hsplit2) as Hlen2.
      apply bind_ext; [reflexivity |]. intros head_exists s.
      apply bind_ext; [| reflexivity].
      destruct (String.eqb_spec head2 ""); [reflexivity |].
      destruct (String.eqb_spec tail2 ""); [reflexivity |].
      destruct head_exists; [reflexivity |]. simpl.
      apply bind_ext; [| reflexivity].
      apply try_except_ext.
      assert (0 < String.length tail2)%nat
        by (destruct tail2; [contradiction | simpl; lia]).
      rewrite (IH fuel head2 s) by lia. reflexivity.
    + apply bind_ext; [reflexivity |]. intros head_exists s.
      apply bind_ext; [| reflexivity].
      destruct (String.eqb_spec head ""); [reflexivity |].
      destruct (String.eqb_spec tail ""); [contradiction |].
      destruct head_exists; [reflexivity |]. simpl.
      apply bind_ext; [| reflexivity].
      apply try_except_ext.
      assert (0 < String.length tail)%nat
        by (destruct tail; [contradiction | simpl; lia]).
      rewrite (IH fuel head s) by lia. reflexivity.
Qed.

(** * Further properties *)

(** ** Suffixes of strings *)

Lemma app_length_str a b :
  String.length (a ++ b) = (String.length a + String.length b)%nat.
Proof. induction a as [|c a IH]; simpl; [reflexivity | rewrite IH; reflexivity]. Qed.

Lemma substring_all s : substring 0 (String.length s) s = s.
Proof. induction s as [|c s IH]; simpl; [reflexivity | rewrite IH; reflexivity]. Qed.

Lemma substring_skip_app pre s m :
  substring (String.length pre) m (pre ++ s) = substring 0 m s.
Proof. induction pre as [|c pre IH]; simpl; [reflexivity | exact IH]. Qed.

Lemma substring_split s k m :
  (k + m = String.length s)%nat -> s = substring 0 k s ++ substring k m s.
Proof.
  revert s. induction k as [|k IH]; intros s Hlen.
  - simpl in Hlen. subst m. rewrite substring_all. destruct s; reflexivity.
  - destruct s as [|c s]; simpl in Hlen; [lia |].
    change (String c s = String c (substring 0 k s ++ substring k m s)).
    f_equal. apply IH. lia.
Qed.

(** [s.endswith(suffix)] is true exactly when [s] is some string
    followed by [suffix]. *)
Lemma str_endswith_spec s suffix :
  str_endswith s suffix = true <-> exists stem, s = stem ++ suffix.
Proof.
  unfold str_endswith. rewrite andb_true_iff, Nat.leb_le, String.eqb_eq. split.
  - intros [Hle Hsub].
    exists (substring 0 (String.length s - String.length suffix) s).
    pose proof (substring_split s (String.length s - String.length suffix)
                  (String.length suffix)) as Hsplit.
    rewrite Hsub in Hsplit. apply Hsplit. lia.
  - intros [stem ->]. rewrite app_length_str. split; [lia |].
    replace (String.length stem + String.length suffix - String.length suffix)%nat
      with (String.length stem) by lia.
    rewrite substring_skip_app. apply substring_all.
Qed.

Lemma app_split_str p1 p2 e1 e2 :
  p1 ++ e1 = p2 ++ e2 -> (String.length p2 <= String.length p1)%nat ->
  exists q, e2 = q ++ e1.
Proof.
  revert p1. induction p2 as [|c p2 IH]; intros p1 Heq Hlen.
  - exists p1. simpl in Heq. symmetry. exact Heq.
  - destruct p1 as [|c' p1]; simpl in Hlen; [lia |].
    simpl in Heq. injection Heq as _ Heq. apply (IH p1 Heq). lia.
Qed.

(** Two suffixes of one string: one of them is a suffix of the other. *)
Lemma str_endswith_comparable s e1 e2 :
  str_endswith s e1 = true -> str_endswith s e2 = true ->
  str_endswith e1 e2 = true \/ str_endswith e2 e1 = true.
Proof.
  rewrite !str_endswith_spec. intros [p1 H1] [p2 H2]. subst s.
  destruct (le_lt_dec (String.length p2) (String.length p1)) as [Hle | Hlt].
  - right. eapply app_split_str; eassumption.
  - left. symmetry in H2. eapply app_split_str; [exact H2 | lia].
Qed.

(** ** The checks on file names *)

Lemma ends_with_one_list_only s l1 l2 :
  unrelated_suffixes l1 l2 = true ->
  existsb (fun ext => str_endswith s ext) l1 = true ->
  existsb (fun ext => str_endswith s ext) l2 = false.
Proof.
  intros Hun H1.
  destruct (existsb (fun ext => str_endswith s ext) l2) eqn:H2; [| reflexivity].
  apply existsb_exists in H1 as (e1 & Hin1 & Hends1).
  apply existsb_exists in H2 as (e2 & Hin2 & Hends2).
  unfold unrelated_suffixes in Hun. rewrite forallb_forall in Hun.
  specialize (Hun e1 Hin1). rewrite forallb_forall in Hun.
  specialize (Hun e2 Hin2).
  apply andb_true_iff in Hun as [Ha Hb].
  apply negb_true_iff in Ha, Hb.
  destruct (str_endswith_comparable s e1 e2 Hends1 Hends2); congruence.
Qed.

(** A file name passes at most one of the three checks; hence no file
    name is accepted for both conversion types [execute_tool] checks. *)
Theorem extension_checks_exclusive filename :
  (_is_video_file filename = true ->
   _is_zip_file filename = false /\ _is_image_file filename = false) /\
  (_is_zip_file filename = true -> _is_image_file filename = false) /\
  (check_extension "video_to_images" filename = None ->
   check_extension "images_to_video" filename = Some msg_not_zip) /\
  (check_extension "images_to_video" filename = None ->
   check_extension "video_to_images" filename = Some msg_not_video).
Proof.
  assert (_is_video_file filename = true -> _is_zip_file filename = false) as Hvz.
  { intros Hv. unfold _is_zip_file.
    pose proof (ends_with_one_list_only (str_lower filename)
                  video_extensions [".zip"] eq_refl Hv) as H.
    simpl in H. rewrite orb_false_r in H. exact H. }
  repeat apply conj.
  - intros Hv. split; [apply Hvz; exact Hv |].
    apply (ends_with_one_list_only (str_lower filename)
             video_extensions image_extensions eq_refl Hv).
  - intros Hz. unfold _is_zip_file in Hz.
    apply (ends_with_one_list_only (str_lower filename)
             [".zip"] image_extensions eq_refl).
    simpl. rewrite Hz. reflexivity.
  - unfold check_extension. simpl.
    destruct (_is_video_file filename) eqn:Hv; simpl; intros H;
      try discriminate H.
    rewrite (Hvz eq_refl). reflexivity.
  - unfold check_extension. simpl.
    destruct (_is_zip_file filename) eqn:Hz; simpl; intros H;
      try discriminate H.
    destruct (_is_video_file filename) eqn:Hv; [| reflexivity].
    discriminate (Hvz eq_refl).
Qed.

Lemma extension_checks_exclusive_witness :
  (_is_zip_file "clip.mkv" = false /\ _is_image_file "clip.mkv" = false) /\
  _is_image_file "frames.zip" = false /\
  check_extension "images_to_video" "clip.mkv" = Some msg_not_zip /\
  check_extension "video_to_images" "frames.zip" = Some msg_not_video.
Proof.
  pose proof (extension_checks_exclusive "clip.mkv") as (Hv & _ & Hc & _).
  pose proof (extension_checks_exclusive "frames.zip") as (_ & Hz & _ & Hc').
  split; [apply Hv; reflexivity |].
  split; [apply Hz; reflexivity |].
  split; [apply Hc; reflexivity | apply Hc'; reflexivity].
Defined.

(** ** Submission, case by case *)

(** The three ways the body of [execute_tool] ends: a rejection that
    sets the error message, an exception raised before anything was
    changed, or the job stored. *)
Lemma execute_tool_body_cases input_params st :
  (exists msg,
     execute_tool_body input_params st = (Return false, with_error msg st)) \/
  (exists e, execute_tool_body input_params st = (Raise e, st)) \/
  (exists file_info file_path filename n,
     ip_file input_params = Some file_info /\
     fi_file_path file_info = Some file_path /\
     fi_filename file_info = Some filename /\
     stat (fs (world st)) file_path = Some n /\
     st_size (world st) n <= size_limit /\
     check_extension
       (default "video_to_images" (ip_conversion_type input_params)) filename
     = None /\
     execute_tool_body input_params st
     = (Return true, with_job input_params file_path filename st)).
Proof.
  remember (execute_tool_body input_params st) as r eqn:Hr.
  unfold execute_tool_body in Hr.
  destruct (ip_file input_params) as [file_info|] eqn:Hfile.
  2: { left. exists msg_no_file. exact Hr. }
  destruct (fi_file_path file_info) as [path|] eqn:Hpath.
  2: { right. left. exists (KeyError "file_path"). exact Hr. }
  destruct (fi_filename file_info) as [name|] eqn:Hname.
  2: { right. left. exists (KeyError "filename"). exact Hr. }
  cbv beta iota delta [bind getitem ret raise os_path_getsize get_world] in Hr.
  destruct (stat (fs (world st)) path) as [n|] eqn:Hstat.
  2: { right. left. exists (FileNotFoundError path). exact Hr. }
  cbv beta iota in Hr.
  destruct (st_size (world st) n >? size_limit) eqn:Hsize.
  { left. exists msg_too_large. exact Hr. }
  destruct (check_extension
              (default "video_to_images" (ip_conversion_type input_params)) name)
    as [msg|] eqn:Hext.
  { left. exists msg. exact Hr. }
  right. right. exists file_info, path, name, n.
  repeat split; try assumption; try reflexivity. lia.
Qed.

(** A submission that returns [False] has changed nothing but the error
    message: no job is stored, no token is drawn, the environment is as
    it was. *)
Theorem execute_tool_rejection_changes_nothing input_params st st' :
  execute_tool input_params st = (Return false, st') ->
  exists msg, st' = with_error msg st.
Proof.
  unfold execute_tool, try_except.
  destruct (execute_tool_body_cases input_params st)
    as [(msg & H) | [(e & H) | (fi & path & name & n & _ & _ & _ & _ & _ & _ & H)]];
    rewrite H.
  - intros [= <-]. exists msg. reflexivity.
  - intros [= <-]. eexists. reflexivity.
  - intros [=].
Qed.

Lemma execute_tool_rejection_changes_nothing_witness :
  exists msg,
    snd (execute_tool (Examples.mk_input "/up/notes.txt" "notes.txt" None)
           Examples.boundary_state)
    = with_error msg Examples.boundary_state.
Proof.
  apply (execute_tool_rejection_changes_nothing
           (Examples.mk_input "/up/notes.txt" "notes.txt" None)
           Examples.boundary_state).
  vm_compute. reflexivity.
Defined.

Lemma dict_get_set_ne {V} k k' (v : V) d :
  k' <> k -> dict_get k' (dict_set k v d) = dict_get k' d.
Proof.
  intros Hne. induction d as [|[k0 v0] r IH]; simpl.
  - destruct (String.eqb_spec k' k); [contradiction | reflexivity].
  - destruct (String.eqb_spec k k0) as [->|Hk]; simpl.
    + destruct (String.eqb_spec k' k0); [contradiction | reflexivity].
    + destruct (String.eqb_spec k' k0); [reflexivity | exact IH].
Qed.

(** A submission that returns [True] has stored exactly one job, under
    the token it drew: the job is not marked as downloaded and carries
    the time of the call; every other token maps to what it mapped to;
    the error message and the files are untouched. *)
Theorem execute_tool_acceptance_stores_one_job input_params st st' :
  execute_tool input_params st = (Return true, st') ->
  exists file_path filename,
    st' = with_job input_params file_path filename st /\
    dict_get (next_token st) (pending_conversions (self st'))
    = Some (job_of input_params file_path filename (clock (world st))) /\
    (forall token, token <> next_token st ->
       dict_get token (pending_conversions (self st'))
       = dict_get token (pending_conversions (self st))) /\
    error_message (self st') = error_message (self st) /\
    fs (world st') = fs (world st) /\
    uuid_drawn (world st') = S (uuid_drawn (world st)).
Proof.
  unfold execute_tool, try_except.
  destruct (execute_tool_body_cases input_params st)
    as [(msg & H) | [(e & H) | (fi & path & name & n & _ & _ & _ & _ & _ & _ & H)]];
    rewrite H.
  - intros [=].
  - intros [=].
  - intros [= <-]. exists path, name. split; [reflexivity |].
    simpl. split; [apply dict_get_set_eq |].
    split; [intros token Hne; apply dict_get_set_ne; exact Hne |].
    repeat split.
Qed.

Lemma execute_tool_acceptance_stores_one_job_witness :
  exists file_path filename,
    snd (execute_tool (Examples.mk_input "/up/exact.mp4" "exact.mp4" None)
           Examples.boundary_state)
    = with_job (Examples.mk_input "/up/exact.mp4" "exact.mp4" None)
        file_path filename Examples.boundary_state.
Proof.
  destruct (execute_tool_acceptance_stores_one_job
              (Examples.mk_input "/up/exact.mp4" "exact.mp4" None)
              Examples.boundary_state
              (snd (execute_tool (Examples.mk_input "/up/exact.mp4" "exact.mp4" None)
                      Examples.boundary_state)))
    as (path & name & Hst & _).
  - vm_compute. reflexivity.
  - exists path, name. exact Hst.
Defined.

(** A missing key is reported, not raised: without ["file"] the message
    asks for a file; without ["file_path"] or ["filename"] inside it the
    [KeyError] is caught and its key becomes part of the message.  This
    is decided before the file system is looked at. *)
Theorem execute_tool_missing_keys input_params st :
  (ip_file input_params = None ->
   execute_tool input_params st = (Return false, with_error msg_no_file st)) /\
  (forall file_info,
     ip_file input_params = Some file_info ->
     fi_file_path file_info = None ->
     execute_tool input_params st
     = (Return false,
        with_error "Fehler bei der Verarbeitung: 'file_path'" st)) /\
  (forall file_info file_path,
     ip_file input_params = Some file_info ->
     fi_file_path file_info = Some file_path ->
     fi_filename file_info = None ->
     execute_tool input_params st
     = (Return false,
        with_error "Fehler bei der Verarbeitung: 'filename'" st)).
Proof.
  unfold execute_tool, try_except, execute_tool_body. repeat apply conj.
  - intros ->. reflexivity.
  - intros file_info -> ->. reflexivity.
  - intros file_info path -> -> ->. reflexivity.
Qed.

Lemma execute_tool_missing_keys_witness :
  let no_file :=
    {| ip_file := None; ip_conversion_type := None; ip_fps := None;
       ip_quality := None; ip_image_format := None; ip_video_format := None |} in
  let no_path :=
    {| ip_file := Some {| fi_file_path := None; fi_filename := None |};
       ip_conversion_type := None; ip_fps := None;
       ip_quality := None; ip_image_format := None; ip_video_format := None |} in
  execute_tool no_file Examples.boundary_state
  = (Return false, with_error msg_no_file Examples.boundary_state) /\
  execute_tool no_path Examples.boundary_state
  = (Return false,
     with_error "Fehler bei der Verarbeitung: 'file_path'" Examples.boundary_state).
Proof.
  intros no_file no_path. split.
  - apply (proj1 (execute_tool_missing_keys no_file Examples.boundary_state)).
    reflexivity.
  - apply (proj1 (proj2 (execute_tool_missing_keys no_path Examples.boundary_state))
             {| fi_file_path := None; fi_filename := None |});
      reflexivity.
Defined.

(** ** Delivery, case by case *)

(** [convert_and_save] never raises: whatever exception the conversion
    ends in is caught, printed, and answered with [None]; the job store
    is as it was. *)
Theorem convert_and_save_never_raises token st :
  (exists result, fst (convert_and_save token st) = Return result) /\
  (forall conversion e st1,
     dict_get token (pending_conversions (self st)) = Some conversion ->
     downloaded conversion = false ->
     dispatch token conversion st = (Raise e, st1) ->
     convert_and_save token st
     = (Return None,
        with_printed ("Fehler bei der Konvertierung: " ++ str_exn e) st1) /\
     self st1 = self st).
Proof.
  split.
  - unfold convert_and_save, bind at 1, get_self. simpl.
    destruct (dict_get token (pending_conversions (self st))) as [conversion|];
      [| eexists; reflexivity].
    destruct (downloaded conversion); [eexists; reflexivity |].
    unfold try_except.
    destruct (dispatch token conversion st) as [[r|e] s1];
      eexists; reflexivity.
  - intros conversion e st1 Hget Hd Hraise. split.
    + rewrite (convert_and_save_pending _ _ _ Hget Hd).
      rewrite (try_except_catch _ _ _ _ _ Hraise). reflexivity.
    + apply (preserves_run _ _ _ _ _ (keeps_self_dispatch token conversion) Hraise).
Qed.

Lemma convert_and_save_never_raises_witness :
  let st := Examples.empty_archive_state in
  let job := Examples.mk_job "/up/frames.zip" "images_to_video" 0 false in
  let st1 := snd (dispatch "tok" job st) in
  convert_and_save "tok" st
  = (Return None,
     with_printed
       "Fehler bei der Konvertierung: Keine Bilddateien in der ZIP-Datei gefunden"
       st1) /\
  self st1 = self st.
Proof.
  intros st job st1.
  apply (proj2 (convert_and_save_never_raises "tok" st) job no_images_error st1);
    reflexivity.
Defined.

Lemma py_int_raise s st :
  int_of_str s = None ->
  py_int s st = (Raise (ValueError (int_failure s)), st).
Proof. unfold py_int. intros ->. reflexivity. Qed.

(** The frame rate is stored as it was submitted and only parsed by the
    conversion, first of all.  For a frame rate of ASCII characters that
    is not an integer literal, the conversion fails in either direction
    before the file system is touched: [convert_and_save] prints the
    [ValueError] of [int] and answers [None], and nothing else changes.
    The frame rate is taken in ASCII because [int] reads the digits of
    other scripts as well, which [int_of_str] does not. *)
Theorem conversion_rejects_bad_frame_rate token conversion st :
  is_ascii (fps conversion) = true ->
  int_of_str (fps conversion) = None ->
  dict_get token (pending_conversions (self st)) = Some conversion ->
  downloaded conversion = false ->
  convert_and_save token st
  = (Return None,
     with_printed
       ("Fehler bei der Konvertierung: " ++ int_failure (fps conversion)) st).
Proof.
  intros _ Hfps Hget Hd.
  rewrite (convert_and_save_pending _ _ _ Hget Hd).
  rewrite (try_except_catch _ _ _
             (ValueError (int_failure (fps conversion))) st);
    [reflexivity |].
  unfold dispatch.
  destruct (String.eqb (conversion_type conversion) "video_to_images");
    apply bind_raise.
  - unfold _video_to_images. apply bind_raise. apply py_int_raise. exact Hfps.
  - unfold _images_to_video. apply bind_raise. apply py_int_raise. exact Hfps.
Qed.

Lemma conversion_rejects_bad_frame_rate_witness :
  let st := Examples.frames_state_with "medium" "ten" in
  convert_and_save "tok" st
  = (Return None,
     with_printed
       "Fehler bei der Konvertierung: invalid literal for int() with base 10: 'ten'"
       st).
Proof.
  intros st.
  apply (conversion_rejects_bad_frame_rate "tok"
           (Examples.frames_job_with "medium" "ten") st);
    reflexivity.
Defined.

(** The quality is looked up only after the frames were extracted and
    re-encoded: for a quality other than low, medium and high,
    [_images_to_video] raises [KeyError] in the state the renaming loop
    left, so [ffmpeg] is not run and the scratch directory is not
    removed. *)
Theorem unknown_quality_fails_after_preparation token conversion st n dir st1 :
  int_of_str (fps conversion) = Some n ->
  prepare_frames token conversion st = (Return dir, st1) ->
  quality conversion <> "low" ->
  quality conversion <> "medium" ->
  quality conversion <> "high" ->
  _images_to_video token conversion st
  = (Raise (KeyError (quality conversion)), st1).
Proof.
  intros Hfps Hprep Hlow Hmedium Hhigh.
  unfold _images_to_video.
  rewrite (bind_run _ _ _ _ _ (py_int_run _ _ st Hfps)).
  rewrite (bind_run _ _ _ _ _ Hprep).
  rewrite (bind_run _ _ _ _ _ (get_temp_dir_run st1)).
  apply bind_raise. unfold quality_settings. simpl.
  destruct (String.eqb_spec (quality conversion) "low"); [contradiction |].
  destruct (String.eqb_spec (quality conversion) "medium"); [contradiction |].
  destruct (String.eqb_spec (quality conversion) "high"); [contradiction |].
  reflexivity.
Qed.

Lemma unknown_quality_fails_after_preparation_witness :
  let st := Examples.frames_state_with "ultra" "10" in
  let job := Examples.frames_job_with "ultra" "10" in
  let st1 := snd (prepare_frames "tok" job st) in
  _images_to_video "tok" job st = (Raise (KeyError "ultra"), st1) /\
  is_Some (fs (world st1) !! "/tmp/extracted_tok/frame_0000.png") /\
  fs (world st1) !! "/tmp/video_tok.mp4" = None.
Proof.
  intros st job st1. split; [| split].
  - apply (unknown_quality_fails_after_preparation "tok" job st 10
             "/tmp/extracted_tok" st1).
    + reflexivity.
    + vm_compute. reflexivity.
    + discriminate.
    + discriminate.
    + discriminate.
  - vm_compute. eexists. reflexivity.
  - vm_compute. reflexivity.
Defined.

(** ** More on garbage collection *)

#[global] Instance same_clock_preorder : PreOrder same_clock.
Proof.
  split.
  - intros st. reflexivity.
  - intros s1 s2 s3 H12 H23. unfold same_clock in *. congruence.
Qed.

Lemma same_clock_put_fs f : preserves same_clock (put_fs f).
Proof. intros st. reflexivity. Qed.

Lemma same_clock_print msg : preserves same_clock (print msg).
Proof. intros st. reflexivity. Qed.

#[global] Hint Resolve same_clock_put_fs same_clock_print : keeps.

Lemma same_clock_os_remove p : preserves same_clock (os_remove p).
Proof. unfold os_remove. keeps. Qed.

#[global] Hint Resolve same_clock_os_remove : keeps.

Lemma same_clock_cleanup_scan now items tokens :
  preserves same_clock (cleanup_scan now items tokens).
Proof.
  revert tokens. induction items as [|[token conversion] rest IH];
    intros tokens; simpl; unfold delete_files, remove_if_exists, cleanup_failed;
    keeps.
Qed.

(** Without a stale entry the first loop does nothing. *)
Lemma cleanup_scan_nothing_stale now items tokens st :
  List.filter (stale now) items = [] ->
  cleanup_scan now items tokens st = (Return tokens, st).
Proof.
  revert tokens. induction items as [|[token conversion] rest IH];
    intros tokens Hnone; simpl.
  - reflexivity.
  - simpl in Hnone. unfold stale at 1 in Hnone. simpl in Hnone.
    destruct (removable now conversion); [discriminate Hnone |].
    apply IH. exact Hnone.
Qed.

Lemma filter_stale_twice now (items : dict Conversion) :
  List.filter (stale now)
    (List.filter (fun item => negb (stale now item)) items) = [].
Proof.
  induction items as [|item rest IH]; simpl; [reflexivity |].
  destruct (stale now item) eqn:Hs; simpl; [exact IH |].
  rewrite Hs. exact IH.
Qed.

Lemma state_eta st :
  {| self :=
       set_pending_conversions (pending_conversions (self st)) (self st);
     world := world st |} = st.
Proof. destruct st as [[] ?]. reflexivity. Qed.

(** A sweep over a store without stale entries changes nothing at all;
    hence a second sweep at the same time changes nothing: sweeping is
    idempotent. *)
Theorem cleanup_old_files_idempotent st :
  (List.filter (stale (clock (world st))) (pending_conversions (self st)) = [] ->
   cleanup_old_files st = (Return tt, st)) /\
  (dict_wf (pending_conversions (self st)) ->
   let st' := snd (cleanup_old_files st) in
   cleanup_old_files st' = (Return tt, st')).
Proof.
  assert (forall s,
            List.filter (stale (clock (world s))) (pending_conversions (self s)) = [] ->
            cleanup_old_files s = (Return tt, s)) as Hquiet.
  { intros s Hnone. rewrite cleanup_old_files_run. rewrite Hnone. simpl.
    rewrite (cleanup_scan_nothing_stale _ _ _ _ Hnone). simpl.
    rewrite state_eta. reflexivity. }
  split; [apply Hquiet |].
  intros Hwf st'. apply Hquiet. subst st'.
  rewrite (cleanup_old_files_pending _ Hwf).
  rewrite cleanup_old_files_run. simpl.
  pose proof (same_clock_cleanup_scan (clock (world st))
                (pending_conversions (self st)) [] st) as Hclock.
  unfold same_clock in Hclock. rewrite Hclock.
  apply filter_stale_twice.
Qed.

Lemma cleanup_old_files_idempotent_witness :
  cleanup_old_files Examples.video_job_state
  = (Return tt, Examples.video_job_state) /\
  let st' := snd (cleanup_old_files (Examples.sweep_state (minutes 61))) in
  cleanup_old_files st' = (Return tt, st').
Proof.
  split.
  - apply (proj1 (cleanup_old_files_idempotent Examples.video_job_state)).
    reflexivity.
  - apply (proj2 (cleanup_old_files_idempotent
                    (Examples.sweep_state (minutes 61)))).
    reflexivity.
Defined.

(** [remove_if_exists path] changes no path but [path], which it leaves
    as it was or empty. *)
Lemma remove_if_exists_touches path st p :
  let st' := snd (remove_if_exists path st) in
  fs (world st') !! p = fs (world st) !! p \/
  (fs (world st') !! p = None /\ p = path).
Proof.
  unfold remove_if_exists, os_path_exists, os_remove, is_locked.
  unfold bind, get_fs, get_world, ret. simpl.
  destruct (stat (fs (world st)) path) as [[|d]|] eqn:Hstat; simpl;
    rewrite ?Hstat; simpl; try (left; reflexivity).
  destruct (bool_decide (path ∈ locked (world st))); simpl;
    [left; reflexivity |].
  destruct (decide (path = p)) as [<-|Hne].
  - right. split; [apply lookup_delete_eq | reflexivity].
  - left. apply lookup_delete_ne. exact Hne.
Qed.

(** The guarded clean-up of one entry changes no path but the upload and
    the artifact of that entry. *)
Lemma delete_files_touches token conversion st p :
  let st' := snd (try_except (delete_files token conversion) cleanup_failed st) in
  fs (world st') !! p = fs (world st) !! p \/
  (fs (world st') !! p = None /\
   (p = file_path conversion \/
    p = artifact_path (temp_dir (self st)) token conversion)).
Proof.
  intros st'.
  assert (forall o s, fs (world (snd (match o with
                                      | Return a => (Return a, s)
                                      | Raise e => cleanup_failed e s
                                      end : outcome unit * State)))
                      = fs (world s)) as Hhandler.
  { intros [a|e] s; reflexivity. }
  subst st'. unfold try_except.
  rewrite delete_files_artifact.
  destruct ((remove_if_exists (file_path conversion);;;
             temp_dir <- get_temp_dir;;
             remove_if_exists (artifact_path temp_dir token conversion)) st)
    as [o s2] eqn:Hrun.
  rewrite Hhandler.
  pose proof (remove_if_exists_touches (file_path conversion) st p) as H1.
  pose proof (keeps_self_remove_if_exists (file_path conversion) st) as Hs1.
  unfold bind at 1 in Hrun.
  destruct (remove_if_exists (file_path conversion) st) as [[[]|e1] s1];
    simpl in H1, Hs1.
  - rewrite (bind_run _ _ _ _ _ (get_temp_dir_run s1)) in Hrun.
    pose proof (remove_if_exists_touches
                  (artifact_path (temp_dir (self s1)) token conversion) s1 p) as H2.
    rewrite Hrun in H2. simpl in H2. unfold same_self in Hs1. rewrite Hs1 in H2.
    destruct H2 as [H2 | [H2 ->]].
    + rewrite H2. destruct H1 as [H1 | [H1 ->]]; [left; exact H1 |].
      right. split; [exact H1 | now left].
    + right. split; [exact H2 | now right].
  - injection Hrun as <- <-.
    destruct H1 as [H1 | [H1 ->]]; [left; exact H1 |].
    right. split; [exact H1 | now left].
Qed.

Lemma keeps_self_guarded_delete token conversion :
  preserves same_self (try_except (delete_files token conversion) cleanup_failed).
Proof. unfold delete_files, cleanup_failed. keeps. Qed.

Lemma cleanup_scan_touches now items tokens st p :
  let st' := snd (cleanup_scan now items tokens st) in
  fs (world st') !! p = fs (world st) !! p \/
  (fs (world st') !! p = None /\
   exists token conversion,
     In (token, conversion) items /\
     removable now conversion = true /\
     (p = file_path conversion \/
      p = artifact_path (temp_dir (self st)) token conversion)).
Proof.
  revert tokens st. induction items as [|[token conversion] rest IH];
    intros tokens st; simpl.
  - left. reflexivity.
  - destruct (removable now conversion) eqn:Hstale.
    + pose proof (delete_files_touches token conversion st p) as H1.
      pose proof (delete_files_guarded token conversion st) as Hg.
      pose proof (keeps_self_guarded_delete token conversion st) as Hself.
      destruct (try_except (delete_files token conversion) cleanup_failed st)
        as [[[]|e] s1] eqn:Hrun; simpl in H1, Hg, Hself; [| discriminate Hg].
      rewrite (bind_run _ _ _ _ _ Hrun).
      unfold same_self in Hself.
      destruct (IH (tokens ++ [token])%list s1) as [H2 | (H2 & t & c & Hin & Hc & Hp)].
      * rewrite H2. destruct H1 as [H1 | [H1 Hp]]; [left; exact H1 |].
        right. split; [exact H1 |].
        exists token, conversion. split; [now left | split; assumption].
      * right. split; [exact H2 |].
        exists t, c. rewrite Hself in Hp.
        split; [now right | split; assumption].
    + destruct (IH tokens st) as [H2 | (H2 & t & c & Hin & Hc & Hp)].
      * left. exact H2.
      * right. split; [exact H2 |].
        exists t, c. split; [now right | split; assumption].
Qed.

(** The sweep never creates or changes a file, and the only files it
    deletes are the upload and the artifact of an entry it removes: every
    other path holds what it held.  The temporary directory, the locks
    and the clock are as before. *)
Theorem cleanup_old_files_deletes_only_stale_files st p :
  let now := clock (world st) in
  let st' := snd (cleanup_old_files st) in
  (fs (world st') !! p = fs (world st) !! p \/
   (fs (world st') !! p = None /\
    exists token conversion,
      In (token, conversion) (pending_conversions (self st)) /\
      removable now conversion = true /\
      (p = file_path conversion \/
       p = artifact_path (temp_dir (self st)) token conversion))) /\
  temp_dir (self st') = temp_dir (self st) /\
  locked (world st') = locked (world st) /\
  clock (world st') = clock (world st).
Proof.
  intros now st'. subst st'. rewrite cleanup_old_files_run. simpl.
  split; [apply cleanup_scan_touches |].
  destruct (only_deletes_cleanup_scan now (pending_conversions (self st)) [] st)
    as (_ & Hlocked & _).
  split; [reflexivity |]. split; [exact Hlocked |].
  apply same_clock_cleanup_scan.
Qed.

(** The age limit is strict: an unmarked job that is exactly one hour old
    is kept, and one microsecond later it is removed. *)
Theorem cleanup_old_files_one_hour_boundary st token conversion :
  dict_wf (pending_conversions (self st)) ->
  dict_get token (pending_conversions (self st)) = Some conversion ->
  downloaded conversion = false ->
  let st' := snd (cleanup_old_files st) in
  (clock (world st) = timestamp conversion + minutes 60 ->
   dict_get token (pending_conversions (self st')) = Some conversion) /\
  (clock (world st) = timestamp conversion + minutes 60 + 1 ->
   dict_get token (pending_conversions (self st')) = None).
Proof.
  intros Hwf Hget Hd st'. subst st'.
  rewrite (cleanup_old_files_lookup _ _ _ Hwf Hget).
  unfold removable, one_hour, minutes. rewrite Hd.
  split; intros ->.
  - replace (timestamp conversion + 60 * 60 * 1000000 - timestamp conversion)
      with (60 * 60 * 1000000) by lia.
    reflexivity.
  - replace (timestamp conversion + 60 * 60 * 1000000 + 1 - timestamp conversion)
      with (60 * 60 * 1000000 + 1) by lia.
    reflexivity.
Qed.

Lemma cleanup_old_files_one_hour_boundary_witness :
  dict_get "fresh"
    (pending_conversions
       (self (snd (cleanup_old_files (Examples.sweep_state (minutes 60))))))
  = Some (Examples.mk_job "/up/clip.mp4" "video_to_images" 0 false) /\
  dict_get "fresh"
    (pending_conversions
       (self (snd (cleanup_old_files (Examples.sweep_state (minutes 60 + 1))))))
  = None.
Proof.
  split.
  - apply (proj1 (cleanup_old_files_one_hour_boundary
                    (Examples.sweep_state (minutes 60)) "fresh"
                    (Examples.mk_job "/up/clip.mp4" "video_to_images" 0 false)
                    eq_refl eq_refl eq_refl)).
    reflexivity.
  - apply (proj2 (cleanup_old_files_one_hour_boundary
                    (Examples.sweep_state (minutes 60 + 1)) "fresh"
                    (Examples.mk_job "/up/clip.mp4" "video_to_images" 0 false)
                    eq_refl eq_refl eq_refl)).
    reflexivity.
Defined.

(** The path [convert_and_save] delivers is the path the sweep computes
    for the job: once the job is stale, a sweep in a state with the same
    tool attributes removes the job, its upload and the delivered
    artifact, provided the two files can be deleted. *)
Theorem delivered_artifact_is_swept token st path st1 :
  convert_and_save token st = (Return (Some path), st1) ->
  exists job,
    dict_get token (pending_conversions (self st)) = Some job /\
    forall st2,
      self st2 = self st ->
      dict_wf (pending_conversions (self st)) ->
      removable (clock (world st2)) job = true ->
      deletable st2 (file_path job) ->
      deletable st2 path ->
      let st3 := snd (cleanup_old_files st2) in
      dict_get token (pending_conversions (self st3)) = None /\
      stat (fs (world st3)) (file_path job) = None /\
      stat (fs (world st3)) path = None.
Proof.
  intros Hsave.
  apply convert_and_save_returns in Hsave as (job & Hget & ->).
  exists job. split; [exact Hget |].
  intros st2 Hself Hwf Hstale Hsrc Hart st3. subst st3.
  rewrite <- Hself in Hget, Hwf, Hart |- *.
  split.
  - rewrite (cleanup_old_files_lookup _ _ _ Hwf Hget). rewrite Hstale. reflexivity.
  - rewrite cleanup_old_files_run. simpl.
    apply cleanup_scan_deletes; try assumption.
    apply dict_get_In. exact Hget.
Qed.

Lemma delivered_artifact_is_swept_witness :
  let st3 := snd (cleanup_old_files Examples.expired_video_state) in
  dict_get "tok" (pending_conversions (self st3)) = None /\
  stat (fs (world st3)) "/up/clip.mp4" = None /\
  stat (fs (world st3)) "/tmp/images_tok.zip" = None.
Proof.
  destruct (delivered_artifact_is_swept "tok" Examples.video_job_state
              "/tmp/images_tok.zip"
              (snd (convert_and_save "tok" Examples.video_job_state)))
    as (job & Hget & Hsweep).
  - vm_compute. reflexivity.
  - simpl in Hget. injection Hget as <-.
    apply (Hsweep Examples.expired_video_state).
    + reflexivity.
    + reflexivity.
    + reflexivity.
    + split; [decide_by_computing | vm_compute; discriminate].
    + split; [decide_by_computing | vm_compute; discriminate].
Defined.

(** ** Sorting, and the names that are extracted *)

Lemma str_le_cases a b :
  str_le a b <-> a = b \/ OrderedTypeEx.String_as_OT.lt a b.
Proof.
  unfold str_le, String.leb.
  pose proof (OrderedTypeEx.String_as_OT.cmp_eq a b) as Heq.
  pose proof (OrderedTypeEx.String_as_OT.cmp_lt a b) as Hlt.
  unfold OrderedTypeEx.String_as_OT.cmp in *.
  destruct (String.compare a b) eqn:Hc; split; intros H.
  - left. apply Heq. reflexivity.
  - reflexivity.
  - right. apply Hlt. reflexivity.
  - reflexivity.
  - discriminate H.
  - destruct H as [H | H].
    + apply Heq in H. discriminate H.
    + apply Hlt in H. discriminate H.
Qed.

#[global] Instance str_le_trans : Transitive str_le.
Proof.
  intros a b c Hab Hbc. apply str_le_cases in Hab, Hbc. apply str_le_cases.
  destruct Hab as [-> | Hab]; [exact Hbc |].
  destruct Hbc as [<- | Hbc]; [right; exact Hab |].
  right. eapply OrderedTypeEx.String_as_OT.lt_trans; eassumption.
Qed.

#[global] Instance str_le_antisym : AntiSymm eq str_le.
Proof. intros a b Hab Hba. apply String.leb_antisym; assumption. Qed.

(** The names the extraction loop returns are the names with an image
    extension, in the order of the archive. *)
Lemma extract_images_names filelist dir st names st' :
  extract_images filelist dir st = (Return names, st') ->
  names = map fst (List.filter (fun member => _is_image_file (fst member)) filelist).
Proof.
  revert st names st'.
  induction filelist as [|member rest IH]; intros st names st'; simpl.
  - intros [= <- _]. reflexivity.
  - destruct (_is_image_file (fst member)); simpl.
    + intros H. step_in H u s1 H1. step_in H rest_names s2 H2.
      apply ret_inv in H as [-> _]. f_equal. eapply IH. exact H2.
    + apply IH.
Qed.

(** ** A frame that is overwritten

    The renaming loop writes the canonical names into the directory the
    archive was extracted to.  When the archive itself holds a member
    named [frame_0000.png] and another member that sorts before it, the
    first turn of the loop saves the other picture over it, and the
    second turn moves that copy on to [frame_0001.png]: whatever the two
    pictures are, the video that is delivered has one frame, made from
    the other picture, and the picture of [frame_0000.png] is in none. *)
Theorem canonical_name_in_archive_is_overwritten a b :
  let st := Examples.overwritten_frame_state a b in
  let prepared := prepare_frames "tok" Examples.frames_job st in
  let delivered := convert_and_save "tok" st in
  let moved :=
    canonical_picture (img_size a) (saved_image (img_size a) a) in
  list_sort ["0.png"; "frame_0000.png"] = ["0.png"; "frame_0000.png"] /\
  fst prepared = Return "/tmp/extracted_tok" /\
  fs (world (snd prepared)) !! "/tmp/extracted_tok/frame_0000.png" = None /\
  fs (world (snd prepared)) !! "/tmp/extracted_tok/frame_0001.png"
  = Some (File moved) /\
  fst delivered = Return (Some "/tmp/video_tok.mp4") /\
  fs (world (snd delivered)) !! "/tmp/video_tok.mp4"
  = Some (File (Zip [("frame", moved)])).
Proof.
  destruct a as [fa [wa ha] ma pa], b as [fb [wb hb] mb pb].
  vm_compute. repeat split.
Qed.

Lemma execute_tool_returns input_params st :
  exists b, fst (execute_tool input_params st) = Return b.
Proof.
  unfold execute_tool, try_except.
  destruct (execute_tool_body input_params st) as [[b|e] st1];
    eexists; reflexivity.
Qed.

Lemma execute_tool_rejection_cases input_params st st' :
  execute_tool input_params st = (Return false, st') ->
  exists msg, st' = with_error msg st.
Proof.
  unfold execute_tool, try_except.
  destruct (execute_tool_body_cases input_params st)
    as [(msg & H) | [(e & H) | (fi & path & name & n & _ & _ & _ & _ & _ & _ & H)]];
    rewrite H.
  - intros [= <-]. exists msg. reflexivity.
  - intros [= <-]. eexists. reflexivity.
  - intros [=].
Qed.

Lemma execute_tool_acceptance_cases input_params st st' :
  execute_tool input_params st = (Return true, st') ->
  exists file_path filename, st' = with_job input_params file_path filename st.
Proof.
  unfold execute_tool, try_except.
  destruct (execute_tool_body_cases input_params st)
    as [(msg & H) | [(e & H) | (fi & path & name & n & _ & _ & _ & _ & _ & _ & H)]];
    rewrite H.
  - intros [=].
  - intros [=].
  - intros [= <-]. exists path, name. reflexivity.
Qed.

(** ** What the class never does: mark a job *)

#[global] Instance keeps_unmarked_preorder : PreOrder keeps_unmarked.
Proof.
  split.
  - intros st H. exact H.
  - intros s1 s2 s3 H12 H23 H. apply H23, H12, H.
Qed.

Lemma dict_set_In {V} k (v : V) d k' v' :
  In (k', v') (dict_set k v d) -> (k', v') = (k, v) \/ In (k', v') d.
Proof.
  induction d as [|[k0 v0] r IH]; simpl.
  - intros [H|[]]. left. symmetry. exact H.
  - destruct (String.eqb k k0); simpl.
    + intros [H|H]; [left; symmetry; exact H | right; now right].
    + intros [H|H]; [right; now left |].
      destruct (IH H) as [Heq|Hin]; [now left | right; now right].
Qed.

Lemma dict_pop_In {V} k (d : dict V) k' v' :
  In (k', v') (dict_pop k d) -> In (k', v') d.
Proof.
  induction d as [|[k0 v0] r IH]; simpl; [tauto |].
  destruct (String.eqb k k0); simpl.
  - intros H. now right.
  - intros [H|H]; [now left | right; apply IH; exact H].
Qed.

Lemma keeps_unmarked_same_self {A} (m : M A) :
  preserves same_self m -> preserves keeps_unmarked m.
Proof. intros Hm st H. rewrite (Hm st). exact H. Qed.

Lemma keeps_unmarked_pop_token token : preserves keeps_unmarked (pop_token token).
Proof.
  intros st H token' conversion Hin. simpl in Hin.
  apply dict_pop_In in Hin. eapply H. exact Hin.
Qed.

Lemma keeps_unmarked_execute_tool input_params :
  preserves keeps_unmarked (execute_tool input_params).
Proof.
  intros st H.
  destruct (execute_tool input_params st) as [[[]|e] st'] eqn:Hrun; simpl.
  - apply execute_tool_acceptance_cases in Hrun as (path & name & ->).
    intros token conversion Hin. simpl in Hin.
    apply dict_set_In in Hin as [[= _ ->] | Hin]; [reflexivity |].
    eapply H. exact Hin.
  - apply execute_tool_rejection_cases in Hrun as (msg & ->). exact H.
  - pose proof (execute_tool_returns input_params st) as [b Hb].
    rewrite Hrun in Hb. discriminate Hb.
Qed.

Lemma keeps_unmarked_cleanup_old_files : preserves keeps_unmarked cleanup_old_files.
Proof.
  unfold cleanup_old_files.
  apply preserves_bind; [exact _ | auto with keeps | intros now].
  apply preserves_bind; [exact _ | auto with keeps | intros t].
  apply preserves_bind; [exact _ | | intros tokens].
  - apply keeps_unmarked_same_self. intros st.
    destruct (only_deletes_cleanup_scan now (pending_conversions t) [] st)
      as (Hself & _).
    exact Hself.
  - apply preserves_for_each; [exact _ |]. apply keeps_unmarked_pop_token.
Qed.

Lemma reachable_invariant st :
  reachable st ->
  dict_wf (pending_conversions (self st)) /\
  all_unmarked (pending_conversions (self st)).
Proof.
  induction 1 as [tmp base w | ip st _ [Hwf Hun] | token st _ [Hwf Hun]
                  | st _ [Hwf Hun] | w st _ [Hwf Hun]].
  - split; [reflexivity | intros token conversion []].
  - split; [apply execute_tool_keeps_wf | apply keeps_unmarked_execute_tool];
      assumption.
  - split; [apply convert_and_save_keeps_wf |
            apply (keeps_unmarked_same_self _ (keeps_self_convert_and_save token))];
      assumption.
  - split; [apply cleanup_old_files_keeps_wf | apply keeps_unmarked_cleanup_old_files];
      assumption.
  - split; assumption.
Qed.

(** No method of the class marks a job as downloaded.  In every state
    reached from a fresh tool through [execute_tool], [convert_and_save]
    and [cleanup_old_files] alone, the tokens of the store are unique
    and every job has [downloaded = False]; so [convert_and_save] runs
    the conversion for every token of the store, and the sweep removes
    exactly the jobs older than one hour. *)
Theorem class_never_marks_a_job st :
  reachable st ->
  dict_wf (pending_conversions (self st)) /\
  (forall token conversion,
     dict_get token (pending_conversions (self st)) = Some conversion ->
     downloaded conversion = false /\
     convert_and_save token st
     = try_except (dispatch token conversion) conversion_failed st) /\
  pending_conversions (self (snd (cleanup_old_files st)))
  = List.filter
      (fun item => negb (clock (world st) - timestamp (snd item) >? minutes 60))
      (pending_conversions (self st)).
Proof.
  intros Hreach. destruct (reachable_invariant st Hreach) as [Hwf Hun].
  split; [exact Hwf |]. split.
  - intros token conversion Hget.
    assert (downloaded conversion = false) as Hd
      by (eapply Hun; apply dict_get_In; exact Hget).
    split; [exact Hd |]. apply convert_and_save_pending; assumption.
  - rewrite (cleanup_old_files_pending _ Hwf).
    revert Hun. generalize (pending_conversions (self st)) as d.
    induction d as [|[token conversion] rest IH]; intros Hun; [reflexivity |].
    simpl. unfold stale at 1. unfold removable. simpl.
    rewrite (Hun token conversion) by (now left).
    rewrite orb_false_r.
    rewrite IH by (intros t c Hin; eapply Hun; right; exact Hin).
    reflexivity.
Qed.

Lemma class_never_marks_a_job_witness :
  let fresh :=
    {| self := init_tool "/tmp" (self Examples.boundary_state);
       world := world Examples.boundary_state |} in
  let submitted :=
    snd (execute_tool (Examples.mk_input "/up/exact.mp4" "exact.mp4" None) fresh) in
  let delivered := snd (convert_and_save "token-0" submitted) in
  dict_wf (pending_conversions (self delivered)) /\
  (forall token conversion,
     dict_get token (pending_conversions (self delivered)) = Some conversion ->
     downloaded conversion = false /\
     convert_and_save token delivered
     = try_except (dispatch token conversion) conversion_failed delivered).
Proof.
  intros fresh submitted delivered.
  assert (reachable delivered) as Hreach.
  { apply reach_convert_and_save, reach_execute_tool, reach_init. }
  destruct (class_never_marks_a_job delivered Hreach) as (Hwf & Hjobs & _).
  split; assumption.
Defined.

(** ** What a successful conversion leaves behind *)

Lemma app_assoc_str a b c : (a ++ b) ++ c = a ++ (b ++ c).
Proof.
  induction a as [|x a IH]; [reflexivity |].
  change (String x ((a ++ b) ++ c) = String x (a ++ (b ++ c))).
  rewrite IH. reflexivity.
Qed.

Lemma strip_prefix_spec p s r : strip_prefix p s = Some r -> s = p ++ r.
Proof.
  revert s. induction p as [|a p IH]; intros s; simpl.
  - intros [= ->]. reflexivity.
  - destruct s as [|b s]; [discriminate |].
    destruct (Ascii.eqb_spec a b) as [->|]; [| discriminate].
    intros H. apply IH in H. subst s. reflexivity.
Qed.

Lemma no_slash_not_absolute name :
  str_contains_char "/" name = false -> str_startswith name "/" = false.
Proof.
  destruct name as [|c r]; [reflexivity |].
  unfold str_startswith.
  destruct c as [[] [] [] [] [] [] [] []]; simpl; intros H;
    try reflexivity; discriminate H.
Qed.

(** The names [os.listdir] returns are the non-empty, slash-free names
    under which the directory has an entry. *)
Lemma children_spec f p name :
  In name (children f p) ->
  name <> "" /\ str_contains_char "/" name = false /\
  exists n, f !! (dir_prefix p ++ name) = Some n.
Proof.
  unfold children. rewrite <- list_elem_of_In, list_elem_of_omap.
  intros ([k n] & Hin & Hname). apply elem_of_map_to_list in Hin.
  destruct (strip_prefix (dir_prefix p) k) as [r|] eqn:Hstrip; [| discriminate].
  apply strip_prefix_spec in Hstrip. subst k.
  destruct (String.eqb_spec r "") as [->|Hne]; [discriminate |]. simpl in Hname.
  destruct (str_contains_char "/" r) eqn:Hslash; [discriminate |].
  injection Hname as <-. split; [exact Hne |]. split; [exact Hslash |].
  exists n. exact Hin.
Qed.

(** The path of a listed name. *)
Lemma os_path_join_child dir name :
  dir <> "" -> str_contains_char "/" name = false ->
  os_path_join dir name = dir_prefix dir ++ name.
Proof.
  intros Hdir Hslash. unfold os_path_join, dir_prefix.
  rewrite (no_slash_not_absolute _ Hslash).
  destruct (String.eqb_spec dir ""); [contradiction |]. simpl.
  destruct (str_endswith dir "/"); [reflexivity |].
  rewrite app_assoc_str. reflexivity.
Qed.

(** Joining onto a directory puts one fixed prefix before every relative
    name. *)
Lemma os_path_join_base dir :
  exists base,
    forall name, str_startswith name "/" = false -> os_path_join dir name = base ++ name.
Proof.
  unfold os_path_join.
  destruct (String.eqb dir "" || str_endswith dir "/")%bool eqn:Hplain.
  - exists dir. intros name ->. reflexivity.
  - exists (dir ++ "/"). intros name ->. rewrite app_assoc_str. reflexivity.
Qed.

Lemma os_rmdir_inv p st st' :
  os_rmdir p st = (Return tt, st') ->
  fs (world st') = delete p (fs (world st)).
Proof.
  unfold os_rmdir, bind, get_fs, get_world, is_locked, ret. simpl.
  destruct (stat (fs (world st)) p) as [[|d]|]; try (intros [=]; fail).
  destruct (children (fs (world st)) p); [| intros [=]].
  destruct (bool_decide (p ∈ locked (world st))); intros [=]. subst. reflexivity.
Qed.

(** A loop of [os.remove] that returns has left alone every path it was
    not called on. *)
Lemma remove_loop_frame (path_of : string -> string) listing st st' q :
  for_each listing (fun name => os_remove (path_of name)) st = (Return tt, st') ->
  (forall name, In name listing -> path_of name <> q) ->
  fs (world st') !! q = fs (world st) !! q.
Proof.
  revert st. induction listing as [|name rest IH]; intros st; simpl.
  - intros [= <-] _. reflexivity.
  - intros H Hne. step_in H u s1 H1. destruct u.
    apply os_remove_inv in H1.
    rewrite (IH s1 H) by (intros n Hin; apply Hne; now right).
    rewrite H1. apply lookup_delete_ne. apply Hne. now left.
Qed.

Lemma ffmpeg_run_x264_inv pattern framerate args output_path st st' :
  ffmpeg_run_x264 pattern framerate args output_path st = (Return tt, st') ->
  exists video,
    image2_sequence (fs (world st)) pattern <> [] /\
    ffmpeg_encode (world st) (image2_sequence (fs (world st)) pattern)
      framerate args output_path = Some video /\
    fs (world st') = <[output_path := File video]> (fs (world st)).
Proof.
  unfold ffmpeg_run_x264, bind at 1, get_world. simpl.
  destruct (image2_sequence (fs (world st)) pattern) as [|frame frames] eqn:Hseq;
    [intros [=] |].
  destruct (ffmpeg_encode (world st) (frame :: frames) framerate args output_path)
    as [video|] eqn:Henc; [| intros [=]].
  unfold try_except.
  destruct (fs_write output_path video st) as [[[]|e] s1] eqn:Hwrite;
    [| intros [=]].
  intros [= <-]. apply fs_write_inv in Hwrite as [_ Hfs].
  exists video. split; [discriminate |]. split; [reflexivity | exact Hfs].
Qed.

Lemma same_engine_fs_write p d : preserves same_engine (fs_write p d).
Proof. unfold fs_write. keeps. Qed.

Lemma same_engine_os_remove p : preserves same_engine (os_remove p).
Proof. unfold os_remove. keeps. Qed.

#[global] Hint Resolve same_engine_fs_write same_engine_os_remove
  same_engine_os_makedirs : keeps.

Lemma same_engine_zip_extract member path :
  preserves same_engine (zip_extract member path).
Proof. unfold zip_extract. keeps. Qed.

#[global] Hint Resolve same_engine_zip_extract : keeps.

Lemma same_engine_extract_images filelist dir :
  preserves same_engine (extract_images filelist dir).
Proof. induction filelist as [|m r IH]; simpl; keeps. Qed.

Lemma same_engine_canonical_frame dir size entry :
  preserves same_engine (canonical_frame dir size entry).
Proof. unfold canonical_frame, img_save. keeps. Qed.

#[global] Hint Resolve same_engine_extract_images
  same_engine_canonical_frame : keeps.

Lemma same_engine_prepare_frames token conversion :
  preserves same_engine (prepare_frames token conversion).
Proof. unfold prepare_frames. keeps. Qed.

Lemma prepare_frames_returns token conversion st dir st' :
  prepare_frames token conversion st = (Return dir, st') ->
  dir = os_path_join (temp_dir (self st)) ("extracted_" ++ token).
Proof.
  intros H. unfold prepare_frames in H.
  step_in H d s1 H1. apply get_temp_dir_inv in H1 as [-> ->].
  step_in H u s2 H2. step_in H filelist s3 H3. step_in H names s4 H4.
  destruct names as [|name names]; [discriminate H |].
  step_in H img s5 H5. step_in H u6 s6 H6.
  apply ret_inv in H as [-> _]. reflexivity.
Qed.

Lemma os_listdir_inv p st listing st' :
  os_listdir p st = (Return listing, st') ->
  listing = children (fs (world st)) p /\ st' = st.
Proof.
  unfold os_listdir, bind, get_fs, get_world, ret. simpl.
  destruct (stat (fs (world st)) p) as [[|d]|]; intros [=]. subst.
  split; reflexivity.
Qed.

Lemma getitem_inv {A} key (v : option A) a st st' :
  getitem key v st = (Return a, st') -> v = Some a /\ st' = st.
Proof. destruct v; intros [=]. subst. split; reflexivity. Qed.

(** The scratch directory of a job and the artifacts are different
    paths, and so is every entry of the scratch directory. *)
Lemma scratch_is_not_the_video tmp token format :
  let dir := os_path_join tmp ("extracted_" ++ token) in
  let output_path := os_path_join tmp ("video_" ++ token ++ "." ++ format) in
  dir <> "" /\ dir <> output_path /\
  forall name,
    str_contains_char "/" name = false -> os_path_join dir name <> output_path.
Proof.
  intros dir output_path. subst dir output_path.
  destruct (os_path_join_base tmp) as [base Hbase].
  rewrite !Hbase by reflexivity.
  assert (base ++ "extracted_" ++ token <> "") as Hne.
  { intros H. apply (f_equal String.length) in H.
    rewrite app_length_str in H. simpl in H. lia. }
  split; [exact Hne |]. split.
  - intros H. apply String.app_inj in H. vm_compute in H. discriminate H.
  - intros name Hslash. rewrite (os_path_join_child _ _ Hne Hslash).
    unfold dir_prefix.
    destruct (str_endswith (base ++ "extracted_" ++ token) "/");
      rewrite ?app_assoc_str; intros H; apply String.app_inj in H;
      vm_compute in H; discriminate H.
Qed.

(** A successful [_images_to_video]: the frame rate was an integer, the
    quality one of the table; [ffmpeg] encoded a non-empty frame sequence
    with libx264, yuv420p and the crf and preset of that quality; the
    video is at the returned path, and the scratch directory is gone. *)
Theorem images_to_video_success token conversion st path st' :
  _images_to_video token conversion st = (Return path, st') ->
  exists n crf preset frames video,
    int_of_str (fps conversion) = Some n /\
    dict_get (quality conversion) quality_settings = Some (crf, preset) /\
    frames <> [] /\
    ffmpeg_encode (world st) frames n
      {| vcodec := "libx264"; pix_fmt := "yuv420p"; crf := crf; preset := preset |}
      path = Some video /\
    fs (world st') !! path = Some (File video) /\
    fs (world st') !! os_path_join (temp_dir (self st)) ("extracted_" ++ token)
    = None.
Proof.
  intros H. unfold _images_to_video in H.
  step_in H n s1 H1. apply py_int_inv in H1 as [Hn ->].
  step_in H dir s2 H2.
  pose proof (prepare_frames_returns _ _ _ _ _ H2) as Hdir.
  pose proof (preserves_run _ _ _ _ _ (keeps_self_prepare_frames _ _) H2) as Hself.
  pose proof (preserves_run _ _ _ _ _ (same_engine_prepare_frames _ _) H2)
    as (_ & _ & Hengine).
  unfold same_self in Hself.
  step_in H d3 s3 H3. apply get_temp_dir_inv in H3 as [-> ->].
  step_in H settings s4 H4. apply getitem_inv in H4 as [Hq ->].
  step_in H u5 s5 H5. destruct u5.
  apply ffmpeg_run_x264_inv in H5 as (video & Hframes & Henc & Hfs5).
  step_in H listing s6 H6. apply os_listdir_inv in H6 as [-> ->].
  step_in H u7 s7 H7. destruct u7.
  step_in H u8 s8 H8. destruct u8. apply os_rmdir_inv in H8.
  apply ret_inv in H as [-> ->].
  destruct settings as [crf preset].
  rewrite Hself in *. subst dir.
  destruct (scratch_is_not_the_video (temp_dir (self st)) token
              (video_format conversion)) as (Hne & Hdiff & Hchild).
  exists n, crf, preset,
    (image2_sequence (fs (world s2))
       (os_path_join (os_path_join (temp_dir (self st)) ("extracted_" ++ token))
          "frame_%04d.png")),
    video.
  split; [exact Hn |]. split; [exact Hq |]. split; [exact Hframes |].
  split; [rewrite <- Hengine; exact Henc |].
  split.
  - rewrite H8, lookup_delete_ne by exact Hdiff.
    rewrite (remove_loop_frame _ _ _ _ _ H7).
    + rewrite Hfs5. apply lookup_insert_eq.
    + intros name Hin. apply children_spec in Hin as (_ & Hslash & _).
      apply Hchild. exact Hslash.
  - rewrite H8. apply lookup_delete_eq.
Qed.

Lemma images_to_video_success_witness :
  let st :=
    Examples.frames_archive_state
      (Examples.small_picture "a") (Examples.small_picture "b") in
  let st' := snd (_images_to_video "tok" Examples.frames_job st) in
  exists n crf preset frames video,
    int_of_str "10" = Some n /\
    dict_get "medium" quality_settings = Some (crf, preset) /\
    frames <> [] /\
    ffmpeg_encode (world st) frames n
      {| vcodec := "libx264"; pix_fmt := "yuv420p"; crf := crf; preset := preset |}
      "/tmp/video_tok.mp4" = Some video /\
    fs (world st') !! "/tmp/video_tok.mp4" = Some (File video) /\
    fs (world st') !! "/tmp/extracted_tok" = None.
Proof.
  intros st st'.
  apply (images_to_video_success "tok" Examples.frames_job st
           "/tmp/video_tok.mp4" st').
  vm_compute. reflexivity.
Defined.

Lemma strip_prefix_app p r : strip_prefix p (p ++ r) = Some r.
Proof.
  induction p as [|c p IH]; [destruct r; reflexivity |].
  change (strip_prefix (String c p) (String c (p ++ r)) = Some r).
  simpl. rewrite Ascii.eqb_refl. exact IH.
Qed.

Lemma children_complete f p name n :
  name <> "" -> str_contains_char "/" name = false ->
  f !! (dir_prefix p ++ name) = Some n -> In name (children f p).
Proof.
  intros Hne Hslash Hlook. unfold children.
  rewrite <- list_elem_of_In, list_elem_of_omap.
  exists (dir_prefix p ++ name, n). split.
  - apply elem_of_map_to_list. exact Hlook.
  - rewrite strip_prefix_app.
    destruct (String.eqb_spec name ""); [contradiction |].
    simpl. rewrite Hslash. reflexivity.
Qed.

Lemma substring_skip pre k m s :
  substring (String.length pre + k) m (pre ++ s) = substring k m s.
Proof. induction pre as [|c pre IH]; simpl; [reflexivity | exact IH]. Qed.

(** A suffix no longer than the second part is a suffix of that part. *)
Lemma str_endswith_app a b suffix :
  (String.length suffix <= String.length b)%nat ->
  str_endswith (a ++ b) suffix = str_endswith b suffix.
Proof.
  intros Hlen. unfold str_endswith. rewrite app_length_str.
  replace (String.length a + String.length b - String.length suffix)%nat
    with (String.length a + (String.length b - String.length suffix))%nat by lia.
  rewrite substring_skip.
  replace (String.length suffix <=? String.length a + String.length b)%nat
    with true by (symmetry; apply Nat.leb_le; lia).
  replace (String.length suffix <=? String.length b)%nat
    with true by (symmetry; apply Nat.leb_le; lia).
  reflexivity.
Qed.

Lemma stat_insert_ne f p q v :
  q <> p -> stat (<[p := v]> f) q = stat f q.
Proof.
  intros Hne. unfold stat. destruct (String.eqb q "/"); [reflexivity |].
  apply lookup_insert_ne. congruence.
Qed.

Lemma stat_delete_Some f p q n :
  stat (delete p f) q = Some n -> stat f q = Some n.
Proof.
  unfold stat. destruct (String.eqb q "/"); [trivial |].
  intros H. apply lookup_delete_Some in H as [_ H]. exact H.
Qed.

(** Every name the removing loop got through was a file. *)
Lemma remove_loop_files (path_of : string -> string) listing st st' :
  for_each listing (fun name => os_remove (path_of name)) st = (Return tt, st') ->
  forall name, In name listing ->
    exists d, stat (fs (world st)) (path_of name) = Some (File d).
Proof.
  revert st. induction listing as [|name rest IH]; intros st; simpl.
  - intros _ n [].
  - intros H n Hin. step_in H u s1 H1. destruct u.
    destruct Hin as [<-|Hin].
    + revert H1. unfold os_remove, bind, get_fs, get_world. simpl.
      destruct (stat (fs (world st)) (path_of name)) as [[|d]|];
        try (intros [=]; fail).
      intros _. exists d. reflexivity.
    + destruct (IH s1 H n Hin) as [d Hd]. exists d.
      apply os_remove_inv in H1. rewrite H1 in Hd.
      exact (stat_delete_Some _ _ _ _ Hd).
Qed.

Lemma zip_write_inv zip_path filename arcname st st' :
  zip_write zip_path filename arcname st = (Return tt, st') ->
  exists member,
    fs (world st')
    = <[zip_path :=
          File (Zip (zip_members (fs (world st)) zip_path ++ [member]))]>
        (fs (world st)) /\
    ((exists d, stat (fs (world st)) filename = Some (File d) /\
                member = (arcname, d)) \/
     (stat (fs (world st)) filename = Some Dir /\ fst member = arcname ++ "/")).
Proof.
  unfold zip_write, bind, get_fs, get_world, ret. simpl.
  destruct (stat (fs (world st)) filename) as [[|d]|] eqn:Hstat;
    intros [=]; subst; simpl.
  - eexists. split; [reflexivity |]. right. split; reflexivity.
  - eexists. split; [reflexivity |]. left. exists d. split; reflexivity.
Qed.

(** The archiving loop of [_video_to_images]: the archive gains one member
    per listed name with the extension, under that name; a directory
    would be entered with a trailing slash. *)
Lemma archive_loop_inv zip_path dir ext listing st st' members :
  for_each listing
    (fun image_file =>
       if str_endswith image_file ext
       then zip_write zip_path (os_path_join dir image_file) image_file
       else ret tt) st = (Return tt, st') ->
  fs (world st) !! zip_path = Some (File (Zip members)) ->
  (forall name, In name listing -> os_path_join dir name <> zip_path) ->
  exists added,
    fs (world st') = <[zip_path := File (Zip (members ++ added))]> (fs (world st)) /\
    Forall (fun member =>
              exists name,
                In name listing /\ str_endswith name ext = true /\
                (fst member = name \/
                 stat (fs (world st)) (os_path_join dir name) = Some Dir))
           added.
Proof.
  revert st members. induction listing as [|name rest IH]; intros st members; simpl.
  - intros [= <-] Hzip _. exists []. split; [| constructor].
    rewrite app_nil_r. symmetry. apply insert_id. exact Hzip.
  - intros H Hzip Hne. step_in H u s1 H1. destruct u.
    destruct (str_endswith name ext) eqn:Hext.
    + apply zip_write_inv in H1 as (member & Hfs1 & Hmember).
      unfold zip_members in Hfs1. rewrite Hzip in Hfs1.
      destruct (IH s1 (members ++ [member])%list H) as (added & Hfs' & Hadded).
      { rewrite Hfs1. apply lookup_insert_eq. }
      { intros n Hin. apply Hne. now right. }
      exists (member :: added). split.
      * rewrite Hfs', Hfs1, insert_insert_eq, <- app_assoc. reflexivity.
      * constructor.
        -- exists name. split; [now left |]. split; [exact Hext |].
           destruct Hmember as [(d & _ & ->)|[Hdir _]]; [now left | now right].
        -- eapply Forall_impl; [exact Hadded |].
           intros m (n & Hin & Hn & Hm). exists n.
           split; [now right |]. split; [exact Hn |].
           destruct Hm as [Hm|Hm]; [now left | right].
           rewrite Hfs1, stat_insert_ne in Hm; [exact Hm |].
           apply Hne. now right.
    + apply ret_inv in H1 as [_ ->].
      destruct (IH st members H Hzip) as (added & Hfs' & Hadded).
      { intros n Hin. apply Hne. now right. }
      exists added. split; [exact Hfs' |].
      eapply Forall_impl; [exact Hadded |].
      intros m (n & Hin & Hn & Hm). exists n.
      split; [now right |]. split; [exact Hn |]. exact Hm.
Qed.

(** The frame directory of a job and its archive are different paths, and
    so is every entry of the directory, for a token that does not end in
    a slash. *)
Lemma scratch_is_not_the_archive tmp token :
  str_endswith token "/" = false ->
  let dir := os_path_join tmp ("images_" ++ token) in
  let zip_path := os_path_join tmp ("images_" ++ token ++ ".zip") in
  dir <> "" /\ dir <> zip_path /\
  forall name,
    str_contains_char "/" name = false -> os_path_join dir name <> zip_path.
Proof.
  intros Htoken dir zip_path. subst dir zip_path.
  destruct (os_path_join_base tmp) as [base Hbase].
  rewrite !Hbase by reflexivity.
  assert (base ++ "images_" ++ token <> "") as Hne.
  { intros H. apply (f_equal String.length) in H.
    rewrite app_length_str in H. simpl in H. lia. }
  assert (str_endswith (base ++ "images_" ++ token) "/" = false) as Hend.
  { rewrite str_endswith_app by (rewrite app_length_str; simpl; lia).
    destruct token as [|c token]; [reflexivity |].
    rewrite str_endswith_app by (simpl; lia). exact Htoken. }
  split; [exact Hne |]. split.
  - intros H. apply String.app_inj in H.
    change ("images_" ++ token ++ ".zip") with (("images_" ++ token) ++ ".zip") in H.
    apply (f_equal String.length) in H.
    rewrite !app_length_str in H. simpl in H. lia.
  - intros name Hslash. rewrite (os_path_join_child _ _ Hne Hslash).
    unfold dir_prefix. rewrite Hend.
    rewrite !app_assoc_str. intros H. apply String.app_inj in H.
    change ("images_" ++ token ++ "/" ++ name)
      with ("images_" ++ (token ++ "/" ++ name)) in H.
    change ("images_" ++ token ++ ".zip")
      with ("images_" ++ (token ++ ".zip")) in H.
    apply String.app_inj in H. apply String.app_inj in H.
    vm_compute in H. discriminate H.
Qed.

(** A successful [_video_to_images], for a token that does not end in a
    slash: the returned path holds a zip archive that is flat, every
    member being named as a file of the frame directory with the
    extension of the image format; the frame directory is gone. *)
Theorem video_to_images_success token conversion st path st' :
  str_endswith token "/" = false ->
  _video_to_images token conversion st = (Return path, st') ->
  exists members,
    fs (world st') !! path = Some (File (Zip members)) /\
    Forall (fun member =>
              str_endswith (fst member) ("." ++ image_format conversion) = true /\
              str_contains_char "/" (fst member) = false) members /\
    fs (world st') !! os_path_join (temp_dir (self st)) ("images_" ++ token) = None.
Proof.
  intros Htoken H. unfold _video_to_images in H.
  step_in H n s1 H1. apply py_int_inv in H1 as [Hn ->].
  step_in H d1 s2 H2. apply get_temp_dir_inv in H2 as [-> ->].
  step_in H u3 s3 H3.
  step_in H u4 s4 H4.
  pose proof (preserves_run _ _ _ _ _ (keeps_self_os_makedirs _) H3) as Hs3.
  pose proof (preserves_run _ _ _ _ _ (keeps_self_ffmpeg_run_image2 _ _ _) H4) as Hs4.
  unfold same_self in Hs3, Hs4.
  step_in H d5 s5 H5. apply get_temp_dir_inv in H5 as [-> ->].
  step_in H u6 s6 H6. destruct u6. apply fs_write_inv in H6 as [_ Hfs6].
  step_in H l7 s7 H7. apply os_listdir_inv in H7 as [-> ->].
  step_in H u8 s8 H8. destruct u8.
  step_in H l9 s9 H9. apply os_listdir_inv in H9 as [-> ->].
  step_in H u10 s10 H10. destruct u10.
  step_in H u11 s11 H11. destruct u11. apply os_rmdir_inv in H11.
  apply ret_inv in H as [-> ->].
  replace (temp_dir (self s4)) with (temp_dir (self st)) in *
    by (rewrite Hs4, Hs3; reflexivity).
  destruct (scratch_is_not_the_archive (temp_dir (self st)) token Htoken)
    as (Hne & Hdiff & Hchild).
  destruct (archive_loop_inv _ _ _ _ _ _ [] H8) as (added & Hfs8 & Hadded).
  { rewrite Hfs6. apply lookup_insert_eq. }
  { intros name Hin. apply children_spec in Hin as (_ & Hslash & _).
    apply Hchild. exact Hslash. }
  exists added. split; [| split].
  - rewrite H11, lookup_delete_ne by exact Hdiff.
    rewrite (remove_loop_frame _ _ _ _ _ H10).
    + rewrite Hfs8. apply lookup_insert_eq.
    + intros name Hin. apply children_spec in Hin as (_ & Hslash & _).
      apply Hchild. exact Hslash.
  - eapply Forall_impl; [exact Hadded |].
    intros member (name & Hin & Hext & Hmember).
    pose proof (children_spec _ _ _ Hin) as (Hname & Hslash & node & Hnode).
    assert (In name
              (children (fs (world s8))
                 (os_path_join (temp_dir (self st)) ("images_" ++ token))))
      as Hin8.
    { apply (children_complete _ _ _ node Hname Hslash).
      rewrite Hfs8, lookup_insert_ne; [exact Hnode |].
      rewrite <- (os_path_join_child _ _ Hne Hslash).
      intros E. apply (Hchild name Hslash). symmetry. exact E. }
    destruct (remove_loop_files _ _ _ _ H10 name Hin8) as [d Hd].
    rewrite Hfs8, stat_insert_ne in Hd by (apply Hchild; exact Hslash).
    destruct Hmember as [Hmember|Hmember];
      [| rewrite Hmember in Hd; discriminate Hd].
    rewrite Hmember. split; assumption.
  - rewrite H11. apply lookup_delete_eq.
Qed.

Lemma video_to_images_success_witness :
  let st := Examples.video_job_state in
  let job := Examples.mk_job "/up/clip.mp4" "video_to_images" 0 false in
  let st' := snd (_video_to_images "tok" job st) in
  exists members,
    fs (world st') !! "/tmp/images_tok.zip" = Some (File (Zip members)) /\
    Forall (fun member =>
              str_endswith (fst member) ".png" = true /\
              str_contains_char "/" (fst member) = false) members /\
    fs (world st') !! "/tmp/images_tok" = None.
Proof.
  intros st job st'.
  apply (video_to_images_success "tok" job st "/tmp/images_tok.zip" st').
  - reflexivity.
  - vm_compute. reflexivity.
Defined.

(** ** The frames in the order of their names *)

(** *** Canonical names are distinct *)

Lemma pretty_N_char_nonzero x : (0 < x < 10)%N -> pretty_N_char x <> "0"%char.
Proof.
  intros Hx.
  assert (x = 1 \/ x = 2 \/ x = 3 \/ x = 4 \/ x = 5 \/ x = 6 \/ x = 7 \/ x = 8
          \/ x = 9)%N as Hcases by lia.
  repeat (destruct Hcases as [-> | Hcases]; [discriminate |]).
  subst x. discriminate.
Qed.

Lemma pretty_N_go_head x :
  forall s, (0 < x)%N ->
  exists c r, pretty_N_go x s = String c r /\ c <> "0"%char.
Proof.
  induction (N.lt_wf_0 x) as [x _ IH]. intros s Hx.
  rewrite pretty_N_go_step by exact Hx.
  destruct (decide (x `div` 10 = 0)%N) as [Hz | Hnz].
  - rewrite Hz, pretty_N_go_0.
    apply N.div_small_iff in Hz; [| lia].
    rewrite N.mod_small by exact Hz.
    eexists _, _. split; [reflexivity |].
    apply pretty_N_char_nonzero. lia.
  - apply IH.
    + apply N.div_lt; lia.
    + apply N.neq_0_lt_0. exact Hnz.
Qed.

Lemma pretty_nat_numeral (n : nat) : numeral (pretty n).
Proof.
  destruct n as [|n]; [left; reflexivity | right].
  unfold pretty, pretty_nat, pretty, pretty_N.
  destruct (decide (N.of_nat (S n) = 0)%N) as [Hz | _]; [lia |].
  apply pretty_N_go_head. lia.
Qed.

Lemma zeros_S n : zeros (S n) = String "0" (zeros n).
Proof. destruct n; reflexivity. Qed.

Lemma zeros_app_inj m n a b :
  numeral a -> numeral b -> zeros m ++ a = zeros n ++ b -> a = b.
Proof.
  intros Ha Hb. revert n.
  assert (forall k x y, numeral x -> numeral y ->
            x = zeros (S k) ++ y -> False) as Hshort.
  { intros k x y Hx Hy Heq. rewrite zeros_S in Heq.
    change (x = String "0" (zeros k ++ y)) in Heq.
    destruct Hx as [-> | (c & r & -> & Hc)].
    - injection Heq as Heq. destruct Hy as [-> | (c & r & -> & _)];
        destruct (zeros k); discriminate Heq.
    - injection Heq as Hc' _. congruence. }
  induction m as [|m IH]; intros n Heq.
  - destruct n as [|n]; [exact Heq |]. exfalso. exact (Hshort n a b Ha Hb Heq).
  - destruct n as [|n].
    + exfalso. symmetry in Heq. exact (Hshort m b a Hb Ha Heq).
    + rewrite !zeros_S in Heq.
      change (String "0" (zeros m ++ a) = String "0" (zeros n ++ b)) in Heq.
      injection Heq as Heq. exact (IH n Heq).
Qed.

Lemma format_04d_inj i j : format_04d i = format_04d j -> i = j.
Proof.
  unfold format_04d, zfill. intros H.
  apply (zeros_app_inj _ _ _ _ (pretty_nat_numeral i) (pretty_nat_numeral j)) in H.
  exact (inj pretty i j H).
Qed.

Lemma str_app_inv_tail a b c : a ++ c = b ++ c -> a = b.
Proof.
  revert b. induction a as [|x a IH]; intros b H.
  - destruct b as [|y b]; [reflexivity |].
    apply (f_equal String.length) in H.
    rewrite !app_length_str in H. simpl in H. lia.
  - destruct b as [|y b].
    + apply (f_equal String.length) in H.
      rewrite !app_length_str in H. simpl in H. lia.
    + change (String x (a ++ c) = String y (b ++ c)) in H.
      injection H as -> H. f_equal. exact (IH b H).
Qed.

Lemma frame_name_inj i j : frame_name i = frame_name j -> i = j.
Proof.
  unfold frame_name. intros H. apply String.app_inj in H.
  apply str_app_inv_tail in H. exact (format_04d_inj i j H).
Qed.

(** *** Flat member names *)

Lemma str_split_flat s :
  str_contains_char "/" s = false -> str_split "/" s = [s].
Proof.
  induction s as [|c s IH]; [reflexivity |].
  change (str_contains_char "/" (String c s))
    with (Ascii.eqb "/" c || str_contains_char "/" s)%bool.
  change (str_split "/" (String c s))
    with (if Ascii.eqb c "/" then "" :: str_split "/" s
          else match str_split "/" s with
               | [] => [String c ""]
               | w :: ws => String c w :: ws
               end).
  rewrite (Ascii.eqb_sym c "/").
  destruct (Ascii.eqb "/" c); [intros [=] |].
  intros H. rewrite (IH H). reflexivity.
Qed.

(** A member with an image extension and no slash in its name is
    extracted under its name. *)
Lemma zip_arcname_flat name :
  str_contains_char "/" name = false -> _is_image_file name = true ->
  zip_arcname name = name.
Proof.
  intros Hslash Himage. unfold zip_arcname. rewrite (str_split_flat _ Hslash).
  rewrite filter_cons, filter_nil.
  destruct (decide (name ∉ [""; "."; ".."])) as [_ | Hin]; [reflexivity |].
  exfalso. apply Hin. intros Helem.
  repeat (apply elem_of_cons in Helem as [-> | Helem]; [discriminate Himage |]).
  apply elem_of_nil in Helem. exact Helem.
Qed.

Lemma image_names_cons member rest :
  image_names (member :: rest)
  = if _is_image_file (fst member) then fst member :: image_names rest
    else image_names rest.
Proof.
  unfold image_names. simpl. destruct (_is_image_file (fst member)); reflexivity.
Qed.

Lemma image_names_In name members :
  In name (image_names members) <->
  _is_image_file name = true /\ exists d, In (name, d) members.
Proof.
  unfold image_names. rewrite in_map_iff. split.
  - intros ([n d] & <- & Hin). apply filter_In in Hin as [Hin Himage].
    split; [exact Himage |]. exists d. exact Hin.
  - intros (Himage & d & Hin). exists (name, d). split; [reflexivity |].
    apply filter_In. split; assumption.
Qed.

(** With distinct names, a name stands for one member. *)
Lemma image_names_NoDup_data members name d1 d2 :
  NoDup (image_names members) -> _is_image_file name = true ->
  In (name, d1) members -> In (name, d2) members -> d1 = d2.
Proof.
  induction members as [|[n d] rest IH]; [intros _ _ [] |].
  rewrite image_names_cons. simpl. intros Hnd Himage H1 H2.
  destruct (_is_image_file n) eqn:Hn.
  - inversion Hnd as [|? ? Hnotin Hnd']. subst.
    rewrite list_elem_of_In in Hnotin.
    destruct H1 as [H1 | H1], H2 as [H2 | H2].
    + congruence.
    + injection H1 as -> _. exfalso. apply Hnotin. apply image_names_In. eauto.
    + injection H2 as -> _. exfalso. apply Hnotin. apply image_names_In. eauto.
    + exact (IH Hnd' Himage H1 H2).
  - destruct H1 as [[= -> ->] | H1]; [congruence |].
    destruct H2 as [[= -> ->] | H2]; [congruence |].
    exact (IH Hnd Himage H1 H2).
Qed.

(** *** Extraction *)

Lemma os_path_exists_inv p b st st' :
  os_path_exists p st = (Return b, st') -> st' = st.
Proof.
  unfold os_path_exists, bind, get_fs, get_world, ret. simpl.
  intros [= _ <-]. reflexivity.
Qed.

(** [zipf.extract] may create directories, which leaves every entry in
    place, and then writes the member. *)
Lemma zip_extract_inv member path st st' :
  zip_extract member path st = (Return tt, st') ->
  exists s,
    keeps_entries st s /\
    fs (world st')
    = <[os_path_join path (zip_arcname (fst member)) := File (snd member)]>
        (fs (world s)).
Proof.
  unfold zip_extract.
  destruct (String.eqb (zip_arcname (fst member)) ""); [intros [=] |].
  intros H. step_in H upper_exists s1 H1. apply os_path_exists_inv in H1 as ->.
  step_in H u s2 H2. apply fs_write_inv in H as [_ Hfs].
  exists s2. split; [| exact Hfs].
  destruct (negb (String.eqb _ "") && negb upper_exists)%bool.
  - exact (preserves_run _ _ _ _ _ (keeps_entries_os_makedirs _) H2).
  - apply ret_inv in H2 as [_ ->]. reflexivity.
Qed.

Lemma stat_File_lookup f p d :
  stat f p = Some (File d) -> f !! p = Some (File d).
Proof. unfold stat. destruct (String.eqb p "/"); [intros [=] | trivial]. Qed.

Section Frames.

Variables dir base : string.

Hypothesis Hbase :
  forall name, str_startswith name "/" = false -> os_path_join dir name = base ++ name.

Lemma flat_path name :
  str_contains_char "/" name = false -> os_path_join dir name = base ++ name.
Proof. intros H. apply Hbase. apply no_slash_not_absolute. exact H. Qed.

Lemma frame_path i : os_path_join dir (frame_name i) = base ++ frame_name i.
Proof. apply Hbase. reflexivity. Qed.

(** After the extraction loop every member with an image extension is a
    file of the scratch directory, under its name; what was at other
    paths is still there. *)
Lemma extract_images_files filelist :
  forall st names st',
    extract_images filelist dir st = (Return names, st') ->
    NoDup (image_names filelist) ->
    Forall (fun name => str_contains_char "/" name = false)
      (image_names filelist) ->
    (forall p x,
       fs (world st) !! p = Some x ->
       (forall name, In name (image_names filelist) -> base ++ name <> p) ->
       fs (world st') !! p = Some x) /\
    (forall name d,
       In (name, d) filelist -> _is_image_file name = true ->
       fs (world st') !! (base ++ name) = Some (File d)).
Proof.
  induction filelist as [|[n d] rest IH]; intros st names st'.
  - simpl. intros [= _ <-] _ _. split; [intros p x Hp _; exact Hp | intros ? ? []].
  - rewrite image_names_cons. simpl.
    destruct (_is_image_file n) eqn:Hn.
    + intros H Hnd Hflat.
      inversion Hnd as [|? ? Hnotin Hnd']. subst.
    rewrite list_elem_of_In in Hnotin.
      inversion Hflat as [|? ? Hslash Hflat']. subst.
      step_in H u s1 H1. destruct u. step_in H rest_names s2 H2.
      apply ret_inv in H as [_ ->].
      apply zip_extract_inv in H1 as (s & Hkeeps & Hfs1). simpl in Hfs1.
      rewrite (zip_arcname_flat _ Hslash Hn), (flat_path _ Hslash) in Hfs1.
      destruct (IH _ _ _ H2 Hnd' Hflat') as [Hframe Hfiles].
      split.
      * intros p x Hp Hother. apply Hframe.
        -- rewrite Hfs1, lookup_insert_ne by (apply Hother; now left).
           apply Hkeeps. exact Hp.
        -- intros name Hin. apply Hother. now right.
      * intros name d' [[= -> ->] | Hin] Himage.
        -- apply Hframe; [rewrite Hfs1; apply lookup_insert_eq |].
           intros name' Hin' Heq. apply String.app_inj in Heq. subst name'.
           contradiction.
        -- exact (Hfiles _ _ Hin Himage).
    + intros H Hnd Hflat.
      destruct (IH _ _ _ H Hnd Hflat) as [Hframe Hfiles].
      split; [exact Hframe |].
      intros name d' [[= -> ->] | Hin] Himage; [congruence |].
      exact (Hfiles _ _ Hin Himage).
Qed.

(** *** The renaming loop *)

(** One turn of the loop, in full: the picture under the old name is
    re-encoded under the canonical name, and the old name is removed
    unless it is the canonical name. *)
Lemma canonical_frame_inv size i image_file st st' :
  canonical_frame dir size (i, image_file) st = (Return tt, st') ->
  exists img,
    stat (fs (world st)) (os_path_join dir image_file)
    = Some (File (Picture img)) /\
    fs (world st')
    = (if String.eqb (os_path_join dir image_file)
            (os_path_join dir (frame_name i))
       then fun f => f
       else delete (os_path_join dir image_file))
        (<[os_path_join dir (frame_name i) := File (canonical_picture size img)]>
           (fs (world st))).
Proof.
  intros H. unfold canonical_frame in H.
  step_in H img s1 H1. apply Image_open_inv in H1 as [Himg ->].
  step_in H u s2 H2. destruct u. unfold img_save in H2.
  apply fs_write_inv in H2 as [_ Hfs].
  exists img. split; [exact Himg |]. unfold frame_name.
  destruct (String.eqb (os_path_join dir image_file)
              (os_path_join dir ("frame_" ++ format_04d i ++ ".png")));
    simpl in H.
  - apply ret_inv in H as [_ ->]. exact Hfs.
  - apply os_remove_inv in H. rewrite H, Hfs. reflexivity.
Qed.

Variable size : Z * Z.
Variable members : list (string * data).

(** The loop from index [k] on.  Frames saved before stay as they are,
    and every name of the list gives the frame of its index, provided a
    name that is itself canonical does not come after its own index. *)
Lemma renaming_loop rest :
  forall k st st',
    for_each (zip (seq k (length rest)) rest) (canonical_frame dir size) st
    = (Return tt, st') ->
    NoDup rest ->
    Forall (fun name => str_contains_char "/" name = false) rest ->
    (forall p q, rest !! p = Some (frame_name q) -> (k + p <= q)%nat) ->
    (forall name, In name rest ->
       exists d, In (name, d) members /\
                 fs (world st) !! (base ++ name) = Some (File d)) ->
    (forall q, (q < k)%nat ->
       fs (world st') !! (base ++ frame_name q)
       = fs (world st) !! (base ++ frame_name q)) /\
    (forall p name, rest !! p = Some name ->
       exists img,
         In (name, Picture img) members /\
         fs (world st') !! (base ++ frame_name (k + p))
         = Some (File (canonical_picture size img))).
Proof.
  induction rest as [|name rest IH]; intros k st st'.
  - simpl. intros [= <-] _ _ _ _. split; [reflexivity | intros p name [=]].
  - simpl. intros H Hnd Hflat Hclash Hpending.
    inversion Hnd as [|? ? Hnotin Hnd']. subst.
    rewrite list_elem_of_In in Hnotin.
    inversion Hflat as [|? ? Hslash Hflat']. subst.
    step_in H u s1 H1. destruct u.
    apply canonical_frame_inv in H1 as (img & Hstat & Hfs1).
    rewrite (flat_path _ Hslash) in Hstat, Hfs1. rewrite frame_path in Hfs1.
    assert (forall p, p <> base ++ frame_name k -> p <> base ++ name ->
              fs (world s1) !! p = fs (world st) !! p) as Hother.
    { intros p Hnew Hold. rewrite Hfs1.
      destruct (String.eqb (base ++ name) (base ++ frame_name k)).
      - apply lookup_insert_ne. congruence.
      - rewrite lookup_delete_ne by congruence. apply lookup_insert_ne. congruence. }
    assert (fs (world s1) !! (base ++ frame_name k)
            = Some (File (canonical_picture size img))) as Hnew.
    { rewrite Hfs1.
      destruct (String.eqb_spec (base ++ name) (base ++ frame_name k)) as [_ | Hne].
      - apply lookup_insert_eq.
      - rewrite lookup_delete_ne by exact Hne. apply lookup_insert_eq. }
    destruct (IH (S k) s1 st' H Hnd' Hflat') as [Hkept Hframes].
    { intros p q Hp. specialize (Hclash (S p) q Hp). lia. }
    { intros name' Hin.
      destruct (Hpending name' (or_intror Hin)) as (d & Hd & Hlook).
      exists d. split; [exact Hd |]. rewrite Hother; [exact Hlook | |].
      - intros Heq. apply String.app_inj in Heq. subst name'.
        apply In_nth_error in Hin as [p Hp].
        assert ((name :: rest) !! S p = Some (frame_name k)) as Hp'.
        { simpl. rewrite <- Hp. clear. revert p.
          induction rest as [|x l IHl]; intros [|p]; simpl; auto. }
        specialize (Hclash (S p) k Hp'). lia.
      - intros Heq. apply String.app_inj in Heq. subst name'. contradiction. }
    split.
    + intros q Hq. rewrite (Hkept q) by lia. apply Hother.
      * intros Heq. apply String.app_inj, frame_name_inj in Heq. lia.
      * intros Heq. apply String.app_inj in Heq.
        assert ((name :: rest) !! 0%nat = Some (frame_name q)) as Hp'
          by (simpl; congruence).
        specialize (Hclash 0%nat q Hp'). lia.
    + intros [|p] name' Hp; simpl in Hp.
      * injection Hp as <-.
        destruct (Hpending name (or_introl eq_refl)) as (d & Hd & Hlook).
        apply stat_File_lookup in Hstat. rewrite Hlook in Hstat.
        injection Hstat as ->.
        exists img. split; [exact Hd |].
        rewrite Nat.add_0_r, (Hkept k) by lia. exact Hnew.
      * destruct (Hframes p name' Hp) as (img' & Hin' & Hlook').
        exists img'. split; [exact Hin' |].
        rewrite Nat.add_succ_r. exact Hlook'.
Qed.

End Frames.

(** *** From the archive to the frames *)

(** For an archive that is flat, whose image members have distinct names
    and in which a member that is itself named like a canonical frame does
    not sort behind the index of that frame: when [prepare_frames]
    returns, the canonical frame of every index is the re-encoded picture
    of the member whose name has that index in the sorted list of names.
    The size is the size of the member whose name sorts first. *)
Lemma frames_of_sorted_members token conversion st dir st' members :
  prepare_frames token conversion st = (Return dir, st') ->
  stat (fs (world st)) (file_path conversion) = Some (File (Zip members)) ->
  NoDup (image_names members) ->
  Forall (fun name => str_contains_char "/" name = false) (image_names members) ->
  (forall p q,
     list_sort (image_names members) !! p = Some (frame_name q) -> (p <= q)%nat) ->
  exists first,
    In (List.hd "" (list_sort (image_names members)), Picture first) members /\
    forall i name,
      list_sort (image_names members) !! i = Some name ->
      exists img,
        In (name, Picture img) members /\
        fs (world st') !! os_path_join dir (frame_name i)
        = Some (File (canonical_picture (img_size first) img)).
Proof.
  intros H Harchive Hnd Hflat Hclash. unfold prepare_frames in H.
  step_in H tmp s1 H1. apply get_temp_dir_inv in H1 as [-> ->].
  step_in H u s2 H2. destruct u.
  pose proof (preserves_run _ _ _ _ _ (keeps_entries_os_makedirs _) H2) as Hkeeps.
  step_in H filelist s3 H3.
  rewrite (zip_open_read_run _ _ _ (keeps_entries_stat _ _ _ _ Hkeeps Harchive))
    in H3.
  injection H3 as <- <-.
  step_in H names s4 H4.
  pose proof (extract_images_names _ _ _ _ _ H4) as Hnames.
  fold (image_names members) in Hnames.
  destruct names as [|n0 ns]; [discriminate H |].
  rewrite Hnames in H, H4.
  step_in H img0 s5 H5. apply Image_open_inv in H5 as [Hfirst ->].
  step_in H u s6 H6. destruct u. apply ret_inv in H as [-> ->].
  unfold enumerate in H6.
  set (scratch := os_path_join (temp_dir (self st)) ("extracted_" ++ token)) in *.
  remember (list_sort (image_names members)) as sorted eqn:Hsorted.
  destruct (os_path_join_base scratch) as [base Hbase].
  destruct (extract_images_files scratch base Hbase members _ _ _ H4 Hnd Hflat)
    as [_ Hfiles].
  assert (Permutation sorted (image_names members)) as Hperm
    by (subst sorted; apply merge_sort_Permutation).
  assert (forall name, In name sorted ->
            str_contains_char "/" name = false /\
            exists d, In (name, d) members /\
                      fs (world s4) !! (base ++ name) = Some (File d))
    as Hpending.
  { intros name Hin. apply (Permutation_in _ Hperm) in Hin.
    split.
    - rewrite Forall_forall in Hflat. apply Hflat, list_elem_of_In, Hin.
    - apply image_names_In in Hin as (Himage & d & Hd).
      exists d. split; [exact Hd |]. exact (Hfiles _ _ Hd Himage). }
  destruct (renaming_loop scratch base Hbase (img_size img0) members
              sorted 0%nat s4 s6 H6) as [_ Hframes].
  { rewrite Hperm. exact Hnd. }
  { rewrite Hperm. exact Hflat. }
  { intros p q Hp. simpl. exact (Hclash p q Hp). }
  { intros name Hin. exact (proj2 (Hpending name Hin)). }
  exists img0. split.
  - destruct sorted as [|name0 rest].
    { apply Permutation_nil in Hperm. rewrite Hperm in Hnames.
      discriminate Hnames. }
    simpl in Hfirst |- *.
    destruct (Hpending name0 (or_introl eq_refl)) as (Hslash & d & Hd & Hlook).
    rewrite (flat_path scratch base Hbase _ Hslash) in Hfirst.
    apply stat_File_lookup in Hfirst. rewrite Hlook in Hfirst.
    injection Hfirst as ->. exact Hd.
  - intros i name Hi. destruct (Hframes i name Hi) as (img & Hin & Hlook).
    exists img. split; [exact Hin |].
    rewrite (frame_path scratch base Hbase). exact Hlook.
Qed.

Lemma image_names_Permutation members1 members2 :
  Permutation members1 members2 ->
  Permutation (image_names members1) (image_names members2).
Proof.
  intros Hperm. unfold image_names. apply Permutation_map.
  induction Hperm as [| x l l' _ IH | x y l | l l' l'' _ IH1 _ IH2]; simpl.
  - reflexivity.
  - destruct (_is_image_file (fst x)); [constructor |]; exact IH.
  - destruct (_is_image_file (fst x)), (_is_image_file (fst y));
      try reflexivity. constructor.
  - etransitivity; eassumption.
Qed.

Lemma list_sort_Permutation names1 names2 :
  Permutation names1 names2 -> list_sort names1 = list_sort names2.
Proof.
  intros Hperm. apply (Sorted_unique str_le).
  - apply Sorted_merge_sort. exact _.
  - apply Sorted_merge_sort. exact _.
  - unfold list_sort. rewrite !merge_sort_Permutation. exact Hperm.
Qed.

(** C7: the extracted file names are sorted lexicographically before the
    renaming loop runs over them.  In general, for an archive that is
    flat, whose image members have distinct names, and in which a member
    that is itself named like a canonical frame does not sort behind the
    index of that frame: when the frames have been prepared, the
    canonical frame of index [i] is the re-encoded picture of the member
    whose name is the [i]-th of the names in lexicographic order, whatever
    the order of the archive.  In particular, for an archive that lists
    [b.png] before [a.png], whatever the two pictures, the frame saved as
    [frame_0000.png] is the re-encoded picture of [a.png], the sequence
    [ffmpeg] reads starts with it, and so does the video that is
    delivered. *)
Theorem frames_in_lexicographic_order :
  (forall token conversion st dir st' members,
     prepare_frames token conversion st = (Return dir, st') ->
     stat (fs (world st)) (file_path conversion) = Some (File (Zip members)) ->
     NoDup (image_names members) ->
     Forall (fun name => str_contains_char "/" name = false)
       (image_names members) ->
     (forall p q,
        list_sort (image_names members) !! p = Some (frame_name q) ->
        (p <= q)%nat) ->
     let sorted := list_sort (image_names members) in
     Sorted str_le sorted /\
     Permutation sorted (image_names members) /\
     exists first,
       In (List.hd "" sorted, Picture first) members /\
       forall i name,
         sorted !! i = Some name ->
         exists img,
           In (name, Picture img) members /\
           fs (world st') !! os_path_join dir (frame_name i)
           = Some (File (canonical_picture (img_size first) img))) /\
  (forall names,
     Sorted str_le (list_sort names) /\ Permutation (list_sort names) names) /\
  list_sort ["b.png"; "a.png"] = ["a.png"; "b.png"] /\
  forall a b,
    let st := Examples.frames_archive_state a b in
    let prepared := prepare_frames "tok" Examples.frames_job st in
    let delivered := convert_and_save "tok" st in
    let first := canonical_picture (img_size a) a in
    let second := canonical_picture (img_size a) b in
    fst prepared = Return "/tmp/extracted_tok" /\
    fs (world (snd prepared)) !! "/tmp/extracted_tok/frame_0000.png"
    = Some (File first) /\
    fs (world (snd prepared)) !! "/tmp/extracted_tok/frame_0001.png"
    = Some (File second) /\
    image2_sequence (fs (world (snd prepared))) "/tmp/extracted_tok/frame_%04d.png"
    = [first; second] /\
    fst delivered = Return (Some "/tmp/video_tok.mp4") /\
    fs (world (snd delivered)) !! "/tmp/video_tok.mp4"
    = Some (File (Zip [("frame", first); ("frame", second)])).
Proof.
  split; [| split; [| split]].
  - intros token conversion st dir st' members Hrun Harchive Hnd Hflat Hclash sorted.
    split; [apply Sorted_merge_sort; exact _ |].
    split; [apply merge_sort_Permutation |].
    exact (frames_of_sorted_members _ _ _ _ _ _ Hrun Harchive Hnd Hflat Hclash).
  - intros names. unfold list_sort. split.
    + apply Sorted_merge_sort. exact _.
    + apply merge_sort_Permutation.
  - vm_compute. reflexivity.
  - intros [fa [wa ha] ma pa] [fb [wb hb] mb pb].
    vm_compute. repeat split.
Qed.

Lemma frames_in_lexicographic_order_witness :
  let a := Examples.small_picture "a" in
  let b := Examples.small_picture "b" in
  let members := [("b.png", Picture b); ("a.png", Picture a)] in
  let st := Examples.frames_archive_state a b in
  let st' := snd (prepare_frames "tok" Examples.frames_job st) in
  exists first,
    In ("a.png", Picture first) members /\
    (exists img,
       In ("a.png", Picture img) members /\
       fs (world st') !! "/tmp/extracted_tok/frame_0000.png"
       = Some (File (canonical_picture (img_size first) img))) /\
    (exists img,
       In ("b.png", Picture img) members /\
       fs (world st') !! "/tmp/extracted_tok/frame_0001.png"
       = Some (File (canonical_picture (img_size first) img))).
Proof.
  intros a b members st st'.
  destruct (proj1 frames_in_lexicographic_order "tok" Examples.frames_job st
              "/tmp/extracted_tok" st' members)
    as (_ & _ & first & Hfirst & Hframes).
  - vm_compute. reflexivity.
  - reflexivity.
  - apply (bool_decide_unpack _). vm_compute. exact I.
  - apply (bool_decide_unpack _). vm_compute. exact I.
  - intros p q Hp.
    change (list_sort (image_names members)) with ["a.png"; "b.png"] in Hp.
    destruct p as [|[|p]]; simpl in Hp; [| | discriminate Hp];
      apply (f_equal (fun name => String.get 0 (default "" name))) in Hp;
      simpl in Hp; discriminate Hp.
  - exists first. split; [exact Hfirst |].
    split; [exact (Hframes 0%nat "a.png" eq_refl)
           | exact (Hframes 1%nat "b.png" eq_refl)].
Defined.

(** The frames that are prepared do not depend on the order in which the
    archive lists its members: two archives with the same members, flat,
    with distinct image names and no canonical name in the way, yield the
    same picture under every canonical name, whatever else differs
    between the two jobs and the two states. *)
Theorem frame_order_ignores_archive_order
    token1 token2 conversion1 conversion2 st1 st2 dir1 dir2 st1' st2'
    members1 members2 :
  Permutation members1 members2 ->
  stat (fs (world st1)) (file_path conversion1) = Some (File (Zip members1)) ->
  stat (fs (world st2)) (file_path conversion2) = Some (File (Zip members2)) ->
  prepare_frames token1 conversion1 st1 = (Return dir1, st1') ->
  prepare_frames token2 conversion2 st2 = (Return dir2, st2') ->
  NoDup (image_names members1) ->
  Forall (fun name => str_contains_char "/" name = false)
    (image_names members1) ->
  (forall p q,
     list_sort (image_names members1) !! p = Some (frame_name q) ->
     (p <= q)%nat) ->
  forall i, (i < length (image_names members1))%nat ->
    exists frame,
      fs (world st1') !! os_path_join dir1 (frame_name i) = Some (File frame) /\
      fs (world st2') !! os_path_join dir2 (frame_name i) = Some (File frame).
Proof.
  intros Hperm Harchive1 Harchive2 Hrun1 Hrun2 Hnd Hflat Hclash i Hi.
  pose proof (image_names_Permutation _ _ Hperm) as Hnames.
  pose proof (list_sort_Permutation _ _ Hnames) as Hsorted.
  assert (Permutation (list_sort (image_names members1)) (image_names members1))
    as Hsort by apply merge_sort_Permutation.
  destruct (frames_of_sorted_members _ _ _ _ _ _ Hrun1 Harchive1 Hnd Hflat Hclash)
    as (first1 & Hfirst1 & Hframes1).
  destruct (frames_of_sorted_members _ _ _ _ _ _ Hrun2 Harchive2)
    as (first2 & Hfirst2 & Hframes2).
  { rewrite <- Hnames. exact Hnd. }
  { rewrite <- Hnames. exact Hflat. }
  { rewrite <- Hsorted. exact Hclash. }
  rewrite <- Hsorted in Hfirst2, Hframes2.
  assert (forall name d1 d2,
            In name (list_sort (image_names members1)) ->
            In (name, d1) members1 -> In (name, d2) members2 -> d1 = d2)
    as Hsame.
  { intros name d1 d2 Hin H1 H2.
    apply (Permutation_in _ Hsort), image_names_In in Hin as [Himage _].
    apply (Permutation_in _ (Permutation_sym Hperm)) in H2.
    exact (image_names_NoDup_data _ _ _ _ Hnd Himage H1 H2). }
  destruct (lookup_lt_is_Some_2 (list_sort (image_names members1)) i)
    as [name Hname].
  { rewrite (Permutation_length Hsort). exact Hi. }
  assert (In name (list_sort (image_names members1))) as Hin
    by (apply list_elem_of_In; eapply list_elem_of_lookup_2; exact Hname).
  assert (first2 = first1) as ->.
  { destruct (list_sort (image_names members1)) as [|name0 rest];
      [destruct Hin |].
    simpl in Hfirst1, Hfirst2.
    pose proof (Hsame name0 _ _ (or_introl eq_refl) Hfirst1 Hfirst2) as Heq.
    congruence. }
  destruct (Hframes1 i name Hname) as (img1 & Hin1 & Hlook1).
  destruct (Hframes2 i name Hname) as (img2 & Hin2 & Hlook2).
  pose proof (Hsame name _ _ Hin Hin1 Hin2) as Heq. injection Heq as ->.
  eexists. split; [exact Hlook1 | exact Hlook2].
Qed.

Lemma frame_order_ignores_archive_order_witness :
  let a := Picture (Examples.small_picture "a") in
  let b := Picture (Examples.small_picture "b") in
  let st1 := Examples.archive_state [("frame_0002.png", b); ("frame_0001.png", a)] in
  let st2 := Examples.archive_state [("frame_0001.png", a); ("frame_0002.png", b)] in
  let st1' := snd (prepare_frames "tok" Examples.frames_job st1) in
  let st2' := snd (prepare_frames "tok" Examples.frames_job st2) in
  (exists frame,
     fs (world st1') !! "/tmp/extracted_tok/frame_0000.png" = Some (File frame) /\
     fs (world st2') !! "/tmp/extracted_tok/frame_0000.png" = Some (File frame)) /\
  (exists frame,
     fs (world st1') !! "/tmp/extracted_tok/frame_0001.png" = Some (File frame) /\
     fs (world st2') !! "/tmp/extracted_tok/frame_0001.png" = Some (File frame)).
Proof.
  intros a b st1 st2 st1' st2'.
  pose proof (frame_order_ignores_archive_order
                "tok" "tok" Examples.frames_job Examples.frames_job
                st1 st2 "/tmp/extracted_tok" "/tmp/extracted_tok" st1' st2'
                [("frame_0002.png", b); ("frame_0001.png", a)]
                [("frame_0001.png", a); ("frame_0002.png", b)]) as H.
  assert (forall i, (i < 2)%nat ->
            exists frame,
              fs (world st1') !! os_path_join "/tmp/extracted_tok" (frame_name i)
              = Some (File frame) /\
              fs (world st2') !! os_path_join "/tmp/extracted_tok" (frame_name i)
              = Some (File frame)) as Hframes.
  { apply H.
    - apply perm_swap.
    - reflexivity.
    - reflexivity.
    - vm_compute. reflexivity.
    - vm_compute. reflexivity.
    - apply (bool_decide_unpack _). vm_compute. exact I.
    - apply (bool_decide_unpack _). vm_compute. exact I.
    - intros p q Hp.
      change (list_sort _) with ["frame_0001.png"; "frame_0002.png"] in Hp.
      destruct p as [|[|p]]; simpl in Hp; [lia | | discriminate Hp].
      destruct q as [|q]; [discriminate Hp | lia]. }
  split; [exact (Hframes 0%nat ltac:(lia)) | exact (Hframes 1%nat ltac:(lia))].
Defined.
